(** * tukaan.textbox: a shallow embedding of [tukaan/textbox.py]

    The module wraps a Tk [text] widget.  Everything that happens inside the
    Tcl interpreter (index resolution, comparison, the undo stack, the mark
    table, peers, searching, dumping) is external to the Python file, so the
    interpreter is an abstract state type with an evaluation function; the
    Python code of [textbox.py] is embedded on top of it in a small
    state-and-exception monad. *)

From Stdlib Require Import ZArith Lia Ascii DecimalString.
From Stdlib Require DecimalPos DecimalZ.
From stdpp Require Import base option list gmap strings.

Local Open Scope Z_scope.

(** ** Python exceptions and outcomes *)

Inductive exn :=
| TypeError
| ValueError (msg : string)
| UnboundLocalError (var : string)
| IndexError
| KeyError (key : string)
| RuntimeError (msg : string)
| TclError (msg : string)
(** [open()] on a file that cannot be opened *)
| OSError (msg : string)
(** a reference outside the object store; no call of the module makes one *)
| ReferenceError.

Inductive outcome (A : Type) :=
| Ret (a : A)
| Raise (e : exn).
Arguments Ret {A} a.
Arguments Raise {A} e.

(** ** Python string helpers used by the module *)

(** [s.split(".")] *)
Fixpoint split_dot (s : string) : list string :=
  match s with
  | EmptyString => [EmptyString]
  | String c s' =>
      if Ascii.eqb c "."%char then EmptyString :: split_dot s'
      else match split_dot s' with
           | [] => [String c EmptyString]
           | x :: xs => String c x :: xs
           end
  end.

(** [int(s)] on the decimal literals Tk prints: an optional sign followed by
    digits.  Anything else is a [ValueError] (here [None]). *)
Definition py_int (s : string) : option Z :=
  match s with
  | String c s' =>
      if Ascii.eqb c "+"%char then Z.of_uint <$> NilZero.uint_of_string s'
      else Z.of_int <$> NilZero.int_of_string s
  | EmptyString => None
  end.

(** [str(z)] / [f"{z}"] for an integer *)
Definition py_str (z : Z) : string := NilZero.string_of_int (Z.to_int z).

(** A one-character string for every character of [s]: what [list += s]
    appends when [s] is a string. *)
Fixpoint chars_of (s : string) : list string :=
  match s with
  | EmptyString => []
  | String c s' => String c EmptyString :: chars_of s'
  end.

(** [l.insert(i, x)] for [0 <= i]: past the end it appends. *)
Definition list_insert_at {A} (i : nat) (x : A) (l : list A) : list A :=
  take i l ++ x :: drop i l.

(** ** Values *)

(** [TextIndex], a [namedtuple("TextIndex", ["line", "column"])] *)
Record TextIndex := mkIndex { line : Z; column : Z }.

(** [TextRange], a [namedtuple("TextRange", ["start", "end"])] *)
Record TextRange := mkRange { range_start : TextIndex; range_end : TextIndex }.

(** A [Tag] object is identified by its Tcl name [_name]. *)
Record Tag := mkTag { tag_name : string }.

(** The fields of a [TextBox] object that [textbox.py] itself reads and
    writes.  [peer_of] is a reference (an index into the object store). *)
Record TextBox := mkTextBox {
  peer_of : option nat;
  peer_count : Z;
  tcl_path : string;
  frame_path : string;
  frame_parent : string
}.

(** What a caller may pass where an index is expected
    ([TextIndex.__new__]'s [*index]).  A [TextIndex] is itself a tuple of two
    integers and is passed as [ATuple [line; column]]. *)
Inductive arg :=
| AInt (z : Z)
| ATclObj (repr : string)
| AStr (s : string)
| AIcon (name : string)
| AImage (name : string)
| AWidget (path : string)
| ATuple (items : list Z)
| AOther.

(** The objects that end up in the list returned by [TextBox.content]. *)
Inductive pyobj :=
| OIndex (i : TextIndex)
| OStr (s : string)
| OImage (name : string)
| OWidget (path : string)
| OTag (t : Tag)
| ORange (r : TextRange)
| OPair (a b : pyobj).

(** Lexicographic order on [(line, column)], the order of Python tuples. *)
Definition lex_ltb (a b : Z * Z) : bool :=
  (a.1 <? b.1) || ((a.1 =? b.1) && (a.2 <? b.2)).

Definition pos (i : TextIndex) : Z * Z := (line i, column i).

Definition index_le (a b : TextIndex) : Prop :=
  line a < line b \/ (line a = line b /\ column a <= column b).

Definition index_lt (a b : TextIndex) : Prop :=
  line a < line b \/ (line a = line b /\ column a < column b).

(** ** The collaborators outside [textbox.py] *)

Inductive tcl_result :=
| TclOk (r : string)
| TclFail (msg : string).

(** [tcl_eval] is the Tcl interpreter: a command, as a list of words, is
    evaluated in an interpreter state and yields a result or a Tcl error and
    the next state ([_tcl_call] and [_tcl_eval] of [_base.py] end here).
    The other fields are helpers imported from sibling modules. *)
Class Env (tk : Type) := {
  tcl_eval : tk -> list string -> tcl_result * tk;
  (** [_utils.from_tcl(bool, s)] *)
  from_tcl_bool : string -> bool;
  (** [Integer.get()] of [_variables.py], by the variable's Tcl name *)
  Integer_get : tk -> string -> Z;
  (** [Font(family)] of [_font.py]: creates a font in the interpreter and
      yields its Tcl name *)
  Font_new : tk -> string -> tcl_result * tk;
  (** [_textbox_frame(parent)]: creates a [ttk::frame] under [parent] and
      yields its Tcl path *)
  frame_create : tk -> string -> tcl_result * tk;
  (** the [(key, value, index)] triples that [dump -all -command] hands to
      its callback for the widget of the given path, in order *)
  dump_events : tk -> string -> list (string * string * string);
  (** [Scrollbar(frame, orientation=..., auto_hide=...)] of [scrollbar.py],
      attached and laid out *)
  scrollbar_create : tk -> string -> string -> bool -> tcl_result * tk;
  (** [TkWidget.from_tcl] *)
  TkWidget_from_tcl : string -> string;
  (** the text storage that the [text] widget of a given path displays, if
      the path names one (an observation on the interpreter, used to state
      that peers share their storage) *)
  buffer_of : tk -> string -> option nat
}.

(** ** Program state and the monad *)

Record world (tk : Type) := mkWorld {
  interp : tk;
  (** messages passed to [warnings.warn], oldest first *)
  warnings : list string;
  (** the [TextBox] objects, addressed by position *)
  boxes : list TextBox;
  (** [_utils._text_tags] *)
  text_tags : gmap string Tag;
  (** [_utils._images] *)
  images : gmap string string
}.
Arguments mkWorld {tk}.
Arguments interp {tk}.
Arguments warnings {tk}.
Arguments boxes {tk}.
Arguments text_tags {tk}.
Arguments images {tk}.

Definition M (tk A : Type) : Type := world tk -> outcome A * world tk.

Definition ret {tk A} (a : A) : M tk A := fun s => (Ret a, s).

Definition raise {tk A} (e : exn) : M tk A := fun s => (Raise e, s).

Definition bind {tk A B} (m : M tk A) (k : A -> M tk B) : M tk B :=
  fun s => match m s with
           | (Ret a, s') => k a s'
           | (Raise e, s') => (Raise e, s')
           end.

Notation "'let*' x ':=' m 'in' k" := (bind m (fun x => k))
  (at level 10, x name, m at level 200, k at level 200).

Definition set_interp {tk} (t : tk) (s : world tk) : world tk :=
  mkWorld t (warnings s) (boxes s) (text_tags s) (images s).

Definition set_boxes {tk} (b : list TextBox) (s : world tk) : world tk :=
  mkWorld (interp s) (warnings s) b (text_tags s) (images s).

(** [warnings.warn(msg)] under the default filters: the warning is reported
    and execution continues. *)
Definition warn {tk} (msg : string) : M tk unit :=
  fun s => (Ret tt, mkWorld (interp s) (warnings s ++ [msg]) (boxes s)
                            (text_tags s) (images s)).

(** [_tcl_call(returntype, widget, args...)]: the words are sent to the
    interpreter; a Tcl error surfaces as [TclError]. *)
Definition _tcl_call `{Env tk} (words : list string) : M tk string :=
  fun s => match tcl_eval (interp s) words with
           | (TclOk r, t) => (Ret r, set_interp t s)
           | (TclFail msg, t) => (Raise (TclError msg), set_interp t s)
           end.

(** [try: body  except TclError: return] *)
Definition try_TclError {tk} (body : M tk unit) : M tk unit :=
  fun s => match body s with
           | (Raise (TclError _), s') => (Ret tt, s')
           | r => r
           end.

(** ** [class TextIndex] *)

Module TextIndex.
Section WithEnv.
Context `{Env tk}.
(** [cls._widget], by its Tcl path.  It is an attribute of the class, set
    by [TextBox.__init__]: the widget of the box constructed last. *)
Variable w : string.

Definition to_tcl (i : TextIndex) : string :=
  py_str (line i) +:+ "." +:+ py_str (column i).

(** What [_tcl_call] sends for an argument object. *)
Definition arg_to_tcl (a : arg) : string :=
  match a with
  | AInt z => py_str z
  | ATclObj s | AStr s | AIcon s | AImage s | AWidget s => s
  | ATuple items => String.concat " " (py_str <$> items)
  | AOther => ""
  end.

(** [line, col = tuple(map(int, result.split(".")))] *)
Definition parse_index (result : string) : M tk (Z * Z) :=
  match split_dot result with
  | [a; b] =>
      match py_int a, py_int b with
      | Some l, Some c => ret (l, c)
      | _, _ => raise (ValueError "invalid literal for int()")
      end
  | parts =>
      match mapM py_int parts with
      | Some _ => raise (ValueError "wrong number of values to unpack")
      | None => raise (ValueError "invalid literal for int()")
      end
  end.

(** [line, col = index] for a tuple of integers *)
Definition unpack_pair (items : list Z) : M tk (Z * Z) :=
  match items with
  | [l; c] => ret (l, c)
  | _ => raise (ValueError "wrong number of values to unpack")
  end.

(** A component of the two-argument form; the model keeps integer
    components only: the comparison with [start] needs an integer. *)
Definition as_int (a : arg) : M tk Z :=
  match a with
  | AInt z => ret z
  | _ => raise TypeError
  end.

(** Lines 212-238 of [__new__]: the binding of the local pair
    [(line, col)] when the clamping step is reached, [None] when the
    locals were never assigned. *)
Definition locals (index : list arg) : M tk (option (Z * Z)) :=
  match index with
  | [a; b] =>
      let* l := as_int a in let* c := as_int b in ret (Some (l, c))
  | [] => raise IndexError
  | a :: _ =>
      let* rl := match a with
            | AInt i =>
                if (i =? 0) || (i =? 1) then ret (None, Some (1, 0))
                else if i =? -1 then
                  let* r := _tcl_call [w; "index"; "end - 1 chars"] in
                  ret (Some r, None)
                else ret (None, None)
            | ATclObj _ | AStr _ | AIcon _ | AImage _ | AWidget _ =>
                let* r := _tcl_call [w; "index"; arg_to_tcl a] in
                ret (Some r, None)
            | ATuple items =>
                let* lc := unpack_pair items in ret (None, Some lc)
            | AOther => raise TypeError
            end in
      match rl.1 with
      | Some (String c r) => let* lc := parse_index (String c r) in ret (Some lc)
      | _ => ret rl.2
      end
  end.

(** Reading the locals [line] and [col]. *)
Definition bound (lc : option (Z * Z)) : M tk (Z * Z) :=
  match lc with
  | Some p => ret p
  | None => raise (UnboundLocalError "line")
  end.

(** [cls(index..., no_check=True)] *)
Definition new_unchecked (index : list arg) : M tk TextIndex :=
  let* lc := locals index in
  let* p := bound lc in
  ret (mkIndex p.1 p.2).

(** [TextBox.start] and [TextBox.end] *)
Definition start : M tk TextIndex := new_unchecked [AInt 0].
Definition end_ : M tk TextIndex := new_unchecked [AInt (-1)].

(** [TextIndex.__new__(cls, index..., no_check=False)] *)
Definition __new__ (index : list arg) (no_check : bool) : M tk TextIndex :=
  if no_check then new_unchecked index
  else
    let* lc := locals index in
    let* p := bound lc in
    let* s := start in
    if lex_ltb p (pos s) then start
    else
      let* e := end_ in
      if lex_ltb (pos e) p then end_
      else ret (mkIndex p.1 p.2).

(** [from_tcl(cls, string)] *)
Definition from_tcl (s : string) : M tk TextIndex := __new__ [AStr s] false.

Definition _compare (self other : TextIndex) (operator : string) : M tk bool :=
  let* r := _tcl_call [w; "compare"; to_tcl self; operator; to_tcl other] in
  ret (from_tcl_bool r).

Definition __lt__ (self other : TextIndex) := _compare self other "<".
Definition __gt__ (self other : TextIndex) := _compare self other ">".
Definition __le__ (self other : TextIndex) := _compare self other "<=".
Definition __ge__ (self other : TextIndex) := _compare self other ">=".

Definition clamp (self : TextIndex) : M tk TextIndex :=
  let* s := start in
  let* b := __lt__ self s in
  if b then start
  else
    let* e := end_ in
    let* b' := __gt__ self e in
    if b' then end_ else ret self.

Definition move_part (dir : string) (n : Z) (unit_ : string) : string :=
  if n =? 0 then "" else " " +:+ dir +:+ " " +:+ py_str n +:+ " " +:+ unit_.

Definition _move (self : TextIndex) (dir : string) (chars indices lines : Z)
  : M tk TextIndex :=
  let move_str := move_part dir chars "chars" +:+
                  move_part dir indices "indices" +:+
                  move_part dir lines "lines" in
  let* i := from_tcl (to_tcl self +:+ move_str) in
  clamp i.

Definition forward (self : TextIndex) (chars indices lines : Z) :=
  _move self "+" chars indices lines.

Definition back (self : TextIndex) (chars indices lines : Z) :=
  _move self "-" chars indices lines.

Definition __add__ (self : TextIndex) (indices : Z) := forward self 0 indices 0.
Definition __sub__ (self : TextIndex) (indices : Z) := back self 0 indices 0.

Definition _apply_suffix (self : TextIndex) (suffix : string) : M tk TextIndex :=
  let* i := from_tcl (to_tcl self +:+ " " +:+ suffix) in
  clamp i.

Definition linestart (self : TextIndex) := _apply_suffix self "linestart".
Definition lineend (self : TextIndex) := _apply_suffix self "lineend".
Definition wordstart (self : TextIndex) := _apply_suffix self "wordstart".
Definition wordend (self : TextIndex) := _apply_suffix self "wordend".
End WithEnv.
End TextIndex.

(** ** [class TextRange] *)

(** An end of a range as the caller gives it: [None] (an omitted slice
    bound) or a tuple of integers (a [(line, column)] pair or a
    [TextIndex]). *)
Inductive endpoint :=
| ENone
| ETuple (items : list Z).

(** The positional arguments of [TextRange.__new__]: one slice, or a
    sequence of ends. *)
Inductive range_args :=
| ArgsSlice (start stop : endpoint)
| ArgsSeq (items : list endpoint).

Module TextRange.
Section WithEnv.
Context `{Env tk}.
Variable w : string.

(** [if isinstance(x, tuple): x = cls._widget.index(x...)] *)
Definition resolve_tuple (x : endpoint) : M tk (option TextIndex) :=
  match x with
  | ETuple items =>
      let* i := TextIndex.__new__ w (AInt <$> items) false in ret (Some i)
  | ENone => ret None
  end.

Definition __new__ (indexes : range_args) : M tk TextRange :=
  let* ends := match indexes with
               | ArgsSlice a b => ret (a, b)
               | ArgsSeq [] => raise IndexError
               | ArgsSeq [a; b] => ret (a, b)
               | ArgsSeq _ => raise (ValueError "wrong number of values to unpack")
               end in
  let* start := resolve_tuple ends.1 in
  let* stop := resolve_tuple ends.2 in
  let* start := match start with
                | None => TextIndex.start w
                | Some i => ret i
                end in
  let* stop := match stop with
               | None => TextIndex.end_ w
               | Some i => ret i
               end in
  ret (mkRange start stop).

(** [self.start <= index < self.end] *)
Definition __contains__ (self : TextRange) (index : TextIndex) : M tk bool :=
  let* b := TextIndex.__le__ w (range_start self) index in
  if b then TextIndex.__lt__ w index (range_end self) else ret false.
End WithEnv.
End TextRange.

(** A [TextIndex] passed where a tuple is accepted. *)
Definition as_tuple (i : TextIndex) : endpoint := ETuple [line i; column i].

(** ** [class TextMarks] *)

Module TextMarks.
Section WithEnv.
Context `{Env tk}.
Variable w : string.

Definition __setitem__ (name : string) (index : TextIndex) : M tk unit :=
  let* _ := _tcl_call [w; "mark"; "set"; name; TextIndex.to_tcl index] in
  ret tt.

Definition __delitem__ (name : string) : M tk unit :=
  if String.eqb name "insert" then
    raise (RuntimeError "can't delete insertion cursor")
  else
    let* _ := _tcl_call [w; "mark"; "unset"; name] in ret tt.
(** [_utils.from_tcl([str], s)]: the elements of the Tcl list [s] *)
Variable tcl_list : string -> list string.

Definition __get_names : M tk (list string) :=
  let* r := _tcl_call [w; "mark"; "names"] in ret (tcl_list r).

Definition __len__ : M tk nat :=
  let* names := __get_names in ret (length names).

Definition __contains__ (mark : string) : M tk bool :=
  let* names := __get_names in ret (bool_decide (mark ∈ names)).

Definition __getitem__ (name : string) : M tk (option TextIndex) :=
  let* names := __get_names in
  if bool_decide (name ∈ names) then
    let* i := TextIndex.__new__ w [AStr name] false in ret (Some i)
  else ret None.
End WithEnv.
End TextMarks.

(** ** [class TextHistory] *)

Module TextHistory.
Section WithEnv.
Context `{Env tk}.
Variable w : string.

Definition disabled_msg : string :=
  "undoing is disabled on this textbox widget. Use `track_history=True` to enable it.".

(** [self._widget.track_history]: the option is read back from the widget;
    [TextBox._keys] maps it to Tk's [-undo], converted to [bool]. *)
Definition track_history : M tk bool :=
  let* r := _tcl_call [w; "cget"; "-undo"] in ret (from_tcl_bool r).

Definition call_subcommand (args : list string) : M tk bool :=
  let* enabled := track_history in
  let* _ := if enabled then ret tt else warn disabled_msg in
  let* r := _tcl_call (w :: "edit" :: args) in
  ret (from_tcl_bool r).

Definition can_redo := call_subcommand ["canredo"].
Definition can_undo := call_subcommand ["canundo"].

(** [for i in range(number): self.call_subcommand(cmd)] *)
Fixpoint repeat_subcommand (number : nat) (cmd : string) : M tk unit :=
  match number with
  | O => ret tt
  | S n => let* _ := call_subcommand [cmd] in repeat_subcommand n cmd
  end.

Definition redo (number : Z) : M tk unit :=
  try_TclError (repeat_subcommand (Z.to_nat number) "redo").

Definition undo (number : Z) : M tk unit :=
  try_TclError (repeat_subcommand (Z.to_nat number) "undo").

Definition clear : M tk unit :=
  let* _ := call_subcommand ["reset"] in ret tt.

Definition add_sep : M tk unit :=
  let* _ := call_subcommand ["separator"] in ret tt.
End WithEnv.
End TextHistory.

(** ** [class TextBox] *)

(** [repr(s)] for a string: quoted, with the quote, the backslash and the
    control characters escaped. *)
Definition hex_digit (n : nat) : ascii :=
  nth n (String.list_ascii_of_string "0123456789abcdef") "0"%char.

Definition squote : ascii := "'"%char.
Definition dquote : ascii := ascii_of_nat 34.
Definition backslash : ascii := ascii_of_nat 92.

Fixpoint has_char (c : ascii) (s : string) : bool :=
  match s with
  | EmptyString => false
  | String d s' => Ascii.eqb c d || has_char c s'
  end.

Definition escape_char (q c : ascii) : string :=
  let n := nat_of_ascii c in
  if Ascii.eqb c q || Ascii.eqb c backslash then String backslash (String c EmptyString)
  else if Nat.eqb n 10 then String backslash "n"
  else if Nat.eqb n 13 then String backslash "r"
  else if Nat.eqb n 9 then String backslash "t"
  else if Nat.ltb n 32 || Nat.eqb n 127 then
    String backslash (String "x"%char
      (String (hex_digit (Nat.div n 16)) (String (hex_digit (Nat.modulo n 16)) EmptyString)))
  else String c EmptyString.

Fixpoint escape (q : ascii) (s : string) : string :=
  match s with
  | EmptyString => EmptyString
  | String c s' => escape_char q c +:+ escape q s'
  end.

Definition py_repr (s : string) : string :=
  let q := if has_char squote s && negb (has_char dquote s) then dquote else squote in
  String q (escape q s +:+ String q EmptyString).

Definition nl : string := String (ascii_of_nat 10) EmptyString.

(** [s.split(".")[-1]] *)
Definition last_component (s : string) : string :=
  List.last (split_dot s) EmptyString.

(** [padding]: an integer or a sequence of integers *)
Inductive padding_arg :=
| PadInt (n : Z)
| PadSeq (items : list Z).

(** An element of the [overflow] tuple. *)
Inductive overflow_flag :=
| OvBool (b : bool)
| OvStr (s : string).

(** The keyword arguments of the constructor that [textbox.py] inspects
    itself: [font] (a font, by its Tcl name), [padding], the three keys
    looked up in the tables of [_constants.py], and [overflow].  [options]
    stands for the arguments that are only handed on to Tk, already
    converted to words ([cursor_offtime] and [cursor_ontime] are numbers,
    as annotated, so that lines 549-553 are arithmetic on them). *)
Record kwargs := mkKwargs {
  font : option string;
  padding : option padding_arg;
  cursor_style : string;
  inactive_cursor_style : option string;
  wrap : option string;
  overflow : option (list overflow_flag);
  options : list string
}.

(** [Peer()] without arguments: the constructor's defaults. *)
Definition default_kwargs : kwargs :=
  mkKwargs None None "normal" None None (Some [OvStr "auto"; OvStr "auto"]) [].

(** The tables of [_constants.py] that the constructor indexes: for a key
    they have, the words the entry adds to the command. *)
Record constants := mkConstants {
  _cursor_styles : string -> option (list string);
  _inactive_cursor_styles : option string -> option (list string);
  _wraps : option string -> option (list string)
}.

(** The options of [TextBox.search] *)
Record search_options := mkSearchOptions {
  backwards : bool;
  case_sensitive : bool;
  count_hidden : bool;
  exact : bool;
  forwards : bool;
  match_newline : bool;
  regex : bool;
  strict_limits : bool
}.


(** The [stop] argument of [search]: a string (default ["end"]) or an index *)
Inductive stop_arg :=
| StopStr (s : string)
| StopIndex (i : TextIndex).

(** The local variables of the generator body of [search] while it is
    suspended at its [yield]. *)
Record search_locals := mkSearchLocals {
  sl_pattern : string;
  sl_start : string;
  sl_stop : string;
  sl_variable : string;
  sl_to_call : list string;
  sl_result : string
}.

(** The generator object returned by [search]: not yet started, suspended at
    the [yield], or finished. *)
Inductive search_gen :=
| GenCreated (pattern : string) (start : TextIndex) (stop : stop_arg)
             (opts : search_options) (variable : string)
| GenSuspended (l : search_locals)
| GenFinished.

(** The local state of [content]: [result] and [unclosed_tags]. *)
Record content_state := mkContentState {
  result : list pyobj;
  unclosed_tags : gmap string (string * nat)
}.

(** What [delete], [get] and the tag methods take as their one argument: a
    range, an index, a pair of integers, or something else. *)
Inductive target :=
| TRange (r : TextRange)
| TIndex (i : TextIndex)
| TTuple (items : list Z)
| TOther.

(** The positional arguments [*indexes]: one, two (the two ends of a
    range), or any other number of them, which are then never looked at. *)
Inductive targets :=
| One (x : target)
| Two (a b : endpoint)
| Several.

(** A positional argument of [replace]. *)
Inductive replace_arg :=
| RRange (r : TextRange)
| RIndex (i : TextIndex)
| RStr (s : string)
| ROther.

(** The value of a keyword argument. *)
Inductive kwval :=
| KNone
| KBool (b : bool)
| KInt (z : Z)
| KSeq (items : list Z)
| KStr (s : string).

(** The [content] of [insert]: an image or icon and an embedded widget (by
    their Tcl names), a [Path] (by the resolved path), or a plain string. *)
Inductive content_arg :=
| CImage (name : string)
| CWidget (path : string)
| CPath (path : string)
| CText (s : string).

(** The subscript of [TextBox.__getitem__]. *)
Inductive subscript :=
| SubSlice (start stop : endpoint)
| SubRange (r : TextRange)
| SubIndex (i : TextIndex)
| SubTuple (items : list Z)
| SubOther.

(** [bool(v)] *)
Definition truthy (v : kwval) : bool :=
  match v with
  | KNone => false
  | KBool b => b
  | KInt z => negb (z =? 0)
  | KSeq [] => false
  | KSeq _ => true
  | KStr EmptyString => false
  | KStr _ => true
  end.

Definition set_text_tags {tk} (m : gmap string Tag) (s : world tk) : world tk :=
  mkWorld (interp s) (warnings s) (boxes s) m (images s).

(** [[f(x) for x in l]], stopping at the first exception *)
Fixpoint for_each {tk A B} (f : A -> M tk B) (l : list A) : M tk (list B) :=
  match l with
  | [] => ret []
  | x :: l' => let* y := f x in let* ys := for_each f l' in ret (y :: ys)
  end.

(** The path of a peer widget, line 593 of the constructor: the frame,
    then [.textbox_peer_], the peer count of the parent, [_of_] and the
    last component of the parent's path. *)
Definition peer_path (frame : string) (parent : TextBox) : string :=
  frame +:+ ".textbox_peer_" +:+ py_str (peer_count parent) +:+
  "_of_" +:+ last_component (tcl_path parent).

Module TextBox.
Section WithEnv.
Context `{Env tk}.

Definition deref (r : nat) : M tk TextBox :=
  fun s => match boxes s !! r with
           | Some b => (Ret b, s)
           | None => (Raise ReferenceError, s)
           end.

(** An attribute assignment on the object [r]. *)
Definition assign (r : nat) (f : TextBox -> TextBox) : M tk unit :=
  fun s => match boxes s !! r with
           | Some b => (Ret tt, set_boxes (<[r := f b]> (boxes s)) s)
           | None => (Raise ReferenceError, s)
           end.

(** A new object; its reference is returned. *)
Definition alloc (b : TextBox) : M tk nat :=
  fun s => (Ret (length (boxes s)), set_boxes (boxes s ++ [b]) s).

Definition set_peer_count (n : Z) (b : TextBox) : TextBox :=
  mkTextBox (peer_of b) n (tcl_path b) (frame_path b) (frame_parent b).

Definition lift_tcl (f : tk -> tcl_result * tk) : M tk string :=
  fun s => match f (interp s) with
           | (TclOk r, t) => (Ret r, set_interp t s)
           | (TclFail msg, t) => (Raise (TclError msg), set_interp t s)
           end.

(** Lines 536-547 of [__init__]: [padx] and [pady] *)
Definition check_padding (p : option padding_arg) : M tk (option (Z * Z)) :=
  match p with
  | None => ret None
  | Some (PadInt n) => ret (Some (n, n))
  | Some (PadSeq [a]) => ret (Some (a, a))
  | Some (PadSeq [a; b]) => ret (Some (a, b))
  | Some (PadSeq _) =>
      raise (ValueError "unfortunately 4 side paddings aren't supported for TextBox padding")
  end.

Definition padding_words (p : option (Z * Z)) : list string :=
  match p with
  | None => []
  | Some (x, y) => ["-padx"; py_str x; "-pady"; py_str y]
  end.

(** What one element of [overflow] asks for: no scrollbar, or a scrollbar
    with the given [auto_hide]; [None] for a value the setter rejects. *)
Definition scroll_mode (f : overflow_flag) : option (option bool) :=
  match f with
  | OvBool false => Some None
  | OvBool true => Some (Some false)
  | OvStr s => if String.eqb s "auto" then Some (Some true) else None
  end.

Definition make_scroll (frame orientation : string) (m : option bool) : M tk unit :=
  match m with
  | None => ret tt
  | Some hide =>
      let* _ := lift_tcl (fun t => scrollbar_create t frame orientation hide) in
      ret tt
  end.

(** The [overflow] setter on a new widget: the nine accepted pairs make
    the horizontal, then the vertical scrollbar. *)
Definition set_overflow (frame : string) (new_overflow : list overflow_flag) : M tk unit :=
  let pair := match new_overflow with
              | [a] => [a; a]
              | l => l
              end in
  match pair with
  | [a; b] =>
      match scroll_mode a, scroll_mode b with
      | Some h, Some v =>
          let* _ := make_scroll frame "horizontal" h in
          make_scroll frame "vertical" v
      | _, _ => raise (ValueError "invalid overflow value")
      end
  | _ => raise (ValueError "invalid overflow value")
  end.

(** [table[key]]: a key the table lacks is a [KeyError] (the key [None] is
    reported as the text [None]). *)
Definition table_get {A} (entry : option A) (key : string) : M tk A :=
  match entry with
  | Some a => ret a
  | None => raise (KeyError key)
  end.

(** The tables of [_constants.py] *)
Variable tables : constants.

(** [TextBox.__init__] on the path [_peer_of is not None].  The font is
    made first when none is given, then the padding is checked, then the
    dictionary [to_call] is built, which looks the three keys up in this
    order; only then the frame and the widget are created.  The words of
    the options follow the path in the order of the model: the order Tk
    receives them in is decided by [BaseWidget.__init__] in [_base.py], and
    no statement depends on it. *)
Definition __init__ (_peer_of : nat) (kw : kwargs) : M tk nat :=
  let* fnt := match font kw with
              | Some f => ret f
              | None => lift_tcl (fun t => Font_new t "monospace")
              end in
  let* pad := check_padding (padding kw) in
  let* blockcursor := table_get (_cursor_styles tables (cursor_style kw))
                                (cursor_style kw) in
  let* insertunfocussed :=
    table_get (_inactive_cursor_styles tables (inactive_cursor_style kw))
              (default "None" (inactive_cursor_style kw)) in
  let* wrap_words := table_get (_wraps tables (wrap kw)) (default "None" (wrap kw)) in
  let* parent := deref _peer_of in
  let* frame := lift_tcl (fun t => frame_create t (frame_parent parent)) in
  let path := peer_path frame parent in
  let* _ := _tcl_call ([tcl_path parent; "peer"; "create"; path]
                       ++ blockcursor ++ ["-font"; fnt] ++ insertunfocussed
                       ++ padding_words pad ++ wrap_words ++ options kw) in
  let* _ := _tcl_call ["grid rowconfigure " +:+ frame +:+ " 0 -weight 1 " +:+ nl +:+
                       "grid columnconfigure " +:+ frame +:+ " 0 -weight 1 " +:+ nl +:+
                       "grid " +:+ path +:+ " -row 0 -column 0 -sticky nsew"] in
  let* _ := match overflow kw with
            | Some o => set_overflow frame o
            | None => ret tt
            end in
  alloc (mkTextBox (Some _peer_of) 0 path frame (frame_parent parent)).

Definition Peer (self : nat) (kw : kwargs) : M tk nat :=
  let* me := deref self in
  match peer_of me with
  | None =>
      let* _ := assign self (set_peer_count (peer_count me + 1)) in
      __init__ self kw
  | Some _ => raise (RuntimeError "can't create a peer of a peer")
  end.

(** *** [search] *)
Variable w : string.

Definition option_words (opts : search_options) (pattern : string) : list string :=
  (if backwards opts then chars_of "-backwards" else []) ++
  (if case_sensitive opts then [] else chars_of "-nocase") ++
  (if count_hidden opts then chars_of "-elide" else []) ++
  (if exact opts then chars_of "-exact" else []) ++
  (if forwards opts then chars_of "-forwards" else []) ++
  (if match_newline opts then chars_of "-nolinestop" else []) ++
  (if regex opts then chars_of "-regexp" else []) ++
  (if strict_limits opts then chars_of "-strictlimits" else []) ++
  (match pattern with
   | String c _ => if Ascii.eqb c "-"%char then chars_of "--" else []
   | EmptyString => []
   end).








(** [search(...)]: calling a generator function runs nothing yet. *)
Definition search (pattern : string) (start : TextIndex) (stop : stop_arg)
    (opts : search_options) (variable : string) : search_gen :=
  GenCreated pattern start stop opts variable.

(** *** [content] *)

Definition lookup_or_KeyError {A} (m : gmap string A) (k : string) : M tk A :=
  match m !! k with
  | Some a => ret a
  | None => raise (KeyError k)
  end.

(** [Tag.from_tcl] *)
Definition Tag_from_tcl (value : string) : M tk Tag :=
  fun s => lookup_or_KeyError (text_tags s) value s.

(** The dictionary [convert] of [add_item], looked up at [type]. *)
Definition convert (type : string) : M tk (string -> M tk pyobj) :=
  if String.eqb type "image" then
    ret (fun x s => (let* i := lookup_or_KeyError (images s) x in ret (OImage i)) s)
  else if String.eqb type "mark" then
    ret (fun x => ret (OStr ("TextBox.marks[" +:+ py_repr x +:+ "]")))
  else if String.eqb type "text" then
    ret (fun x => ret (OStr x))
  else if String.eqb type "window" then
    ret (fun x => ret (OWidget (TkWidget_from_tcl x)))
  else raise (KeyError type).

(** The callback [add_item(type, value, index)]. *)
Definition add_item (type value index : string) (st : content_state)
  : M tk content_state :=
  let append :=
    let* conv := convert type in
    let* i := TextIndex.__new__ w [AStr index] false in
    let* v := conv value in
    (* [result += (i, v)]: a list extended by a tuple takes its elements *)
    ret (mkContentState (result st ++ [OIndex i; v]) (unclosed_tags st)) in
  if String.eqb type "tagon" then
    ret (mkContentState (result st)
           (<[value := (index, length (result st))]> (unclosed_tags st)))
  else if String.eqb type "tagoff" then
    match unclosed_tags st !! value with
    | Some (opened, at_) =>
        let* a := TextIndex.__new__ w [AStr opened] false in
        let* b := TextIndex.__new__ w [AStr index] false in
        let* r := TextRange.__new__ w (ArgsSeq [as_tuple a; as_tuple b]) in
        let* t := Tag_from_tcl value in
        ret (mkContentState (list_insert_at at_ (OPair (ORange r) (OTag t)) (result st))
               (unclosed_tags st))
    | None => append
    end
  else append.

Fixpoint add_items (events : list (string * string * string)) (st : content_state)
  : M tk content_state :=
  match events with
  | [] => ret st
  | (type, value, index) :: rest =>
      let* st := add_item type value index st in
      add_items rest st
  end.

(** [content] over a given event stream. *)
Definition content_of (events : list (string * string * string)) : M tk (list pyobj) :=
  let* st := add_items events (mkContentState [] ∅) in
  ret (result st).

(** The property [content]: the stream is the one [dump -all] produces. *)
Definition content : M tk (list pyobj) :=
  fun s => content_of (dump_events (interp s) w) s.
(** *** [delete], [get], [replace], [insert] *)

(** What [_tcl_call] sends for a [None] argument (decided in [_base.py]). *)
Variable tcl_of_None : list string.
(** [_utils.py_to_tcl_arguments], on its keyword arguments in order *)
Variable py_to_tcl_arguments : list (string * kwval) -> list string.
(** [open(str(content.resolve()))] and [file.read()] of the [with]
    statement, by the path: the text of the file, or the exception that
    resolving, opening or reading raises *)
Variable open_read : string -> outcome string.
(** [_utils.from_tcl([str], s)]: the elements of the Tcl list [s] *)
Variable tcl_list : string -> list string.

(** [_get_tcl_index_range(indexes)]; [None] when no branch returns. *)
Definition _get_tcl_index_range (indexes : targets) : M tk (option (string * string)) :=
  match indexes with
  | One (TRange r) =>
      ret (Some (TextIndex.to_tcl (range_start r), TextIndex.to_tcl (range_end r)))
  | One (TIndex i) =>
      let* j := TextIndex.forward w i 1 0 0 in
      ret (Some (TextIndex.to_tcl i, TextIndex.to_tcl j))
  | One (TTuple items) =>
      let* a := TextIndex.__new__ w (AInt <$> items) false in
      let* b := TextIndex.__new__ w (AInt <$> items) false in
      let* j := TextIndex.forward w b 1 0 0 in
      ret (Some (TextIndex.to_tcl a, TextIndex.to_tcl j))
  | One TOther => ret None
  | Two a b =>
      let* r := TextRange.__new__ w (ArgsSeq [a; b]) in
      ret (Some (TextIndex.to_tcl (range_start r), TextIndex.to_tcl (range_end r)))
  | Several => ret (Some ("1.0", "end - 1 chars"))
  end.

(** [self._tcl_call(..., self, cmd, *self._get_tcl_index_range(indexes))]:
    unpacking [None] is a [TypeError]. *)
Definition call_on_range (cmd : list string) (indexes : targets) : M tk string :=
  let* r := _get_tcl_index_range indexes in
  match r with
  | Some (a, b) => _tcl_call (w :: cmd ++ [a; b])
  | None => raise TypeError
  end.

Definition delete (indexes : targets) : M tk unit :=
  let* _ := call_on_range ["delete"] indexes in ret tt.

Definition get (indexes : targets) : M tk string :=
  call_on_range ["get"] indexes.

Definition replace (args : list replace_arg) (tag : option Tag) : M tk unit :=
  let send (start stop : TextIndex) (text : string) : M tk unit :=
    let* _ := _tcl_call ([w; "replace"; TextIndex.to_tcl start; TextIndex.to_tcl stop; text]
                         ++ match tag with
                            | Some t => [tag_name t]
                            | None => tcl_of_None
                            end) in
    ret tt in
  let three_indexes : M tk unit :=
    match args with
    | [RIndex a; RIndex b; RStr text] => send a b text
    | _ => raise (ValueError "invalid arguments. See help(TextBox.replace).")
    end in
  match args with
  | [] => raise IndexError
  | RRange r :: rest =>
      match rest with
      | [] => raise IndexError
      | RStr text :: _ => send (range_start r) (range_end r) text
      | _ => three_indexes
      end
  | _ => three_indexes
  end.

(** [padx] and [pady] from a [margin] that the caller's test let through. *)
Definition spread_margin (margin : kwval) (msg : string) : M tk (kwval * kwval) :=
  match margin with
  | KNone => raise TypeError
  | KBool _ | KInt _ => ret (margin, margin)
  | KSeq [_] => ret (margin, margin)
  | KSeq [a; b] => ret (KInt a, KInt b)
  | KStr (String _ EmptyString) => ret (margin, margin)
  | KStr (String a (String b EmptyString)) =>
      ret (KStr (String a EmptyString), KStr (String b EmptyString))
  | _ => raise (ValueError msg)
  end.

(** [kwargs.pop(key, None)] *)
Definition pop (key : string) (kwargs : gmap string kwval) : kwval * gmap string kwval :=
  (default KNone (kwargs !! key), base.delete key kwargs).

(** The command of [insert] and the keywords left over: lines 661-705. *)
Definition insert_command (index : string) (content : content_arg)
    (kwargs : gmap string kwval) : M tk (list string * gmap string kwval) :=
  match content with
  | CImage name =>
      let (margin, kwargs) := pop "margin" kwargs in
      let* pad := if truthy margin then
                    spread_margin margin
                      "unfortunately 4 side margins aren't supported for embedded images"
                  else ret (KNone, KNone) in
      let (align, kwargs) := pop "align" kwargs in
      ret (["image"; "create"; index] ++
           py_to_tcl_arguments [("image", KStr name); ("padx", pad.1); ("pady", pad.2);
                                ("align", align)], kwargs)
  | CWidget path =>
      let (margin, kwargs) := pop "margin" kwargs in
      let* pad := match margin with
                  | KNone => ret (KNone, KNone)
                  | _ => spread_margin margin
                           "unfortunately 4 side margins aren't supported for embedded widgets"
                  end in
      let (align, kwargs) := pop "align" kwargs in
      let stretch := match align with
                     | KStr a => String.eqb a "stretch"
                     | _ => false
                     end in
      let align := if stretch then KNone else align in
      ret (["window"; "create"; index] ++
           py_to_tcl_arguments [("window", KStr path); ("padx", pad.1); ("pady", pad.2);
                                ("align", align); ("stretch", KBool stretch)], kwargs)
  | CPath path =>
      let* text := (fun s => (open_read path, s)) in
      ret (["insert"; index; text], kwargs)
  | CText text => ret (["insert"; index; text], kwargs)
  end.

Definition insert (index : string) (content : content_arg) (kwargs : gmap string kwval)
  : M tk unit :=
  let* to_call := insert_command index content kwargs in
  if bool_decide (to_call.2 = ∅) then
    let* _ := _tcl_call (w :: to_call.1) in ret tt
  else raise TypeError.

(** The property [text] and its setter. *)
Definition text : M tk string := get Several.

Definition set_text (new_text : string) : M tk unit :=
  let* _ := delete Several in
  let* e := TextIndex.end_ w in
  insert (TextIndex.to_tcl e) (CText new_text) ∅.

(** The property [current] and its setter. *)
Definition current : M tk (option TextIndex) :=
  TextMarks.__getitem__ w tcl_list "insert".

Definition set_current (new_pos : TextIndex) : M tk unit :=
  TextMarks.__setitem__ w "insert" new_pos.

(** [TextBox.__getitem__]: a slice is read through a range; a tuple (a
    range and an index are tuples) is handed to [get]; anything else is a
    [TypeError]. *)
Definition __getitem__ (index : subscript) : M tk string :=
  match index with
  | SubSlice a b =>
      let* r := TextRange.__new__ w (ArgsSlice a b) in
      get (One (TRange r))
  | SubRange r => get (One (TRange r))
  | SubIndex i => get (One (TIndex i))
  | SubTuple items => get (One (TTuple items))
  | SubOther => raise TypeError
  end.
End WithEnv.
End TextBox.

(** ** [class Tag] *)

Module Tag.
Section WithEnv.
Context `{Env tk}.
(** [self._widget], by its Tcl path *)
Variable w : string.
(** The table [_wraps] of [_constants.py]: for a key it has, the words the
    entry adds to the command. *)
Variable _wraps : option string -> option (list string).
(** [_utils.from_tcl([str], s)]: the elements of the Tcl list [s] *)
Variable tcl_list : string -> list string.
(** [self._widget.font.copy()]: a copy of the font of the widget, by its
    Tcl name *)
Variable font_copy : M tk string.

Definition to_tcl (self : Tag) : string := tag_name self.

(** [_text_tags[self._name] = self] *)
Definition register (self : Tag) : M tk unit :=
  fun s => (Ret tt, set_text_tags (<[tag_name self := self]> (text_tags s)) s).

Definition from_tcl (value : string) : M tk Tag := TextBox.Tag_from_tcl value.

Definition _tcl_call (self : Tag) (subcommand : string) (args : list string) : M tk string :=
  _tcl_call (w :: "tag" :: subcommand :: tag_name self :: args).

(** [Tag.__init__]: [count] is what [next(counts["textbox_tag"])] yields
    when it is asked, [font] the font given, by its Tcl name, [options] the
    keyword arguments other than [wrap], converted, for the font that is
    used.  The tag is registered first; the font of the widget is copied
    when none is given; [_wraps[wrap]] is looked up while the arguments of
    the call are evaluated. *)
Definition __init__ (_name : option string) (count : Z) (font : option string)
    (wrap : option string) (options : string -> list string) : M tk Tag :=
  let name := match _name with
              | Some (String c r) => String c r
              | _ => w +:+ ":tag_" +:+ py_str count
              end in
  let self := mkTag name in
  let* _ := register self in
  let* font := match font with
               | Some f => ret f
               | None => font_copy
               end in
  let* wrap_words := match _wraps wrap with
                     | Some ws => ret ws
                     | None => raise (KeyError (default "None" wrap))
                     end in
  let* _ := _tcl_call self "configure" (options font ++ wrap_words) in
  ret self.

Definition on_range (self : Tag) (subcommand : string) (indexes : targets) : M tk unit :=
  let* r := TextBox._get_tcl_index_range w indexes in
  match r with
  | Some (a, b) => let* _ := _tcl_call self subcommand [a; b] in ret tt
  | None => raise TypeError
  end.

Definition add (self : Tag) (indexes : targets) := on_range self "add" indexes.
Definition remove (self : Tag) (indexes : targets) := on_range self "remove" indexes.

Definition delete (self : Tag) : M tk unit :=
  let* _ := _tcl_call self "delete" [] in ret tt.

(** [_prev_next_range(direction, start, end)]; the dictionary of the two
    defaults is built, both entries evaluated, before [direction] picks
    one. *)
Definition _prev_next_range (self : Tag) (direction : string) (start : TextIndex)
    (stop : option TextIndex) : M tk (option TextRange) :=
  let* stop := match stop with
               | Some e => ret e
               | None =>
                   let* s0 := TextIndex.start w in
                   let* e0 := TextIndex.end_ w in
                   if String.eqb direction "prev" then ret s0
                   else if String.eqb direction "next" then ret e0
                   else raise (KeyError direction)
               end in
  let* r := _tcl_call self (direction +:+ "range")
              [TextIndex.to_tcl start; TextIndex.to_tcl stop] in
  let* result := for_each (TextIndex.from_tcl w) (tcl_list r) in
  match result with
  | [] => ret None
  | _ => let* rg := TextRange.__new__ w (ArgsSeq (as_tuple <$> result)) in ret (Some rg)
  end.

Definition prev_range := fun self => _prev_next_range self "prev".
Definition next_range := fun self => _prev_next_range self "next".
End WithEnv.
End Tag.

(** ** A scripted interpreter

    A small stand-in for Tk with canned answers, on which the statements
    below are exercised: index expressions are resolved through a table,
    indices of the form [line.char] are compared lexicographically, the
    history is a pair of stacks, and peers are recorded with the storage
    they share. *)

Module Scripted.
Record tk := mkTk {
  index_table : list (string * string);
  undo_option : bool;
  undo_stack : list string;
  redo_stack : list string;
  marks : list string;
  widgets : list (string * nat);
  matches : list (string * (string * Z));
  count_var : Z;
  frames : nat
}.

Fixpoint assoc {A} (k : string) (l : list (string * A)) : option A :=
  match l with
  | [] => None
  | (k', v) :: l' => if String.eqb k k' then Some v else assoc k l'
  end.

Definition parse (s : string) : option (Z * Z) :=
  match split_dot s with
  | [a; b] => match py_int a, py_int b with
              | Some l, Some c => Some (l, c)
              | _, _ => None
              end
  | _ => None
  end.

Definition compare (a op b : string) : tcl_result :=
  match parse a, parse b with
  | Some x, Some y =>
      let lt := lex_ltb x y in
      let gt := lex_ltb y x in
      let r := if String.eqb op "<" then lt
               else if String.eqb op ">" then gt
               else if String.eqb op "<=" then negb gt
               else if String.eqb op ">=" then negb lt
               else if String.eqb op "==" then negb lt && negb gt
               else negb (negb lt && negb gt) in
      TclOk (if r then "1" else "0")
  | _, _ => TclOk "0"
  end.

Definition edit (t : tk) (args : list string) : tcl_result * tk :=
  match args with
  | [sub] =>
      if String.eqb sub "undo" then
        if undo_option t then
          match undo_stack t with
          | g :: rest =>
              (TclOk "", mkTk (index_table t) true rest (g :: redo_stack t) (marks t)
                              (widgets t) (matches t) (count_var t) (frames t))
          | [] => (TclFail "nothing to undo", t)
          end
        else (TclOk "", t)
      else if String.eqb sub "redo" then
        if undo_option t then
          match redo_stack t with
          | g :: rest =>
              (TclOk "", mkTk (index_table t) true (g :: undo_stack t) rest (marks t)
                              (widgets t) (matches t) (count_var t) (frames t))
          | [] => (TclFail "nothing to redo", t)
          end
        else (TclOk "", t)
      else (TclFail "bad edit option", t)
  | _ => (TclFail "wrong # args", t)
  end.

Definition search (t : tk) (args : list string) : tcl_result * tk :=
  match rev args with
  | _ :: start :: _ =>
      match assoc start (matches t) with
      | Some (m, n) =>
          (TclOk m, mkTk (index_table t) (undo_option t) (undo_stack t) (redo_stack t)
                         (marks t) (widgets t) (matches t) n (frames t))
      | None => (TclOk "", t)
      end
  | _ => (TclFail "wrong # args", t)
  end.

Definition eval (t : tk) (words : list string) : tcl_result * tk :=
  match words with
  | [] => (TclFail "empty command", t)
  | [_] => (TclOk "", t)
  | w :: cmd :: args =>
      if String.eqb cmd "index" then
        match args with
        | [e] => match assoc e (index_table t) with
                 | Some r => (TclOk r, t)
                 | None => (TclFail "bad text index", t)
                 end
        | _ => (TclFail "wrong # args", t)
        end
      else if String.eqb cmd "compare" then
        match args with
        | [a; op; b] => (compare a op b, t)
        | _ => (TclFail "wrong # args", t)
        end
      else if String.eqb cmd "cget" then
        (TclOk (if undo_option t then "1" else "0"), t)
      else if String.eqb cmd "edit" then edit t args
      else if String.eqb cmd "mark" then
        match args with
        | [sub; name] =>
            (TclOk "", mkTk (index_table t) (undo_option t) (undo_stack t) (redo_stack t)
                            (filter (fun m => m ≠ name) (marks t))
                            (widgets t) (matches t) (count_var t) (frames t))
        | _ => (TclFail "wrong # args", t)
        end
      else if String.eqb cmd "peer" then
        match args with
        | _ :: path :: _ =>
            (TclOk path, mkTk (index_table t) (undo_option t) (undo_stack t)
                              (redo_stack t) (marks t)
                              (match assoc w (widgets t) with
                               | Some b => (path, b) :: widgets t
                               | None => filter (fun e => e.1 ≠ path) (widgets t)
                               end)
                              (matches t) (count_var t) (frames t))
        | _ => (TclFail "wrong # args", t)
        end
      else if String.eqb cmd "search" then search t args
      else (TclFail "invalid command name", t)
  end.

Definition new_frame (t : tk) (parent : string) : tcl_result * tk :=
  (TclOk ((if String.eqb parent "." then "" else parent) +:+
          ".frame" +:+ py_str (Z.of_nat (frames t))),
   mkTk (index_table t) (undo_option t) (undo_stack t) (redo_stack t) (marks t)
        (widgets t) (matches t) (count_var t) (S (frames t))).

#[global] Instance env : Env tk := {|
  tcl_eval := eval;
  from_tcl_bool := fun r => String.eqb r "1";
  Integer_get := fun t _ => count_var t;
  Font_new := fun t family => (TclOk ("font_" +:+ family), t);
  frame_create := new_frame;
  dump_events := fun _ _ => [];
  scrollbar_create := fun t _ _ _ => (TclOk "", t);
  TkWidget_from_tcl := fun p => p;
  buffer_of := fun t p => assoc p (widgets t)
|}.

(** The buffer [abcd] on one line: its last addressable position is
    [1.4]. *)
Definition abcd : tk :=
  mkTk [("1.0", "1.0"); ("1.2", "1.2"); ("1.4", "1.4");
        ("end - 1 chars", "1.4"); ("1.2 + 1 chars", "1.3");
        ("1.2 + 9 chars", "2.0"); ("1.2 linestart", "1.0")]
       true ["insert ab"; "insert cd"] [] ["insert"; "current"; "m"]
       [(".frame0.textbox", 0%nat)] [("1.0", ("1.2", 1))] 0 1.

(** A three-line buffer whose last addressable position is [3.0]. *)
Definition three_lines : tk :=
  mkTk [("end - 1 chars", "3.0")] false [] [] ["insert"; "current"]
       [(".frame0.textbox", 0%nat)] [] 0 1.

Definition the_box : TextBox := mkTextBox None 0 ".frame0.textbox" ".frame0" ".".

Definition world_of (t : tk) : world tk :=
  mkWorld t [] [the_box] {[ "t" := mkTag "t" ]} ∅.

(** Tables with a few keys, among them the ones the defaults look up. *)
Definition tables : constants :=
  mkConstants
    (fun key => if String.eqb key "normal" then Some ["-blockcursor"; "0"]
                else if String.eqb key "block" then Some ["-blockcursor"; "1"]
                else None)
    (fun key => match key with
                | None => Some []
                | Some k => if String.eqb k "hollow" then Some ["-insertunfocussed"; "hollow"]
                            else None
                end)
    (fun key => match key with
                | None => Some ["-wrap"; "none"]
                | Some k => if String.eqb k "word" then Some ["-wrap"; "word"] else None
                end).
End Scripted.

(** ** A recording interpreter

    A second stand-in for Tk: queries are answered from a table, indices are
    compared as by the scripted interpreter, and every other command is
    accepted and written down in the order received. *)

Module Recorder.
Record tk := mkTk {
  canned : list (list string * string);
  sent : list (list string)
}.

Fixpoint answer (words : list string) (l : list (list string * string)) : option string :=
  match l with
  | [] => None
  | (k, v) :: l' => if bool_decide (k = words) then Some v else answer words l'
  end.

Definition record (t : tk) (words : list string) : tcl_result * tk :=
  (TclOk "", mkTk (canned t) (sent t ++ [words])).

Definition eval (t : tk) (words : list string) : tcl_result * tk :=
  match words with
  | _ :: cmd :: args =>
      if String.eqb cmd "compare" then
        match args with
        | [a; op; b] => (Scripted.compare a op b, t)
        | _ => (TclFail "wrong # args", t)
        end
      else if String.eqb cmd "index" then
        match answer words (canned t) with
        | Some r => (TclOk r, t)
        | None => (TclFail "bad text index", t)
        end
      else
        match answer words (canned t) with
        | Some r => (TclOk r, t)
        | None => record t words
        end
  | _ => record t words
  end.

(** The words of a Tcl list without braces: split at the spaces. *)
Fixpoint split_space (s : string) : list string :=
  match s with
  | EmptyString => []
  | String c s' =>
      if Ascii.eqb c " "%char then split_space s'
      else match s' with
           | EmptyString => [String c EmptyString]
           | String d _ =>
               if Ascii.eqb d " "%char then String c EmptyString :: split_space s'
               else match split_space s' with
                    | [] => [String c EmptyString]
                    | x :: xs => String c x :: xs
                    end
           end
  end.

#[global] Instance env : Env tk := {|
  tcl_eval := eval;
  from_tcl_bool := fun r => String.eqb r "1";
  Integer_get := fun _ _ => 0;
  Font_new := fun t family => record t ["font"; "create"; family];
  frame_create := fun t parent => (TclOk (parent +:+ ".frame"), t);
  dump_events := fun _ _ => [];
  scrollbar_create := fun t _ _ _ => (TclOk "", t);
  TkWidget_from_tcl := fun p => p;
  buffer_of := fun _ _ => None
|}.

(** The buffer [abcd] with the insertion cursor at [1.2] and the tag [t]
    over [cd]. *)
Definition abcd : tk :=
  mkTk [([".t"; "index"; "end - 1 chars"], "1.4");
        ([".t"; "index"; "insert"], "1.2");
        ([".t"; "index"; "1.2"], "1.2");
        ([".t"; "index"; "1.4"], "1.4");
        ([".t"; "index"; "1.2 + 1 chars"], "1.3");
        ([".t"; "mark"; "names"], "insert current");
        ([".t"; "get"; "1.0"; "1.4"], "abcd");
        ([".t"; "tag"; "nextrange"; "t"; "1.0"; "1.4"], "1.2 1.4");
        ([".t"; "tag"; "prevrange"; "t"; "1.0"; "1.0"], "")]
       [].

Definition world_of (t : tk) : world tk :=
  mkWorld t [] [] ∅ ∅.
End Recorder.

(** ** What is assumed of Tk

    Each statement below names the facts about the [text] widget it relies
    on; they are the documented behaviour of the Tk commands. *)

Section Laws.
Context `{Env tk}.
Variable w : string.

(** [pathName index i] only reads the widget. *)
Definition index_is_query : Prop :=
  forall (t : tk) (e : string), (tcl_eval t [w; "index"; e]).2 = t.

(** [pathName compare i op j] answers, and only reads the widget, for
    indices of the form [line.char]. *)
Definition compare_answers : Prop :=
  forall (t : tk) (i j : TextIndex) (op : string),
    exists r, tcl_eval t [w; "compare"; TextIndex.to_tcl i; op; TextIndex.to_tcl j]
              = (TclOk r, t).

(** The widget option [-undo] reads as false in [t]. *)
Definition history_disabled (t : tk) : Prop :=
  exists r, tcl_eval t [w; "cget"; "-undo"] = (TclOk r, t) /\ from_tcl_bool r = false.

(** [edit undo] and [edit redo] do nothing when [-undo] is false. *)
Definition disabled_edit_does_nothing (t : tk) : Prop :=
  forall cmd, cmd = "undo" \/ cmd = "redo" ->
    exists r, tcl_eval t [w; "edit"; cmd] = (TclOk r, t).
End Laws.

(** [m] run in [s] leaves the state as it is. *)
Definition keeps {tk A} (m : M tk A) (s : world tk) : Prop :=
  forall o s', m s = (o, s') -> s' = s.

(** The position [p] clamped into [[1.0, e]] by the tuple comparisons of
    [TextIndex.__new__]. *)
Definition clamp_to (e : TextIndex) (p : Z * Z) : TextIndex :=
  if lex_ltb p (1, 0) then mkIndex 1 0
  else if lex_ltb (pos e) p then e
  else mkIndex p.1 p.2.

Definition in_range (e p : TextIndex) : Prop :=
  index_le (mkIndex 1 0) p /\ index_le p e.

(** The warnings [ws] reported on top of those of [s], nothing else
    touched. *)
Definition add_warnings {tk} (ws : list string) (s : world tk) : world tk :=
  mkWorld (interp s) (warnings s ++ ws) (boxes s) (text_tags s) (images s).

(** [steps w cmd k s s']: [k] successive [edit cmd] subcommands, each of
    which returned, lead from [s] to [s']. *)
Inductive steps `{Env tk} (w cmd : string) : nat -> world tk -> world tk -> Prop :=
| steps_done (s : world tk) : steps w cmd 0 s s
| steps_more (k : nat) (s s1 s2 : world tk) (b : bool) :
    TextHistory.call_subcommand w [cmd] s = (Ret b, s1) ->
    steps w cmd k s1 s2 ->
    steps w cmd (S k) s s2.

(** [run], asked for [n] steps of [edit cmd], returns without an exception
    after [k <= n] steps: all [n] of them, or as many as went through before
    Tk reported an error. *)
Definition stops_silently `{Env tk} (w cmd : string) (n : nat) (run : M tk unit)
    (s : world tk) : Prop :=
  exists (k : nat) (s_k s' : world tk),
    run s = (Ret tt, s') /\
    (k <= n)%nat /\
    steps w cmd k s s_k /\
    ((k = n /\ s' = s_k) \/
     ((k < n)%nat /\
      exists msg, TextHistory.call_subcommand w [cmd] s_k = (Raise (TclError msg), s'))).

(** No peer is the peer of a peer: whatever [peer_of] refers to has no
    [peer_of] itself. *)
Definition depth_ok (bs : list TextBox) : Prop :=
  forall (r q : nat) (b : TextBox),
    bs !! r = Some b -> peer_of b = Some q ->
    exists b', bs !! q = Some b' /\ peer_of b' = None.

Section CreationLaws.
Context `{Env tk}.

(** [pathName peer create newPath] makes [newPath] display the storage of
    [pathName] and leaves every other widget with its own; frames, layout
    scripts and scrollbars do not change what a text widget displays. *)
Definition peers_share_storage : Prop :=
  (forall t p path opts r t',
      tcl_eval t (p :: "peer" :: "create" :: path :: opts) = (TclOk r, t') ->
      buffer_of t' path = buffer_of t p /\
      forall q, q <> path -> buffer_of t' q = buffer_of t q) /\
  (forall t parent r t' q,
      frame_create t parent = (TclOk r, t') -> buffer_of t' q = buffer_of t q) /\
  (forall t family r t' q,
      Font_new t family = (TclOk r, t') -> buffer_of t' q = buffer_of t q) /\
  (forall t script r t' q,
      tcl_eval t [script] = (TclOk r, t') -> buffer_of t' q = buffer_of t q) /\
  (forall t f o h r t' q,
      scrollbar_create t f o h = (TclOk r, t') -> buffer_of t' q = buffer_of t q).

(** Tk carries out the commands that set a peer up. *)
Definition tk_accepts_creation : Prop :=
  (forall t family, exists r t', Font_new t family = (TclOk r, t')) /\
  (forall t parent, exists r t', frame_create t parent = (TclOk r, t')) /\
  (forall t p path opts, exists r t',
      tcl_eval t (p :: "peer" :: "create" :: path :: opts) = (TclOk r, t')) /\
  (forall t script, exists r t', tcl_eval t [script] = (TclOk r, t')) /\
  (forall t f o h, exists r t', scrollbar_create t f o h = (TclOk r, t')).
End CreationLaws.

(** A failure that is a [TclError] or a [ValueError]. *)
Definition refused (e : exn) : Prop :=
  exists msg, e = TclError msg \/ e = ValueError msg.

(** A failure of the constructor: Tk refuses a command, an argument is
    rejected, or a key is not in its table. *)
Definition init_failure (e : exn) : Prop :=
  refused e \/ exists key, e = KeyError key.

(** The three keys of the arguments are in their tables. *)
Definition keys_known (c : constants) (kw : kwargs) : Prop :=
  is_Some (_cursor_styles c (cursor_style kw)) /\
  is_Some (_inactive_cursor_styles c (inactive_cursor_style kw)) /\
  is_Some (_wraps c (wrap kw)).

(** The tables have the keys that the constructor's defaults look up. *)
Definition tables_have_defaults (c : constants) : Prop :=
  is_Some (_cursor_styles c "normal") /\
  is_Some (_inactive_cursor_styles c None) /\
  is_Some (_wraps c None).

(** What the constructor does in Tk before it creates the peer widget:
    from [t], with the arguments [kw] and for the parent [me], it ends in
    [t1] with the font [fnt] and the frame [frame]. *)
Definition prepared `{Env tk} (kw : kwargs) (me : TextBox) (t : tk)
    (fnt frame : string) (t1 : tk) : Prop :=
  exists t0,
    match font kw with
    | Some f => fnt = f /\ t0 = t
    | None => Font_new t "monospace" = (TclOk fnt, t0)
    end /\
    frame_create t0 (frame_parent me) = (TclOk frame, t1).

(** An end that is omitted or lies in the buffer. *)
Definition endpoint_inside (e : TextIndex) (x : endpoint) : Prop :=
  match x with
  | ETuple [l; c] => in_range e (mkIndex l c)
  | _ => True
  end.

(** An end of a range in one of the shapes the constructor is written for:
    omitted, or a pair. *)
Definition endpoint_ok (x : endpoint) : Prop :=
  match x with
  | ENone => True
  | ETuple items => length items = 2%nat
  end.

(** The end that the constructor stores for [x]: the pair clamped into the
    buffer, or [default] for an omitted bound. *)
Definition stored_end (e default : TextIndex) (x : endpoint) : TextIndex :=
  match x with
  | ETuple [l; c] => clamp_to e (l, c)
  | _ => default
  end.

(** The two ends are given in order (an omitted bound is in order with
    anything). *)
Definition given_in_order (a b : endpoint) : Prop :=
  match a, b with
  | ETuple [l1; c1], ETuple [l2; c2] => index_le (mkIndex l1 c1) (mkIndex l2 c2)
  | _, _ => True
  end.

(** The event closes the tag [t]. *)
Definition closes (t : string) (ev : string * string * string) : Prop :=
  ev.1.1 = "tagoff" /\ ev.1.2 = t.

(** Two states of [content] with the same [result] and the same open tags
    except perhaps [t]. *)
Definition same_but (t : string) (st1 st2 : content_state) : Prop :=
  result st1 = result st2 /\
  forall u, u <> t -> unclosed_tags st1 !! u = unclosed_tags st2 !! u.

Definition related {tk} (t : string)
    (o1 o2 : outcome content_state * world tk) : Prop :=
  o1.2 = o2.2 /\
  match o1.1, o2.1 with
  | Ret a, Ret b => same_but t a b
  | Raise x, Raise y => x = y
  | _, _ => False
  end.

(** The stream of the reconstruction example: [ab] at 1.0, tag [t] opened at
    1.2, [cd] at 1.2, tag [t] closed at 1.4. *)
Definition example_stream : list (string * string * string) :=
  [("text", "ab", "1.0"); ("tagon", "t", "1.2");
   ("text", "cd", "1.2"); ("tagoff", "t", "1.4")].

Definition example_span : pyobj :=
  OPair (ORange (mkRange (mkIndex 1 2) (mkIndex 1 4))) (OTag (mkTag "t")).

(** The list of three pairs that the example promises. *)
Definition example_pairs : list pyobj :=
  [OPair (OIndex (mkIndex 1 0)) (OStr "ab");
   example_span;
   OPair (OIndex (mkIndex 1 2)) (OStr "cd")].

(** The list that [content] builds on the example. *)
Definition example_flat : list pyobj :=
  [OIndex (mkIndex 1 0); OStr "ab";
   example_span;
   OIndex (mkIndex 1 2); OStr "cd"].

(** A step of the set-up: the objects are untouched; when it returns, every
    widget still shows the storage it showed; when it fails, it is with a
    [TclError] or a [ValueError]. *)
Definition set_up_step `{Env tk} {A} (s s' : world tk) (out : outcome A) : Prop :=
  boxes s' = boxes s /\
  match out with
  | Ret _ => peers_share_storage ->
             forall q, buffer_of (interp s') q = buffer_of (interp s) q
  | Raise e => refused e
  end.

(** In the widget's own comparison [q] is [start], [end], or neither before
    [start] nor after [end]: what [clamp] leaves. *)
Definition tk_within `{Env tk} (w : string) (s : world tk) (e q : TextIndex) : Prop :=
  q = mkIndex 1 0 \/ q = e \/
  (TextIndex.__lt__ w q (mkIndex 1 0) s = (Ret false, s) /\
   TextIndex.__gt__ w q e s = (Ret false, s)).

(** Tk's comparison behaves at the two ends of the buffer: neither end is
    before or after itself, [start] is not after [end] and [end] is not
    before [start]. *)
Definition compare_sane `{Env tk} (w : string) (s : world tk) (e : TextIndex) : Prop :=
  TextIndex.__lt__ w (mkIndex 1 0) (mkIndex 1 0) s = (Ret false, s) /\
  TextIndex.__gt__ w (mkIndex 1 0) e s = (Ret false, s) /\
  TextIndex.__lt__ w e (mkIndex 1 0) s = (Ret false, s) /\
  TextIndex.__gt__ w e e s = (Ret false, s).

(** Every recorded opening of a tag points into the result: the index at
    which its span will be inserted is at most the length of the list. *)
Definition indices_ok (st : content_state) : Prop :=
  forall (t opened : string) (k : nat),
    unclosed_tags st !! t = Some (opened, k) -> (k <= length (result st))%nat.

(** The event types that [add_item] knows. *)
Definition known_type (ty : string) : Prop :=
  ty = "tagon" \/ ty = "tagoff" \/ ty = "image" \/ ty = "mark" \/
  ty = "text" \/ ty = "window".

(** The values of [overflow] that the setter accepts: one or two of [True],
    [False] and ["auto"]. *)
Definition overflow_flag_ok (f : overflow_flag) : Prop :=
  f = OvBool true \/ f = OvBool false \/ f = OvStr "auto".

Definition overflow_ok (o : list overflow_flag) : Prop :=
  (exists a, o = [a] /\ overflow_flag_ok a) \/
  (exists a b, o = [a; b] /\ overflow_flag_ok a /\ overflow_flag_ok b).

(** A [padding] that the constructor accepts. *)
Definition padding_ok (p : option padding_arg) : Prop :=
  match p with
  | None | Some (PadInt _) | Some (PadSeq [_]) | Some (PadSeq [_; _]) => True
  | Some (PadSeq _) => False
  end.

(** Tk compares two indices of the form [line.char] by line, then by
    column, and only reads the widget for it. *)
Definition compare_lexicographic `{Env tk} (w : string) (s : world tk) : Prop :=
  forall i j : TextIndex,
    TextIndex.__le__ w i j s = (Ret (negb (lex_ltb (pos j) (pos i))), s) /\
    TextIndex.__lt__ w i j s = (Ret (lex_ltb (pos i) (pos j)), s).

(** The name under which [Tag.__init__] registers the tag. *)
Definition tag_name_for (w : string) (_name : option string) (count : Z) : string :=
  match _name with
  | Some (String c r) => String c r
  | _ => w +:+ ":tag_" +:+ py_str count
  end.

(** ** General facts about the monad and the index constructor *)

Lemma set_interp_same {tk} (s : world tk) : set_interp (interp s) s = s.
Proof. by destruct s. Qed.

Lemma keeps_ret {tk A} (a : A) (s : world tk) : keeps (ret a) s.
Proof. intros o s' [= _ <-]; reflexivity. Qed.

Lemma keeps_raise {tk A} (e : exn) (s : world tk) : keeps (@raise tk A e) s.
Proof. intros o s' [= _ <-]; reflexivity. Qed.

Lemma keeps_bind {tk A B} (m : M tk A) (k : A -> M tk B) (s : world tk) :
  keeps m s -> (forall a, keeps (k a) s) -> keeps (bind m k) s.
Proof.
  intros Hm Hk o s'. unfold bind.
  destruct (m s) as [[a|e] s1] eqn:E; pose proof (Hm _ _ E) as ->.
  - apply Hk.
  - intros [= _ <-]; reflexivity.
Qed.

Lemma lex_ltb_spec (a b : Z * Z) :
  lex_ltb a b = true <-> (a.1 < b.1 \/ (a.1 = b.1 /\ a.2 < b.2)).
Proof. unfold lex_ltb. destruct a, b; simpl. lia. Qed.

Lemma clamp_to_in_range (e : TextIndex) (p : Z * Z) :
  index_le (mkIndex 1 0) e -> in_range e (clamp_to e p).
Proof.
  intros He. unfold clamp_to, in_range, index_le in *.
  destruct (lex_ltb p (1, 0)) eqn:E1; [simpl in *; lia|].
  destruct (lex_ltb (pos e) p) eqn:E2; [simpl in *; lia|].
  apply not_true_iff_false in E1, E2. rewrite lex_ltb_spec in E1, E2.
  destruct p, e; simpl in *. lia.
Qed.

Section IndexFacts.
Context `{Env tk}.
Variable w : string.
Hypothesis Hquery : index_is_query w.

Lemma keeps_index_call (e : string) (s : world tk) :
  keeps (_tcl_call [w; "index"; e]) s.
Proof.
  intros o s'. unfold _tcl_call. pose proof (Hquery (interp s) e) as Hq.
  destruct (tcl_eval (interp s) [w; "index"; e]) as [[r|msg] t]; simpl in Hq; subst t;
    rewrite set_interp_same; intros [= _ <-]; reflexivity.
Qed.

Lemma keeps_parse_index (r : string) (s : world tk) :
  keeps (TextIndex.parse_index r) s.
Proof.
  unfold TextIndex.parse_index.
  repeat (case_match; try apply keeps_ret; try apply keeps_raise).
Qed.

Lemma keeps_locals (index : list arg) (s : world tk) :
  keeps (TextIndex.locals w index) s.
Proof.
  unfold TextIndex.locals, TextIndex.as_int, TextIndex.unpack_pair.
  repeat first
    [ apply keeps_ret | apply keeps_raise | apply keeps_index_call
    | apply keeps_parse_index
    | apply keeps_bind; [|intros ?] | case_match ].
Qed.

Lemma start_value (s : world tk) : TextIndex.start w s = (Ret (mkIndex 1 0), s).
Proof. reflexivity. Qed.

(** The constructor with the check: the locals, then the clamp. *)
Lemma new_checked (index : list arg) (s : world tk) (e : TextIndex) :
  TextIndex.end_ w s = (Ret e, s) ->
  TextIndex.__new__ w index false s =
    match TextIndex.locals w index s with
    | (Ret (Some p), _) => (Ret (clamp_to e p), s)
    | (Ret None, _) => (Raise (UnboundLocalError "line"), s)
    | (Raise x, _) => (Raise x, s)
    end.
Proof.
  intros He. unfold TextIndex.__new__. unfold bind at 1.
  destruct (TextIndex.locals w index s) as [[[p|]|x] s1] eqn:E;
    pose proof (keeps_locals _ _ _ _ E) as ->; try reflexivity.
  unfold TextIndex.bound, bind at 1, ret at 1. unfold bind at 1.
  rewrite start_value. unfold clamp_to. change (pos (mkIndex 1 0)) with (1, 0).
  destruct (lex_ltb p (1, 0)); [apply start_value|].
  unfold bind. rewrite He. destruct (lex_ltb (pos e) p); [apply He|reflexivity].
Qed.

Lemma new_checked_in_range (index : list arg) (s s' : world tk) (e p : TextIndex) :
  TextIndex.end_ w s = (Ret e, s) ->
  index_le (mkIndex 1 0) e ->
  TextIndex.__new__ w index false s = (Ret p, s') ->
  s' = s /\ in_range e p.
Proof.
  intros He Hle. rewrite (new_checked _ _ _ He).
  destruct (TextIndex.locals w index s) as [[[q|]|x] s1]; intros [= <- <-].
  split; [reflexivity|]. by apply clamp_to_in_range.
Qed.
End IndexFacts.

Section MovementFacts.
Context `{Env tk}.
Variable w : string.
Hypothesis Hquery : index_is_query w.
Hypothesis Hcompare : compare_answers w.

Lemma compare_value (i j : TextIndex) (op : string) (s : world tk) :
  exists b, TextIndex._compare w i j op s = (Ret b, s).
Proof.
  unfold TextIndex._compare, bind, _tcl_call.
  destruct (Hcompare (interp s) i j op) as [r ->].
  rewrite set_interp_same. by eexists.
Qed.

Lemma clamp_cases (i e : TextIndex) (s : world tk) :
  TextIndex.end_ w s = (Ret e, s) ->
  exists q, TextIndex.clamp w i s = (Ret q, s) /\
            (q = mkIndex 1 0 \/ q = e \/ q = i) /\ tk_within w s e q.
Proof.
  intros He.
  destruct (compare_value i (mkIndex 1 0) "<" s) as [b Eb].
  destruct (compare_value i e ">" s) as [b' Eb'].
  assert (E : TextIndex.clamp w i s
              = (Ret (if b then mkIndex 1 0 else if b' then e else i), s)).
  { unfold TextIndex.clamp, TextIndex.__lt__, TextIndex.__gt__.
    unfold bind at 1. rewrite start_value. unfold bind at 1. rewrite Eb.
    destruct b; [apply start_value|].
    unfold bind at 1. rewrite He. unfold bind. rewrite Eb'.
    destruct b'; [apply He|reflexivity]. }
  eexists. split; [exact E|]. unfold tk_within, TextIndex.__lt__, TextIndex.__gt__.
  destruct b; [split; by left|].
  destruct b'; [split; right; by left|].
  split; right; right; [reflexivity|by split].
Qed.

Lemma moved_in_range (expr : string) (e q : TextIndex) (s s' : world tk) :
  TextIndex.end_ w s = (Ret e, s) ->
  index_le (mkIndex 1 0) e ->
  (let* i := TextIndex.from_tcl w expr in TextIndex.clamp w i) s = (Ret q, s') ->
  in_range e q /\ tk_within w s e q.
Proof.
  intros He Hle. unfold bind, TextIndex.from_tcl.
  destruct (TextIndex.__new__ w [AStr expr] false s) as [[i|x] s1] eqn:E; [|done].
  destruct (new_checked_in_range w Hquery _ _ _ _ _ He Hle E) as [-> Hi].
  destruct (clamp_cases i e s He) as (q' & -> & Hq & Hw). intros [= <- _].
  split; [|assumption].
  destruct Hq as [->| [->| ->]]; [| |done]; unfold in_range, index_le in *; lia.
Qed.
End MovementFacts.

(** ** Positions stay inside the buffer *)

(** C2.  On a live buffer (Tk resolves [end - 1 chars] to [e], at or after
    [1.0]) every position built by the checked constructor or by a movement
    lies between [start] and [end] in the order of [(line, column)] pairs;
    building one from a raw pair of integers never raises and gives [start]
    below the buffer, [end] above it and the pair itself in between.  A
    movement moreover ends with [clamp], so in the widget's own comparison
    its result is [start], [end] or neither before the one nor after the
    other. *)
Theorem clamping_invariant `{Env tk} (w : string) (s : world tk) (e : TextIndex) :
  index_is_query w ->
  compare_answers w ->
  TextIndex.end_ w s = (Ret e, s) ->
  index_le (mkIndex 1 0) e ->
  TextIndex.start w s = (Ret (mkIndex 1 0), s) /\
  (forall index p s',
      TextIndex.__new__ w index false s = (Ret p, s') -> in_range e p) /\
  (forall l c, exists p,
      TextIndex.__new__ w [AInt l; AInt c] false s = (Ret p, s) /\
      in_range e p /\
      (index_lt (mkIndex l c) (mkIndex 1 0) -> p = mkIndex 1 0) /\
      (index_lt e (mkIndex l c) -> p = e) /\
      (in_range e (mkIndex l c) -> p = mkIndex l c)) /\
  (forall self chars indices lines q s',
      TextIndex.forward w self chars indices lines s = (Ret q, s') ->
      in_range e q /\ tk_within w s e q) /\
  (forall self chars indices lines q s',
      TextIndex.back w self chars indices lines s = (Ret q, s') ->
      in_range e q /\ tk_within w s e q) /\
  (forall self q s', TextIndex.linestart w self s = (Ret q, s') ->
      in_range e q /\ tk_within w s e q) /\
  (forall self q s', TextIndex.lineend w self s = (Ret q, s') ->
      in_range e q /\ tk_within w s e q) /\
  (forall self q s', TextIndex.wordstart w self s = (Ret q, s') ->
      in_range e q /\ tk_within w s e q) /\
  (forall self q s', TextIndex.wordend w self s = (Ret q, s') ->
      in_range e q /\ tk_within w s e q).
Proof.
  intros Hq Hc He Hle.
  split; [reflexivity|]. split.
  { intros index p s' E. by destruct (new_checked_in_range w Hq _ _ _ _ _ He Hle E). }
  split.
  { intros l c. exists (clamp_to e (l, c)). split.
    - by rewrite (new_checked w Hq _ _ _ He).
    - split; [by apply clamp_to_in_range|].
      unfold clamp_to, in_range, index_lt, index_le, pos in *.
      destruct e as [el ec]; simpl in *.
      destruct (lex_ltb (l, c) (1, 0)) eqn:E1;
        [apply lex_ltb_spec in E1
        |apply not_true_iff_false in E1; rewrite lex_ltb_spec in E1;
         destruct (lex_ltb (el, ec) (l, c)) eqn:E2;
           [apply lex_ltb_spec in E2
           |apply not_true_iff_false in E2; rewrite lex_ltb_spec in E2]];
        simpl in *; repeat split; intros; first [done | f_equal; lia]. }
  unfold TextIndex.forward, TextIndex.back, TextIndex._move, TextIndex.linestart,
    TextIndex.lineend, TextIndex.wordstart, TextIndex.wordend, TextIndex._apply_suffix.
  repeat match goal with |- _ /\ _ => split end;
    intros; eapply (moved_in_range w Hq Hc); eauto.
Qed.

(** The scripted interpreter obeys the laws above. *)

Lemma scripted_index_is_query (w : string) : index_is_query (tk := Scripted.tk) w.
Proof.
  intros t e. simpl. destruct (Scripted.assoc e (Scripted.index_table t)); reflexivity.
Qed.

Lemma scripted_compare_answers (w : string) : compare_answers (tk := Scripted.tk) w.
Proof.
  intros t i j op. simpl. unfold Scripted.compare.
  destruct (Scripted.parse (TextIndex.to_tcl i)), (Scripted.parse (TextIndex.to_tcl j));
    eexists; reflexivity.
Qed.

Lemma clamping_invariant_witness :
  (exists p,
     TextIndex.__new__ ".frame0.textbox" [AInt 7; AInt 3] false
       (Scripted.world_of Scripted.abcd) = (Ret p, Scripted.world_of Scripted.abcd) /\
     in_range (mkIndex 1 4) p) /\
  TextIndex.forward ".frame0.textbox" (mkIndex 1 2) 9 0 0 (Scripted.world_of Scripted.abcd)
    = (Ret (mkIndex 1 4), Scripted.world_of Scripted.abcd) /\
  in_range (mkIndex 1 4) (mkIndex 1 4).
Proof.
  destruct (clamping_invariant ".frame0.textbox" (Scripted.world_of Scripted.abcd)
              (mkIndex 1 4) (scripted_index_is_query _) (scripted_compare_answers _)
              ltac:(vm_compute; reflexivity)
              ltac:(unfold index_le; simpl; lia)) as (_ & _ & Hraw & Hforward & _).
  assert (E : TextIndex.forward ".frame0.textbox" (mkIndex 1 2) 9 0 0
                (Scripted.world_of Scripted.abcd)
              = (Ret (mkIndex 1 4), Scripted.world_of Scripted.abcd))
    by (vm_compute; reflexivity).
  split; [|split; [exact E|exact (proj1 (Hforward _ _ _ _ _ _ E))]].
  destruct (Hraw 7 3) as (p & Hp & Hr & _). exists p. split; assumption.
Defined.

(** ** Unsupported values *)

(** C7.  A value of an unsupported type is refused with [TypeError], but an
    integer other than 0, 1 and -1 is not: no branch assigns [line] and
    [col], and reading them raises [UnboundLocalError]. *)
Theorem unsupported_integer_is_unbound `{Env tk} (w : string) (s : world tk) :
  (forall no_check, TextIndex.__new__ w [AOther] no_check s = (Raise TypeError, s)) /\
  (forall i no_check, i <> 0 -> i <> 1 -> i <> -1 ->
     TextIndex.__new__ w [AInt i] no_check s = (Raise (UnboundLocalError "line"), s)).
Proof.
  split.
  - intros [|]; reflexivity.
  - intros i no_check H0 H1 H2.
    assert (E : TextIndex.locals w [AInt i] s = (Ret None, s)).
    { unfold TextIndex.locals, bind.
      apply Z.eqb_neq in H0, H1, H2. rewrite H0, H1, H2. reflexivity. }
    destruct no_check; unfold TextIndex.__new__, TextIndex.new_unchecked, bind;
      rewrite E; reflexivity.
Qed.

Lemma unsupported_integer_is_unbound_witness :
  TextIndex.__new__ ".frame0.textbox" [AInt 5] false (Scripted.world_of Scripted.abcd)
  = (Raise (UnboundLocalError "line"), Scripted.world_of Scripted.abcd).
Proof.
  apply (unsupported_integer_is_unbound ".frame0.textbox"
           (Scripted.world_of Scripted.abcd)); lia.
Defined.

(** ** The mark table *)

(** C9.  Deleting the mark [insert] raises the error of the protected mark
    and sends nothing to Tk; deleting any other name sends [mark unset] and
    ends as that command does, never with the protected-mark error. *)
Theorem delete_insert_mark_protected `{Env tk} (w : string) (s : world tk) :
  TextMarks.__delitem__ w "insert" s
    = (Raise (RuntimeError "can't delete insertion cursor"), s) /\
  (forall name, name <> "insert" ->
     TextMarks.__delitem__ w name s
       = match tcl_eval (interp s) [w; "mark"; "unset"; name] with
         | (TclOk _, t) => (Ret tt, set_interp t s)
         | (TclFail msg, t) => (Raise (TclError msg), set_interp t s)
         end /\
     forall msg s', TextMarks.__delitem__ w name s <> (Raise (RuntimeError msg), s')).
Proof.
  split; [reflexivity|].
  intros name Hne. unfold TextMarks.__delitem__.
  apply String.eqb_neq in Hne. rewrite Hne.
  unfold bind, _tcl_call.
  destruct (tcl_eval (interp s) [w; "mark"; "unset"; name]) as [[r|m] t];
    split; try reflexivity; intros msg s'; discriminate.
Qed.

Lemma delete_insert_mark_protected_witness :
  exists s', TextMarks.__delitem__ ".frame0.textbox" "m" (Scripted.world_of Scripted.abcd)
             = (Ret tt, s') /\
             Scripted.marks (interp s') = ["insert"; "current"].
Proof.
  destruct (delete_insert_mark_protected ".frame0.textbox"
              (Scripted.world_of Scripted.abcd)) as [_ Hother].
  destruct (Hother "m" ltac:(discriminate)) as [Heq _].
  eexists. split; [exact Heq|]. vm_compute. reflexivity.
Defined.

(** ** History *)

Section HistoryFacts.
Context `{Env tk}.
Variable w : string.

Lemma add_warnings_app (a b : list string) (s : world tk) :
  add_warnings b (add_warnings a s) = add_warnings (a ++ b) s.
Proof. unfold add_warnings; simpl. by rewrite <- app_assoc. Qed.

Lemma add_warnings_nil (s : world tk) : add_warnings [] s = s.
Proof. destruct s; unfold add_warnings; simpl. by rewrite app_nil_r. Qed.

Lemma disabled_call (cmd : string) (s : world tk) :
  history_disabled w (interp s) ->
  disabled_edit_does_nothing w (interp s) ->
  cmd = "undo" \/ cmd = "redo" ->
  exists b, TextHistory.call_subcommand w [cmd] s
            = (Ret b, add_warnings [TextHistory.disabled_msg] s).
Proof.
  intros (r & Hr & Hb) Hnoop Hcmd. destruct (Hnoop cmd Hcmd) as [r' Hr'].
  unfold TextHistory.call_subcommand, TextHistory.track_history, bind, _tcl_call.
  rewrite Hr, set_interp_same. unfold ret at 1. rewrite Hb.
  unfold warn. simpl. rewrite Hr'. eexists. reflexivity.
Qed.

Lemma disabled_repeat (cmd : string) (n : nat) (s : world tk) :
  history_disabled w (interp s) ->
  disabled_edit_does_nothing w (interp s) ->
  cmd = "undo" \/ cmd = "redo" ->
  TextHistory.repeat_subcommand w n cmd s
    = (Ret tt, add_warnings (replicate n TextHistory.disabled_msg) s).
Proof.
  intros Hd Hn Hcmd. revert s Hd Hn. induction n as [|n IH]; intros s Hd Hn.
  - simpl. by rewrite add_warnings_nil.
  - simpl. unfold bind. destruct (disabled_call cmd s Hd Hn Hcmd) as [b ->].
    rewrite IH by assumption. by rewrite add_warnings_app.
Qed.

(** Whatever a single step does, it ends normally or with [TclError]. *)
Lemma call_subcommand_outcome (cmd : string) (s : world tk) :
  (exists b s', TextHistory.call_subcommand w [cmd] s = (Ret b, s')) \/
  (exists msg s', TextHistory.call_subcommand w [cmd] s = (Raise (TclError msg), s')).
Proof.
  unfold TextHistory.call_subcommand, TextHistory.track_history, bind, _tcl_call.
  destruct (tcl_eval (interp s) [w; "cget"; "-undo"]) as [[r|m] t]; [|right; eauto].
  unfold ret at 1. destruct (from_tcl_bool r); simpl;
    match goal with |- context [tcl_eval ?a ?b] => destruct (tcl_eval a b) as [[r'|m'] t'] end;
    [left|right|left|right]; eauto.
Qed.

Lemma repeat_stops (cmd : string) (n : nat) (s : world tk) :
  stops_silently w cmd n (try_TclError (TextHistory.repeat_subcommand w n cmd)) s.
Proof.
  revert s. induction n as [|n IH]; intros s.
  - exists 0%nat, s, s. repeat split; [lia|constructor|left; done].
  - destruct (call_subcommand_outcome cmd s) as [(b & s1 & E)|(msg & s1 & E)].
    + destruct (IH s1) as (k & sk & s' & Hrun & Hk & Hsteps & Hend).
      exists (S k), sk, s'. split.
      { unfold try_TclError in *. simpl. unfold bind. rewrite E. exact Hrun. }
      split; [lia|]. split; [econstructor; eauto|].
      destruct Hend as [[-> ->]|[Hlt Hfail]]; [left; done|right; split; [lia|done]].
    + exists 0%nat, s, s1. split.
      { unfold try_TclError. simpl. unfold bind. rewrite E. reflexivity. }
      split; [lia|]. split; [constructor|]. right. split; [lia|eauto].
Qed.
End HistoryFacts.

(** C3.  With history tracking off, an [undo] or [redo] subcommand reports
    the warning, changes nothing else (Tk ignores the command) and returns;
    [undo(number)] and [redo(number)] return likewise, having warned once
    per step, so at least once when a step is asked for. *)
Theorem disabled_history_warns `{Env tk} (w : string) (s : world tk) :
  history_disabled w (interp s) ->
  disabled_edit_does_nothing w (interp s) ->
  (forall cmd, cmd = "undo" \/ cmd = "redo" ->
     exists b, TextHistory.call_subcommand w [cmd] s
               = (Ret b, add_warnings [TextHistory.disabled_msg] s)) /\
  (forall number,
     TextHistory.undo w number s
       = (Ret tt, add_warnings (replicate (Z.to_nat number) TextHistory.disabled_msg) s)) /\
  (forall number,
     TextHistory.redo w number s
       = (Ret tt, add_warnings (replicate (Z.to_nat number) TextHistory.disabled_msg) s)) /\
  (forall number, 1 <= number ->
     exists more,
       replicate (Z.to_nat number) TextHistory.disabled_msg
       = TextHistory.disabled_msg :: more).
Proof.
  intros Hd Hn. split; [intros cmd Hcmd; by apply disabled_call|].
  split; [|split].
  - intros number. unfold TextHistory.undo, try_TclError.
    rewrite disabled_repeat by auto. reflexivity.
  - intros number. unfold TextHistory.redo, try_TclError.
    rewrite disabled_repeat by auto. reflexivity.
  - intros number Hge. destruct (Z.to_nat number) as [|n] eqn:E; [lia|].
    simpl. eauto.
Qed.

Lemma scripted_history_disabled (w : string) :
  history_disabled w Scripted.three_lines /\
  disabled_edit_does_nothing w Scripted.three_lines.
Proof.
  split.
  - exists "0". split; reflexivity.
  - intros cmd [->| ->]; exists ""; reflexivity.
Qed.

Lemma disabled_history_warns_witness :
  TextHistory.undo ".frame0.textbox" 1 (Scripted.world_of Scripted.three_lines)
  = (Ret tt, add_warnings [TextHistory.disabled_msg] (Scripted.world_of Scripted.three_lines)).
Proof.
  destruct (disabled_history_warns ".frame0.textbox" (Scripted.world_of Scripted.three_lines)
              (proj1 (scripted_history_disabled _)) (proj2 (scripted_history_disabled _)))
    as (_ & Hundo & _).
  exact (Hundo 1).
Defined.

(** C8.  [undo(number)] and [redo(number)] never raise: the steps are taken
    one after the other, and the first one that Tk refuses (the end of the
    log) ends the call silently. *)
Theorem undo_redo_stop_silently `{Env tk} (w : string) (number : Z) (s : world tk) :
  stops_silently w "undo" (Z.to_nat number) (TextHistory.undo w number) s /\
  stops_silently w "redo" (Z.to_nat number) (TextHistory.redo w number) s.
Proof. split; apply repeat_stops. Qed.

(** ** Decimal text and the splitting of paths *)

Lemma no_dot_uint (d : Decimal.uint) :
  has_char "."%char (NilEmpty.string_of_uint d) = false.
Proof. induction d; simpl; auto. Qed.

Lemma no_dot_nz_uint (d : Decimal.uint) :
  has_char "."%char (NilZero.string_of_uint d) = false.
Proof. destruct d; [reflexivity|exact (no_dot_uint _)..]. Qed.

Lemma no_dot_py_str (z : Z) : has_char "."%char (py_str z) = false.
Proof.
  unfold py_str. destruct z as [|p|p]; [reflexivity| |].
  - exact (no_dot_nz_uint (Pos.to_uint p)).
  - exact (no_dot_nz_uint (Pos.to_uint p)).
Qed.

Lemma split_dot_cons (c : ascii) (s : string) :
  Ascii.eqb c "."%char = false ->
  split_dot (String c s)
  = match split_dot s with
    | [] => [String c EmptyString]
    | x :: xs => String c x :: xs
    end.
Proof. intros E. change (split_dot (String c s)) with
  (if Ascii.eqb c "."%char then EmptyString :: split_dot s
   else match split_dot s with
        | [] => [String c EmptyString]
        | x :: xs => String c x :: xs
        end). by rewrite E.
Qed.

Lemma has_char_cons_false (c d : ascii) (s : string) :
  has_char c (String d s) = false -> Ascii.eqb d c = false /\ has_char c s = false.
Proof.
  change (has_char c (String d s)) with (Ascii.eqb c d || has_char c s).
  intros E. apply orb_false_iff in E as [E1 E2]. by rewrite Ascii.eqb_sym.
Qed.

Lemma split_dot_no_dot (s : string) :
  has_char "."%char s = false -> split_dot s = [s].
Proof.
  induction s as [|c s IH]; [reflexivity|].
  intros Hs. apply has_char_cons_false in Hs as [Hc Hs].
  by rewrite (split_dot_cons _ _ Hc), (IH Hs).
Qed.

Lemma split_dot_join (a b : string) :
  has_char "."%char a = false -> has_char "."%char b = false ->
  split_dot (a +:+ "." +:+ b) = [a; b].
Proof.
  intros Ha Hb. induction a as [|c a IH].
  - change (split_dot ("" +:+ "." +:+ b)) with (EmptyString :: split_dot b).
    by rewrite (split_dot_no_dot b Hb).
  - apply has_char_cons_false in Ha as [Hc Ha].
    change (String c a +:+ "." +:+ b) with (String c (a +:+ "." +:+ b)).
    by rewrite (split_dot_cons _ _ Hc), (IH Ha).
Qed.

Lemma py_int_py_str (z : Z) : py_int (py_str z) = Some z.
Proof.
  unfold py_int, py_str.
  assert (Hd : NilZero.int_of_string (NilZero.string_of_int (Z.to_int z))
               = Some (Z.to_int z)).
  { apply NilZero.isi; destruct z as [|p|p]; simpl; try discriminate;
      intros [= E]; by apply (DecimalPos.Unsigned.to_uint_nonnil p). }
  destruct (NilZero.string_of_int (Z.to_int z)) as [|c s] eqn:E; [discriminate Hd|].
  destruct (Ascii.eqb_spec c "+") as [->|_].
  - exfalso. revert Hd. unfold NilZero.int_of_string, NilZero.uint_of_string. simpl.
    by destruct (NilEmpty.uint_of_string s).
  - rewrite Hd. simpl. by rewrite DecimalZ.of_to.
Qed.

(** ** Paths *)

Lemma length_append (a b : string) :
  String.length (a +:+ b) = (String.length a + String.length b)%nat.
Proof.
  induction a as [|c a IH]; [reflexivity|].
  change (S (String.length (a +:+ b)) = S (String.length a + String.length b)).
  by rewrite IH.
Qed.

Lemma has_char_append (c : ascii) (a b : string) :
  has_char c (a +:+ b) = has_char c a || has_char c b.
Proof.
  induction a as [|d a IH]; [reflexivity|].
  change (Ascii.eqb c d || has_char c (a +:+ b)
          = (Ascii.eqb c d || has_char c a) || has_char c b).
  rewrite IH. by destruct (Ascii.eqb c d).
Qed.

(** The last component of a path has no dot. *)
Lemma last_component_no_dot (s : string) :
  has_char "."%char (last_component s) = false.
Proof.
  unfold last_component.
  assert (Hsplit : exists pre x, split_dot s = pre ++ [x] /\ has_char "."%char x = false).
  { induction s as [|c s (pre & x & E & Hx)]; [by exists [], EmptyString|].
    destruct (Ascii.eqb_spec c "."%char) as [->|Hc].
    - exists (EmptyString :: pre), x. split; [|exact Hx].
      change (split_dot (String "." s)) with (EmptyString :: split_dot s). by rewrite E.
    - apply Ascii.eqb_neq in Hc. rewrite (split_dot_cons _ _ Hc), E.
      destruct pre as [|p pre].
      + exists [], (String c x). split; [reflexivity|].
        change (Ascii.eqb "." c || has_char "."%char x = false).
        by rewrite Ascii.eqb_sym, Hc.
      + by exists (String c p :: pre), x. }
  destruct Hsplit as (pre & x & -> & Hx). by rewrite last_last.
Qed.

(** What follows the last dot of a path is its last component. *)
Lemma last_component_after_dot (a b : string) :
  has_char "."%char b = false -> last_component (a +:+ "." +:+ b) = b.
Proof.
  intros Hb. unfold last_component.
  assert (Hsplit : exists p pre, split_dot (a +:+ "." +:+ b) = (p :: pre) ++ [b]).
  { induction a as [|c a (p & pre & E)].
    - exists EmptyString, [].
      change (split_dot ("" +:+ "." +:+ b)) with (EmptyString :: split_dot b).
      by rewrite (split_dot_no_dot b Hb).
    - change (String c a +:+ "." +:+ b) with (String c (a +:+ "." +:+ b)).
      destruct (Ascii.eqb_spec c "."%char) as [->|Hc].
      + exists EmptyString, (p :: pre).
        change (split_dot (String "." (a +:+ "." +:+ b)))
          with (EmptyString :: split_dot (a +:+ "." +:+ b)).
        by rewrite E.
      + apply Ascii.eqb_neq in Hc. rewrite (split_dot_cons _ _ Hc), E.
        by exists (String c p), pre. }
  destruct Hsplit as (p & pre & ->). by rewrite last_last.
Qed.

(** The path of a peer is never the path of its parent. *)
Lemma peer_path_fresh (frame : string) (parent : TextBox) :
  peer_path frame parent <> tcl_path parent.
Proof.
  intros Heq.
  set (v := "textbox_peer_" +:+ py_str (peer_count parent) +:+ "_of_" +:+
            last_component (tcl_path parent)).
  assert (Hv : has_char "."%char v = false).
  { subst v. rewrite !has_char_append, no_dot_py_str, last_component_no_dot. reflexivity. }
  assert (Hlast : last_component (peer_path frame parent) = v)
    by exact (last_component_after_dot frame v Hv).
  rewrite Heq in Hlast.
  assert (Hlen : String.length (last_component (tcl_path parent)) = String.length v)
    by (by rewrite Hlast).
  subst v. rewrite !length_append in Hlen. cbn [String.length] in Hlen. lia.
Qed.

(** ** Peers *)

Lemma bind_inv {tk A B} (m : M tk A) (k : A -> M tk B) (s s' : world tk) (o : outcome B) :
  bind m k s = (o, s') ->
  (exists a s1, m s = (Ret a, s1) /\ k a s1 = (o, s')) \/
  (exists e, m s = (Raise e, s') /\ o = Raise e).
Proof.
  unfold bind. destruct (m s) as [[a|e] s1]; [left; eauto|].
  intros [= <- <-]. right; eauto.
Qed.

Section PeerFacts.
Context `{Env tk}.

(** What a command sent to Tk can do to the program state. *)
Lemma lift_tcl_inv (f : tk -> tcl_result * tk) (s s' : world tk) (o : outcome string) :
  TextBox.lift_tcl f s = (o, s') ->
  exists t, s' = set_interp t s /\
    ((exists r, o = Ret r /\ f (interp s) = (TclOk r, t)) \/
     (exists msg, o = Raise (TclError msg) /\ f (interp s) = (TclFail msg, t))).
Proof.
  unfold TextBox.lift_tcl. destruct (f (interp s)) as [[r|msg] t];
    intros [= <- <-]; exists t; eauto.
Qed.

Lemma tcl_call_inv (words : list string) (s s' : world tk) (o : outcome string) :
  _tcl_call words s = (o, s') ->
  exists t, s' = set_interp t s /\
    ((exists r, o = Ret r /\ tcl_eval (interp s) words = (TclOk r, t)) \/
     (exists msg, o = Raise (TclError msg) /\ tcl_eval (interp s) words = (TclFail msg, t))).
Proof. apply (lift_tcl_inv (fun t => tcl_eval t words)). Qed.

Lemma make_scroll_step (frame o : string) (m : option bool) (s s' : world tk)
    (out : outcome unit) :
  TextBox.make_scroll frame o m s = (out, s') -> set_up_step s s' out.
Proof.
  unfold TextBox.make_scroll. destruct m as [hide|].
  - intros Hb. apply bind_inv in Hb as [(a & s1 & H1 & H2)|(e & H1 & ->)];
      apply lift_tcl_inv in H1 as (t & -> & [(r & [=] & E)|(m & [=] & E)]); subst.
    + injection H2 as <- <-. split; [reflexivity|].
      intros (_ & _ & _ & _ & L) q. simpl. eapply L; eauto.
    + split; [reflexivity|]. exists m. by left.
  - intros [= <- <-]. split; [reflexivity|auto].
Qed.

Lemma set_overflow_step (frame : string) (o : list overflow_flag) (s s' : world tk)
    (out : outcome unit) :
  TextBox.set_overflow frame o s = (out, s') -> set_up_step s s' out.
Proof.
  unfold TextBox.set_overflow.
  set (pair := match o with [a] => [a; a] | l => l end). clearbody pair.
  assert (Hbad : forall msg, @raise tk unit (ValueError msg) s = (out, s') ->
                             set_up_step s s' out).
  { intros msg [= <- <-]. split; [reflexivity|]. exists msg. by right. }
  destruct pair as [|a [|b [|? ?]]]; try apply Hbad.
  destruct (TextBox.scroll_mode a) as [h|]; [|apply Hbad].
  destruct (TextBox.scroll_mode b) as [v|]; [|apply Hbad].
  intros Hb. apply bind_inv in Hb as [(u & s1 & H1 & H2)|(e & H1 & ->)].
  - apply make_scroll_step in H1 as [B1 S1], H2 as [B2 S2].
    split; [congruence|]. destruct out; [|assumption].
    intros L q. rewrite S2, S1; auto.
  - by apply make_scroll_step in H1.
Qed.

Lemma check_padding_inv (p : option padding_arg) (s s' : world tk)
    (out : outcome (option (Z * Z))) :
  TextBox.check_padding p s = (out, s') ->
  s' = s /\ forall e, out = Raise e -> refused e.
Proof.
  unfold TextBox.check_padding.
  repeat case_match; intros [= <- <-]; (split; [reflexivity|]); intros e [=]; subst.
  all: eexists; by right.
Qed.

Lemma table_get_inv {A} (entry : option A) (key : string) (s s' : world tk)
    (out : outcome A) :
  TextBox.table_get entry key s = (out, s') ->
  s' = s /\
  match out with
  | Ret a => entry = Some a
  | Raise e => entry = None /\ e = KeyError key
  end.
Proof. destruct entry; intros [= <- <-]; auto. Qed.

(** The font the constructor uses: the one given, or a new one. *)
Lemma init_font (kw : kwargs) (s s' : world tk) (out : outcome string) :
  match font kw with
  | Some f => ret f
  | None => TextBox.lift_tcl (fun t => Font_new t "monospace")
  end s = (out, s') ->
  exists t0, s' = set_interp t0 s /\
    match out with
    | Ret fnt => match font kw with
                 | Some f => fnt = f /\ t0 = interp s
                 | None => Font_new (interp s) "monospace" = (TclOk fnt, t0)
                 end
    | Raise e => font kw = None /\ exists msg, e = TclError msg
    end.
Proof.
  destruct (font kw) as [f|].
  - intros [= <- <-]. exists (interp s). by rewrite set_interp_same.
  - intros Hb. apply lift_tcl_inv in Hb as (t0 & -> & [(r & -> & E)|(msg & -> & E)]);
      exists t0; eauto.
Qed.

(** The constructor on the peer path. *)
Lemma init_peer (tables : constants) (r : nat) (parent : TextBox) (kw : kwargs)
    (s s' : world tk) (out : outcome nat) :
  boxes s !! r = Some parent ->
  TextBox.__init__ tables r kw s = (out, s') ->
  match out with
  | Ret n =>
      n = length (boxes s) /\
      exists new fnt frame t1 opts res t2,
        boxes s' = boxes s ++ [new] /\
        peer_of new = Some r /\ peer_count new = 0 /\
        prepared kw parent (interp s) fnt frame t1 /\
        tcl_path new = peer_path frame parent /\
        tcl_eval t1 (tcl_path parent :: "peer" :: "create" :: tcl_path new :: opts)
        = (TclOk res, t2) /\
        (peers_share_storage ->
         buffer_of (interp s') (tcl_path new) = buffer_of (interp s) (tcl_path parent) /\
         buffer_of (interp s') (tcl_path parent) = buffer_of (interp s) (tcl_path parent))
  | Raise e => boxes s' = boxes s /\ init_failure e
  end.
Proof.
  intros Hr. unfold TextBox.__init__. intros Hb.
  apply bind_inv in Hb as [(fnt & s0 & H0 & Hb)|(e & H0 & ->)];
    apply init_font in H0 as (t0 & -> & Hfont);
    [|destruct Hfont as (_ & msg & ->); split; [reflexivity|left; exists msg; by left]].
  apply bind_inv in Hb as [(pad & s1 & H1 & Hb)|(e & H1 & ->)];
    apply check_padding_inv in H1 as [-> Hpad]; [|split; [reflexivity|left; auto]].
  apply bind_inv in Hb as [(cur & s1 & H1 & Hb)|(e & H1 & ->)];
    apply table_get_inv in H1 as [-> Hcur];
    [|destruct Hcur as [_ ->]; split; [reflexivity|right; eauto]].
  apply bind_inv in Hb as [(ina & s1 & H1 & Hb)|(e & H1 & ->)];
    apply table_get_inv in H1 as [-> Hina];
    [|destruct Hina as [_ ->]; split; [reflexivity|right; eauto]].
  apply bind_inv in Hb as [(wr & s1 & H1 & Hb)|(e & H1 & ->)];
    apply table_get_inv in H1 as [-> Hwr];
    [|destruct Hwr as [_ ->]; split; [reflexivity|right; eauto]].
  apply bind_inv in Hb as [(p & s1 & H1 & Hb)|(e & H1 & ->)];
    unfold TextBox.deref in H1; cbn [boxes set_interp] in H1; rewrite Hr in H1;
    [|discriminate].
  injection H1 as <- <-.
  apply bind_inv in Hb as [(frame & s1 & H1 & Hb)|(e & H1 & ->)];
    apply lift_tcl_inv in H1 as (t1 & -> & [(? & [= <-] & E1)|(m & [= ?] & E1)]); subst;
    [|split; [reflexivity|left; exists m; by left]].
  apply bind_inv in Hb as [(r2 & s1 & H1 & Hb)|(e & H1 & ->)];
    apply tcl_call_inv in H1 as (t2 & -> & [(? & [= <-] & E2)|(m & [= ?] & E2)]); subst;
    [|split; [reflexivity|left; exists m; by left]].
  apply bind_inv in Hb as [(r3 & s1 & H1 & Hb)|(e & H1 & ->)];
    apply tcl_call_inv in H1 as (t3 & -> & [(? & [= <-] & E3)|(m & [= ?] & E3)]); subst;
    [|split; [reflexivity|left; exists m; by left]].
  cbn [interp set_interp] in E1, E2, E3. cbn [app] in E2.
  assert (Hprep : prepared kw parent (interp s) fnt frame t1) by (exists t0; eauto).
  apply bind_inv in Hb as [(u & s1 & H1 & Hb)|(e & H1 & ->)].
  - assert (S4 : set_up_step
                   (set_interp t3 (set_interp t2 (set_interp t1 (set_interp t0 s)))) s1 (Ret u)).
    { destruct (overflow kw); [by apply set_overflow_step in H1|].
      injection H1 as <- <-. split; auto. }
    destruct S4 as [B4 S4]. simpl in B4.
    unfold TextBox.alloc in Hb. injection Hb as <- <-. rewrite B4.
    split; [reflexivity|]. eexists _, fnt, frame, t1, _, r2, t2.
    split; [reflexivity|]. split; [reflexivity|]. split; [reflexivity|].
    split; [exact Hprep|]. split; [reflexivity|]. split; [exact E2|].
    intros L. pose proof L as (Lpeer & Lframe & Lfont & Lscript & _). simpl.
    assert (Hb0 : forall q, buffer_of t0 q = buffer_of (interp s) q).
    { intros q. destruct (font kw); [by destruct Hfont as [_ ->]|by eapply Lfont]. }
    destruct (Lpeer _ _ _ _ _ _ E2) as [Lnew Lold].
    rewrite !S4 by assumption. simpl.
    rewrite !(Lscript _ _ _ _ _ E3).
    rewrite Lnew, (Lframe _ _ _ _ (tcl_path parent) E1), Hb0. split; [reflexivity|].
    rewrite (Lold _ (not_eq_sym (peer_path_fresh frame parent))).
    by rewrite (Lframe _ _ _ _ (tcl_path parent) E1), Hb0.
  - assert (S4 : set_up_step
                   (set_interp t3 (set_interp t2 (set_interp t1 (set_interp t0 s)))) s'
                   (@Raise unit e)).
    { destruct (overflow kw); [by apply set_overflow_step in H1|discriminate]. }
    destruct S4 as [B4 S4]. split; [exact B4|by left].
Qed.
End PeerFacts.

Section PeerReturns.
Context `{Env tk}.
Hypothesis Haccept : tk_accepts_creation.

Lemma bind_step {A B} (m : M tk A) (k : A -> M tk B) (s s1 : world tk) (a : A) :
  m s = (Ret a, s1) -> bind m k s = k a s1.
Proof. unfold bind. by intros ->. Qed.

Lemma lift_tcl_returns (f : tk -> tcl_result * tk) (s : world tk) :
  (forall t, exists r t', f t = (TclOk r, t')) ->
  exists r s', TextBox.lift_tcl f s = (Ret r, s') /\ boxes s' = boxes s.
Proof.
  intros Hf. destruct (Hf (interp s)) as (r & t' & E).
  unfold TextBox.lift_tcl. rewrite E. eauto.
Qed.

Lemma make_scroll_returns (frame o : string) (m : option bool) (s : world tk) :
  exists s', TextBox.make_scroll frame o m s = (Ret tt, s') /\ boxes s' = boxes s.
Proof.
  destruct Haccept as (_ & _ & _ & _ & Hs). destruct m as [hide|]; simpl; [|eauto].
  destruct (lift_tcl_returns (fun t => scrollbar_create t frame o hide) s)
    as (r & s' & E & B); [intros t; apply Hs|].
  unfold bind. rewrite E. eauto.
Qed.

Lemma init_returns (tables : constants) (r : nat) (parent : TextBox) (s : world tk) :
  tables_have_defaults tables ->
  boxes s !! r = Some parent ->
  exists n s', TextBox.__init__ tables r default_kwargs s = (Ret n, s').
Proof.
  intros ([cur Hcur] & [ina Hina] & [wr Hwr]) Hr.
  destruct Haccept as (Hfont & Hf & Hp & Hg & _).
  unfold TextBox.__init__. cbn [font padding cursor_style inactive_cursor_style wrap
                                 default_kwargs].
  destruct (lift_tcl_returns (fun t => Font_new t "monospace") s)
    as (fnt & s0 & E0 & B0); [intros t; apply Hfont|].
  erewrite bind_step by exact E0.
  erewrite bind_step by reflexivity.
  rewrite Hcur, Hina, Hwr.
  erewrite bind_step by reflexivity.
  erewrite bind_step by reflexivity.
  erewrite bind_step by reflexivity.
  erewrite bind_step by (unfold TextBox.deref; rewrite B0, Hr; reflexivity).
  destruct (lift_tcl_returns (fun t => frame_create t (frame_parent parent)) s0)
    as (frame & s1 & E1 & B1); [intros t; apply Hf|].
  erewrite bind_step by exact E1.
  cbn [app TextBox.padding_words options default_kwargs].
  match goal with |- context [_tcl_call (?p :: "peer" :: "create" :: ?path :: ?o)] =>
    destruct (lift_tcl_returns (fun t => tcl_eval t (p :: "peer" :: "create" :: path :: o)) s1)
      as (r2 & s2 & E2 & B2); [intros t; apply Hp|]
  end.
  erewrite bind_step by exact E2.
  match goal with |- context [_tcl_call [?script]] =>
    destruct (lift_tcl_returns (fun t => tcl_eval t [script]) s2)
      as (r3 & s3 & E3 & B3); [intros t; apply Hg|]
  end.
  erewrite bind_step by exact E3.
  destruct (make_scroll_returns frame "horizontal" (Some true) s3) as (s4 & E4 & B4).
  destruct (make_scroll_returns frame "vertical" (Some true) s4) as (s5 & E5 & B5).
  assert (E45 : match overflow default_kwargs with
                | Some o => TextBox.set_overflow frame o
                | None => ret tt
                end s3 = (Ret tt, s5)).
  { simpl. unfold TextBox.set_overflow. simpl.
    erewrite bind_step by exact E4. exact E5. }
  rewrite (bind_step _ _ _ _ _ E45). unfold TextBox.alloc. eauto.
Qed.
End PeerReturns.

(** C10.  [Peer] on a box that is itself a peer raises and leaves the whole
    state as it was.  On any other box the peer count goes up by exactly
    one; what is returned is a new box whose [peer_of] is the box and whose
    widget, under a path that is not the path of the box, was made by
    sending [peer create] with that path to the widget of the box, after
    the font and the frame, so that it shows the same storage.  The call
    fails only where the constructor does (Tk refusing a command, an
    argument it rejects, or a key that is in none of the tables), and then
    no box is added.  No box ever becomes the peer of a peer, and with the
    default arguments, tables that have the default keys and a Tk that
    carries out the set-up, the call returns. *)
Theorem Peer_nesting `{Env tk} (tables : constants) (self : nat) (me : TextBox)
    (kw : kwargs) (s : world tk) :
  boxes s !! self = Some me ->
  let me' := TextBox.set_peer_count (peer_count me + 1) me in
  (is_Some (peer_of me) ->
     TextBox.Peer tables self kw s
     = (Raise (RuntimeError "can't create a peer of a peer"), s)) /\
  (peer_of me = None ->
     exists out s',
       TextBox.Peer tables self kw s = (out, s') /\
       boxes s' !! self = Some me' /\
       match out with
       | Ret n =>
           n = length (boxes s) /\
           exists new fnt frame t1 opts res t2,
             boxes s' = <[self := me']> (boxes s) ++ [new] /\
             peer_of new = Some self /\ peer_count new = 0 /\
             prepared kw me (interp s) fnt frame t1 /\
             tcl_path new = peer_path frame me' /\
             tcl_path new <> tcl_path me /\
             tcl_eval t1 (tcl_path me :: "peer" :: "create" :: tcl_path new :: opts)
             = (TclOk res, t2) /\
             (peers_share_storage ->
              buffer_of (interp s') (tcl_path new) = buffer_of (interp s) (tcl_path me) /\
              buffer_of (interp s') (tcl_path me) = buffer_of (interp s) (tcl_path me))
       | Raise e => boxes s' = <[self := me']> (boxes s) /\ init_failure e
       end /\
       (depth_ok (boxes s) -> depth_ok (boxes s'))) /\
  (peer_of me = None -> tk_accepts_creation -> tables_have_defaults tables ->
     exists n s', TextBox.Peer tables self default_kwargs s = (Ret n, s')).
Proof.
  intros Hself me'.
  assert (Hlt : (self < length (boxes s))%nat) by (eapply lookup_lt_Some; eauto).
  set (s1 := set_boxes (<[self := me']> (boxes s)) s).
  assert (Hself1 : boxes s1 !! self = Some me') by (simpl; by apply list_lookup_insert_eq).
  assert (Hstart : forall kw', peer_of me = None ->
            TextBox.Peer tables self kw' s = TextBox.__init__ tables self kw' s1).
  { intros kw' Hnone. unfold TextBox.Peer, bind, TextBox.deref. rewrite Hself, Hnone.
    unfold TextBox.assign. by rewrite Hself. }
  split; [|split].
  - intros [q Hq]. unfold TextBox.Peer, bind, TextBox.deref. by rewrite Hself, Hq.
  - intros Hnone. rewrite (Hstart kw Hnone).
    destruct (TextBox.__init__ tables self kw s1) as [out s'] eqn:E.
    exists out, s'. split; [reflexivity|].
    pose proof (init_peer tables self me' kw s1 s' out Hself1 E) as Hinit.
    assert (Hkeep : forall r b, (<[self := me']> (boxes s)) !! r = Some b ->
                      exists b0, boxes s !! r = Some b0 /\ peer_of b0 = peer_of b).
    { intros r b Hb. destruct (decide (r = self)) as [->|Hne].
      - rewrite list_lookup_insert_eq in Hb by assumption. injection Hb as <-. eauto.
      - rewrite list_lookup_insert_ne in Hb by auto. eauto. }
    assert (Hupd : depth_ok (boxes s) -> depth_ok (<[self := me']> (boxes s))).
    { intros Hd r q b Hb Hq. destruct (Hkeep r b Hb) as (b0 & Hb0 & Hp).
      rewrite <- Hp in Hq. destruct (Hd r q b0 Hb0 Hq) as (b' & Hb' & Hn).
      destruct (decide (q = self)) as [->|Hne].
      - exists me'. split; [by apply list_lookup_insert_eq|]. simpl. congruence.
      - exists b'. split; [by rewrite list_lookup_insert_ne|assumption]. }
    destruct out as [n|e].
    + destruct Hinit as (-> & new & fnt & frame & t1 & opts & res & t2 &
                         Hb & Hp & Hc & Hprep & Hpath & Hsent & Hs).
      simpl in Hb.
      split; [rewrite Hb; by apply lookup_app_l_Some|].
      split.
      * split; [simpl; by rewrite length_insert|].
        exists new, fnt, frame, t1, opts, res, t2.
        split; [exact Hb|]. split; [exact Hp|]. split; [exact Hc|].
        split; [exact Hprep|]. split; [exact Hpath|].
        split; [rewrite Hpath; exact (peer_path_fresh frame me')|].
        split; [exact Hsent|exact Hs].
      * intros Hd. rewrite Hb. intros r q b Hr Hq.
        apply lookup_app_Some in Hr as [Hr|[Hlen Hr]].
        -- destruct (Hupd Hd r q b Hr Hq) as (b' & Hb' & Hn).
           exists b'. split; [by apply lookup_app_l_Some|assumption].
        -- destruct (r - length (<[self:=me']> (boxes s)))%nat; [|done].
           injection Hr as <-. rewrite Hp in Hq. injection Hq as <-.
           exists me'. split; [apply lookup_app_l_Some; by apply list_lookup_insert_eq|].
           simpl. assumption.
    + destruct Hinit as [Hb Hrefused]. simpl in Hb.
      split; [rewrite Hb; by apply list_lookup_insert_eq|].
      split; [by split|]. intros Hd. rewrite Hb. by apply Hupd.
  - intros Hnone Hacc Htab. rewrite (Hstart _ Hnone). eapply init_returns; eauto.
Qed.

Lemma scripted_assoc_filter {A} (q path : string) (l : list (string * A)) :
  Scripted.assoc q (filter (fun e => e.1 ≠ path) l)
  = if String.eqb q path then None else Scripted.assoc q l.
Proof.
  induction l as [|[k v] l IH]; simpl.
  - by destruct (String.eqb q path).
  - rewrite filter_cons. simpl. destruct (decide (k ≠ path)) as [Hne|Heq]; simpl.
    + rewrite IH. destruct (String.eqb_spec q k) as [->|]; [|done].
      apply String.eqb_neq in Hne. by rewrite Hne.
    + apply dec_stable in Heq as ->. rewrite IH.
      by destruct (String.eqb q path).
Qed.

Lemma scripted_peers_share_storage : peers_share_storage (tk := Scripted.tk).
Proof.
  unfold peers_share_storage.
  repeat match goal with |- _ /\ _ => split end.
  - intros t p path opts r t'. simpl. intros [= _ <-]. simpl.
    destruct (Scripted.assoc p (Scripted.widgets t)) as [b|] eqn:E; simpl.
    + rewrite String.eqb_refl. split; [reflexivity|].
      intros q Hq. apply String.eqb_neq in Hq. by rewrite Hq.
    + rewrite scripted_assoc_filter, String.eqb_refl. split; [reflexivity|].
      intros q Hq. rewrite scripted_assoc_filter.
      apply String.eqb_neq in Hq. by rewrite Hq.
  - intros t parent r t' q [= _ <-]. reflexivity.
  - intros t family r t' q [= _ <-]. reflexivity.
  - intros t script r t' q [= _ <-]. reflexivity.
  - intros t f o h r t' q [= _ <-]. reflexivity.
Qed.

Lemma scripted_accepts_creation : tk_accepts_creation (tk := Scripted.tk).
Proof.
  unfold tk_accepts_creation.
  repeat match goal with |- _ /\ _ => split end; intros; simpl; eauto.
Qed.

Lemma scripted_tables_have_defaults : tables_have_defaults Scripted.tables.
Proof. repeat split; eexists; reflexivity. Qed.

Lemma Peer_nesting_witness :
  exists s',
    TextBox.Peer Scripted.tables 0 default_kwargs (Scripted.world_of Scripted.abcd)
    = (Ret 1%nat, s') /\
    peer_count <$> boxes s' !! 0%nat = Some 1 /\
    peer_of <$> boxes s' !! 1%nat = Some (Some 0%nat) /\
    tcl_path <$> boxes s' !! 1%nat = Some ".frame1.textbox_peer_1_of_textbox" /\
    buffer_of (interp s') ".frame1.textbox_peer_1_of_textbox"
    = buffer_of (interp s') ".frame0.textbox" /\
    (exists n s'', TextBox.Peer Scripted.tables 0 default_kwargs
                     (Scripted.world_of Scripted.abcd) = (Ret n, s'')).
Proof.
  destruct (Peer_nesting Scripted.tables 0 Scripted.the_box default_kwargs
              (Scripted.world_of Scripted.abcd) eq_refl) as (_ & Hnon & Hret).
  destruct (Hnon eq_refl) as (out & s' & E & Hcount & Hout & _).
  vm_compute in E. injection E as <- <-.
  eexists. split; [vm_compute; reflexivity|].
  split; [reflexivity|]. split; [reflexivity|]. split; [reflexivity|].
  split; [reflexivity|].
  exact (Hret eq_refl scripted_accepts_creation scripted_tables_have_defaults).
Defined.

(** ** Ranges *)

Lemma clamp_to_fixed (e p : TextIndex) : in_range e p -> clamp_to e (pos p) = p.
Proof.
  intros [Hlo Hhi]. unfold clamp_to, index_le in *. simpl in Hlo.
  assert (E1 : lex_ltb (pos p) (1, 0) = false)
    by (apply not_true_iff_false; rewrite lex_ltb_spec; simpl; lia).
  assert (E2 : lex_ltb (pos e) (pos p) = false)
    by (apply not_true_iff_false; rewrite lex_ltb_spec; simpl; lia).
  rewrite E1, E2. by destruct p.
Qed.

Lemma clamp_to_monotone (e : TextIndex) (p q : Z * Z) :
  index_le (mkIndex 1 0) e ->
  index_le (mkIndex p.1 p.2) (mkIndex q.1 q.2) ->
  index_le (clamp_to e p) (clamp_to e q).
Proof.
  intros He Hpq. unfold clamp_to, index_le, pos in *.
  destruct p as [pl pc], q as [ql qc], e as [el ec]; simpl in *.
  destruct (lex_ltb (pl, pc) (1, 0)) eqn:E1;
    destruct (lex_ltb (ql, qc) (1, 0)) eqn:E2;
    destruct (lex_ltb (el, ec) (pl, pc)) eqn:E3;
    destruct (lex_ltb (el, ec) (ql, qc)) eqn:E4;
    repeat match goal with
           | E : lex_ltb _ _ = true |- _ => apply lex_ltb_spec in E
           | E : lex_ltb _ _ = false |- _ =>
               apply not_true_iff_false in E; rewrite lex_ltb_spec in E
           end;
    simpl in *; lia.
Qed.

Section RangeFacts.
Context `{Env tk}.
Variable w : string.
Hypothesis Hquery : index_is_query w.

Lemma resolve_tuple_value (x : endpoint) (e : TextIndex) (s : world tk) :
  TextIndex.end_ w s = (Ret e, s) ->
  endpoint_ok x ->
  TextRange.resolve_tuple w x s
  = (Ret match x with
         | ETuple [l; c] => Some (clamp_to e (l, c))
         | _ => None
         end, s).
Proof.
  intros He Hx. destruct x as [|[|l [|c [|? ?]]]]; try discriminate Hx; [reflexivity|].
  unfold TextRange.resolve_tuple, bind. simpl fmap.
  by rewrite (new_checked w Hquery _ _ _ He).
Qed.

Lemma range_new_value (a b : endpoint) (e : TextIndex) (s : world tk) (args : range_args) :
  TextIndex.end_ w s = (Ret e, s) ->
  endpoint_ok a -> endpoint_ok b ->
  args = ArgsSlice a b \/ args = ArgsSeq [a; b] ->
  TextRange.__new__ w args s
  = (Ret (mkRange (stored_end e (mkIndex 1 0) a) (stored_end e e b)), s).
Proof.
  intros He Ha Hb Hargs. unfold TextRange.__new__.
  assert (E : forall k : endpoint * endpoint -> M tk TextRange,
            (let* ends := match args with
                          | ArgsSlice a b => ret (a, b)
                          | ArgsSeq [] => raise IndexError
                          | ArgsSeq [a; b] => ret (a, b)
                          | ArgsSeq _ => raise (ValueError "wrong number of values to unpack")
                          end in k ends) s = k (a, b) s).
  { intros k. by destruct Hargs as [->| ->]. }
  rewrite E. clear E. simpl fst. simpl snd.
  unfold bind at 1. rewrite (resolve_tuple_value a e s He Ha).
  unfold bind at 1. rewrite (resolve_tuple_value b e s He Hb).
  destruct a as [|[|l1 [|c1 [|? ?]]]]; try discriminate Ha;
    destruct b as [|[|l2 [|c2 [|? ?]]]]; try discriminate Hb;
    unfold bind, ret; simpl; rewrite ?start_value, ?He; reflexivity.
Qed.
End RangeFacts.

(** C4, as the code has it.  A range built from an accepted shape stores its
    two ends in the order given, each clamped into the buffer and an omitted
    bound replaced by [start] or [end]; no reordering takes place.  The
    first end is at or before the second whenever they were given in that
    order; for ends that lie in the buffer, exactly when they were given in
    that order; two ends beyond the end of the buffer are both stored as
    the end, whatever their order.  Membership is the conjunction of
    [start <= p] and [p < end] as the index comparisons answer them. *)
Theorem range_keeps_given_order `{Env tk} (w : string) (s : world tk) (e : TextIndex)
    (a b : endpoint) :
  index_is_query w ->
  compare_answers w ->
  TextIndex.end_ w s = (Ret e, s) ->
  index_le (mkIndex 1 0) e ->
  endpoint_ok a -> endpoint_ok b ->
  let r := mkRange (stored_end e (mkIndex 1 0) a) (stored_end e e b) in
  TextRange.__new__ w (ArgsSlice a b) s = (Ret r, s) /\
  TextRange.__new__ w (ArgsSeq [a; b]) s = (Ret r, s) /\
  in_range e (range_start r) /\ in_range e (range_end r) /\
  (given_in_order a b -> index_le (range_start r) (range_end r)) /\
  (endpoint_inside e a -> endpoint_inside e b ->
   (index_le (range_start r) (range_end r) <-> given_in_order a b)) /\
  (forall l1 c1 l2 c2,
      a = ETuple [l1; c1] -> b = ETuple [l2; c2] ->
      index_lt e (mkIndex l1 c1) -> index_lt e (mkIndex l2 c2) ->
      range_start r = e /\ range_end r = e) /\
  (forall r' p, exists b1 b2,
      TextIndex.__le__ w (range_start r') p s = (Ret b1, s) /\
      TextIndex.__lt__ w p (range_end r') s = (Ret b2, s) /\
      TextRange.__contains__ w r' p s = (Ret (b1 && b2), s)).
Proof.
  intros Hq Hc He Hle Ha Hb r.
  assert (Hstart : in_range e (mkIndex 1 0)) by (unfold in_range, index_le in *; simpl in *; lia).
  assert (Hend : in_range e e) by (unfold in_range, index_le in *; lia).
  assert (Hra : in_range e (range_start r)).
  { subst r. simpl. destruct a as [|[|l [|c [|? ?]]]]; simpl; auto using clamp_to_in_range. }
  assert (Hrb : in_range e (range_end r)).
  { subst r. simpl. destruct b as [|[|l [|c [|? ?]]]]; simpl; auto using clamp_to_in_range. }
  split; [apply (range_new_value w Hq a b); auto|].
  split; [apply (range_new_value w Hq a b); auto|].
  split; [assumption|]. split; [assumption|].
  assert (Hforward : given_in_order a b -> index_le (range_start r) (range_end r)).
  { intros Hord. subst r. simpl in *.
    destruct a as [|[|l1 [|c1 [|? ?]]]]; try discriminate Ha;
      destruct b as [|[|l2 [|c2 [|? ?]]]]; try discriminate Hb; simpl in *;
      try apply Hra; try apply Hrb; try apply Hle.
    by apply clamp_to_monotone. }
  split; [exact Hforward|]. split; [|split].
  - intros Hia Hib. split; [|exact Hforward].
    subst r. cbn [range_start range_end].
    destruct a as [|[|l1 [|c1 [|? ?]]]]; try discriminate Ha;
      destruct b as [|[|l2 [|c2 [|? ?]]]]; try discriminate Hb;
      cbn [given_in_order stored_end endpoint_inside] in *; try done.
    change (clamp_to e (l1, c1)) with (clamp_to e (pos (mkIndex l1 c1))).
    change (clamp_to e (l2, c2)) with (clamp_to e (pos (mkIndex l2 c2))).
    by rewrite (clamp_to_fixed e (mkIndex l1 c1) Hia), (clamp_to_fixed e (mkIndex l2 c2) Hib).
  - intros l1 c1 l2 c2 -> -> H1 H2. subst r. cbn [range_start range_end stored_end].
    assert (Hpast : forall l c, index_lt e (mkIndex l c) -> clamp_to e (l, c) = e).
    { intros l c Hlt. unfold clamp_to, index_lt, index_le in *. cbn [line column] in *.
      assert (E1 : lex_ltb (l, c) (1, 0) = false)
        by (apply not_true_iff_false; rewrite lex_ltb_spec; cbn [fst snd]; lia).
      assert (E2 : lex_ltb (pos e) (l, c) = true)
        by (rewrite lex_ltb_spec; unfold pos; cbn [fst snd]; lia).
      by rewrite E1, E2. }
    by rewrite (Hpast l1 c1 H1), (Hpast l2 c2 H2).
  - intros r' p. unfold TextRange.__contains__, TextIndex.__le__, TextIndex.__lt__.
    destruct (compare_value w Hc (range_start r') p "<=" s) as [b1 E1].
    destruct (compare_value w Hc p (range_end r') "<" s) as [b2 E2].
    exists b1, b2. split; [assumption|]. split; [assumption|].
    unfold bind. rewrite E1. destruct b1; [exact E2|reflexivity].
Qed.

Lemma scripted_three_lines_end (w : string) :
  TextIndex.end_ w (Scripted.world_of Scripted.three_lines)
  = (Ret (mkIndex 3 0), Scripted.world_of Scripted.three_lines).
Proof. reflexivity. Qed.

Lemma range_keeps_given_order_witness :
  TextRange.__new__ ".frame0.textbox" (ArgsSlice ENone (ETuple [2; 5]))
    (Scripted.world_of Scripted.three_lines)
  = (Ret (mkRange (mkIndex 1 0) (mkIndex 2 5)), Scripted.world_of Scripted.three_lines) /\
  TextRange.__new__ ".frame0.textbox" (ArgsSeq [ETuple [9; 0]; ETuple [7; 0]])
    (Scripted.world_of Scripted.abcd)
  = (Ret (mkRange (mkIndex 1 4) (mkIndex 1 4)), Scripted.world_of Scripted.abcd).
Proof.
  destruct (range_keeps_given_order ".frame0.textbox"
              (Scripted.world_of Scripted.three_lines) (mkIndex 3 0)
              ENone (ETuple [2; 5])
              (scripted_index_is_query _) (scripted_compare_answers _)
              (scripted_three_lines_end _)
              ltac:(unfold index_le; simpl; lia) I eq_refl) as (Hslice & _).
  split; [exact Hslice|].
  destruct (range_keeps_given_order ".frame0.textbox"
              (Scripted.world_of Scripted.abcd) (mkIndex 1 4)
              (ETuple [9; 0]) (ETuple [7; 0])
              (scripted_index_is_query _) (scripted_compare_answers _)
              eq_refl ltac:(unfold index_le; simpl; lia) eq_refl eq_refl)
    as (_ & Hseq & _ & _ & _ & _ & Hpast & _).
  destruct (Hpast 9 0 7 0 eq_refl eq_refl
              ltac:(unfold index_lt; simpl; lia) ltac:(unfold index_lt; simpl; lia))
    as [Hs He].
  rewrite Hseq. cbn [range_start range_end] in Hs, He. by rewrite Hs, He.
Defined.

(** C4, as stated, fails: the ends [(2, 0)] and [(1, 0)] of a three-line
    buffer are stored as given, the start after the end. *)
Lemma range_start_after_end :
  exists r,
    TextRange.__new__ ".frame0.textbox" (ArgsSeq [ETuple [2; 0]; ETuple [1; 0]])
      (Scripted.world_of Scripted.three_lines)
    = (Ret r, Scripted.world_of Scripted.three_lines) /\
    ~ index_le (range_start r) (range_end r) /\
    TextIndex.__le__ ".frame0.textbox" (range_start r) (range_end r)
      (Scripted.world_of Scripted.three_lines)
    = (Ret false, Scripted.world_of Scripted.three_lines).
Proof.
  exists (mkRange (mkIndex 2 0) (mkIndex 1 0)).
  split; [vm_compute; reflexivity|]. split; [|vm_compute; reflexivity].
  unfold index_le. simpl. lia.
Qed.

(** ** Search *)




(** ** Content reconstruction *)

Section ContentFacts.
Context `{Env tk}.
Variable w : string.

Lemma add_items_app (a b : list (string * string * string)) (st : content_state)
    (s : world tk) :
  TextBox.add_items w (a ++ b) st s
  = (let* st' := TextBox.add_items w a st in TextBox.add_items w b st') s.
Proof.
  revert st s. induction a as [|[[ty v] i] a IH]; intros st s; [reflexivity|].
  simpl. unfold bind in *.
  destruct (TextBox.add_item w ty v i st s) as [[st1|x] s1]; [|reflexivity].
  apply IH.
Qed.

Lemma same_but_refl (t : string) (st : content_state) : same_but t st st.
Proof. by split. Qed.

(** One event that does not close [t] keeps two states related. *)
Lemma add_item_related (t ty v i : string) (st1 st2 : content_state) (s : world tk) :
  same_but t st1 st2 ->
  ~ closes t (ty, v, i) ->
  related t (TextBox.add_item w ty v i st1 s) (TextBox.add_item w ty v i st2 s).
Proof.
  destruct st1 as [r1 u1], st2 as [r2 u2]. intros [Hr Hu] Hclose.
  simpl in Hr, Hu. subst r2. unfold TextBox.add_item. cbn [result unclosed_tags].
  assert (Happend : forall u u' : gmap string (string * nat),
    (forall k, k <> t -> u !! k = u' !! k) ->
    related t
      ((let* conv := TextBox.convert ty in
        let* i0 := TextIndex.__new__ w [AStr i] false in
        let* v0 := conv v in
        ret (mkContentState (r1 ++ [OIndex i0; v0]) u)) s)
      ((let* conv := TextBox.convert ty in
        let* i0 := TextIndex.__new__ w [AStr i] false in
        let* v0 := conv v in
        ret (mkContentState (r1 ++ [OIndex i0; v0]) u')) s)).
  { intros u u' Huu. unfold bind.
    destruct (TextBox.convert ty s) as [[conv|x] s1]; [|by split].
    destruct (TextIndex.__new__ w [AStr i] false s1) as [[i0|x] s2]; [|by split].
    destruct (conv v s2) as [[v0|x] s3]; by split. }
  destruct (String.eqb ty "tagon") eqn:Eon.
  - split; [reflexivity|]. split; [reflexivity|]. simpl. intros k Hk.
    destruct (decide (v = k)) as [->|Hne].
    + by rewrite !lookup_insert_eq.
    + rewrite !lookup_insert_ne by done. by apply Hu.
  - destruct (String.eqb ty "tagoff") eqn:Eoff; [|by apply Happend].
    assert (Hv : v <> t).
    { intros ->. apply Hclose. split; [|reflexivity]. simpl. by apply String.eqb_eq. }
    rewrite (Hu v Hv). destruct (u2 !! v) as [[opened at_]|]; [|by apply Happend].
    unfold bind.
    destruct (TextIndex.__new__ w [AStr opened] false s) as [[a|x] s1]; [|by split].
    destruct (TextIndex.__new__ w [AStr i] false s1) as [[b|x] s2]; [|by split].
    destruct (TextRange.__new__ w _ s2) as [[r|x] s3]; [|by split].
    destruct (TextBox.Tag_from_tcl v s3) as [[tg|x] s4]; by split.
Qed.

Lemma add_items_related (t : string) (post : list (string * string * string))
    (st1 st2 : content_state) (s : world tk) :
  same_but t st1 st2 ->
  Forall (fun ev => ~ closes t ev) post ->
  related t (TextBox.add_items w post st1 s) (TextBox.add_items w post st2 s).
Proof.
  intros Hsame Hpost. revert st1 st2 s Hsame.
  induction Hpost as [|[[ty v] i] post Hev Hpost IH]; intros st1 st2 s Hsame.
  - by split.
  - simpl. unfold bind.
    pose proof (add_item_related t ty v i st1 st2 s Hsame Hev) as [Hs Ho].
    destruct (TextBox.add_item w ty v i st1 s) as [[a|x] s1],
             (TextBox.add_item w ty v i st2 s) as [[b|y] s2];
      simpl in Hs, Ho; subst; try done.
    by apply IH.
Qed.
End ContentFacts.

(** C6.  A tag-open event that no later event closes leaves no trace: the
    reconstruction of the stream is the reconstruction of the stream without
    it, results, errors and state alike. *)
Theorem unclosed_tag_is_dropped `{Env tk} (w : string)
    (pre post : list (string * string * string)) (t i : string) (s : world tk) :
  Forall (fun ev => ~ closes t ev) post ->
  TextBox.content_of w (pre ++ ("tagon", t, i) :: post) s
  = TextBox.content_of w (pre ++ post) s.
Proof.
  intros Hpost. unfold TextBox.content_of. unfold bind at 1 2.
  rewrite !add_items_app. unfold bind at 1 2.
  destruct (TextBox.add_items w pre _ s) as [[st|x] s1]; [|reflexivity].
  change (TextBox.add_items w (("tagon", t, i) :: post) st s1)
    with (TextBox.add_items w post
            (mkContentState (result st)
               (<[t := (i, length (result st))]> (unclosed_tags st))) s1).
  match goal with |- context [TextBox.add_items w post ?st' s1] =>
    assert (Hsame : same_but t st' st)
      by (split; [reflexivity|]; intros u Hu; simpl; by rewrite lookup_insert_ne);
    pose proof (add_items_related w t post st' st s1 Hsame Hpost) as [Hs Ho];
    destruct (TextBox.add_items w post st' s1) as [[a|x] s2]
  end;
  destruct (TextBox.add_items w post st s1) as [[b|y] s3];
    simpl in Hs, Ho; subst; try done.
  destruct Ho as [-> _]. reflexivity.
Qed.

Lemma unclosed_tag_is_dropped_witness :
  TextBox.content_of ".frame0.textbox"
    ([("text", "ab", "1.0")] ++ ("tagon", "t", "1.2") :: [("text", "cd", "1.2")])
    (Scripted.world_of Scripted.abcd)
  = (Ret [OIndex (mkIndex 1 0); OStr "ab"; OIndex (mkIndex 1 2); OStr "cd"],
     Scripted.world_of Scripted.abcd).
Proof.
  rewrite (unclosed_tag_is_dropped ".frame0.textbox" [("text", "ab", "1.0")]
             [("text", "cd", "1.2")] "t" "1.2" (Scripted.world_of Scripted.abcd)).
  - vm_compute. reflexivity.
  - repeat constructor. intros [Hty _]. discriminate Hty.
Defined.

(** C1 on the code.  A text, mark, image or window event extends the list by
    two elements, the index and the value, not by one pair: on the example
    stream the result has five elements, the span of the tag inserted at
    the length recorded at its opening, and is not the promised list of
    three pairs. *)
Theorem content_example_is_flat :
  TextBox.content_of ".frame0.textbox" example_stream (Scripted.world_of Scripted.abcd)
  = (Ret example_flat, Scripted.world_of Scripted.abcd) /\
  example_flat <> example_pairs /\
  length example_flat = 5%nat.
Proof.
  split; [vm_compute; reflexivity|]. split; [discriminate|reflexivity].
Qed.

(** * Further properties of the module *)

(** ** The text form of an index *)

Lemma parse_index_to_tcl {tk} (i : TextIndex) (s : world tk) :
  TextIndex.parse_index (TextIndex.to_tcl i) s = (Ret (line i, column i), s).
Proof.
  unfold TextIndex.parse_index, TextIndex.to_tcl.
  rewrite split_dot_join by apply no_dot_py_str.
  by rewrite !py_int_py_str.
Qed.

(** X1.  The text of an index, [line.column] in decimal, is split and read
    back by the constructor as the same pair of integers, whatever their
    sign and size; so two indices with the same text are the same index. *)
Theorem index_text_round_trip {tk} (i : TextIndex) (s : world tk) :
  TextIndex.parse_index (TextIndex.to_tcl i) s = (Ret (line i, column i), s) /\
  forall j, TextIndex.to_tcl i = TextIndex.to_tcl j -> i = j.
Proof.
  split; [apply parse_index_to_tcl|].
  intros j Heq. pose proof (parse_index_to_tcl i s) as Hi.
  rewrite Heq, parse_index_to_tcl in Hi. injection Hi as Hl Hc.
  destruct i, j; simpl in *; congruence.
Qed.

Lemma index_text_round_trip_witness :
  TextIndex.parse_index "3.14" (Scripted.world_of Scripted.abcd)
  = (Ret (3, 14), Scripted.world_of Scripted.abcd) /\
  mkIndex 3 14 = mkIndex 3 14.
Proof.
  destruct (index_text_round_trip (mkIndex 3 14) (Scripted.world_of Scripted.abcd))
    as [Hparse Hinj].
  split; [exact Hparse|]. apply Hinj. reflexivity.
Defined.

(** X2.  When Tk resolves an index expression to a position of the buffer
    and prints it, the constructor returns exactly that position. *)
Theorem from_tcl_returns_resolved `{Env tk} (w x : string) (p e : TextIndex)
    (s : world tk) :
  tcl_eval (interp s) [w; "index"; x] = (TclOk (TextIndex.to_tcl p), interp s) ->
  TextIndex.end_ w s = (Ret e, s) ->
  in_range e p ->
  TextIndex.from_tcl w x s = (Ret p, s).
Proof.
  intros Hx He Hp.
  unfold TextIndex.from_tcl, TextIndex.__new__.
  assert (Hl : TextIndex.locals w [AStr x] s = (Ret (Some (line p, column p)), s)).
  { pose proof (parse_index_to_tcl p s) as Hr.
    unfold TextIndex.locals, bind at 1, bind at 1, _tcl_call. simpl TextIndex.arg_to_tcl.
    rewrite Hx, set_interp_same. unfold ret at 1. cbn [fst snd].
    destruct (TextIndex.to_tcl p) as [|c r]; [discriminate Hr|].
    unfold bind. by rewrite Hr. }
  unfold bind at 1. rewrite Hl. unfold TextIndex.bound, bind at 1, ret at 1.
  unfold bind at 1. rewrite start_value.
  destruct Hp as [Hlo Hhi]. unfold index_le in Hlo, Hhi. simpl in Hlo.
  assert (E1 : lex_ltb (line p, column p) (pos (mkIndex 1 0)) = false).
  { apply not_true_iff_false. rewrite lex_ltb_spec. simpl. lia. }
  rewrite E1. unfold bind. rewrite He.
  assert (E2 : lex_ltb (pos e) (line p, column p) = false).
  { apply not_true_iff_false. rewrite lex_ltb_spec. simpl. lia. }
  rewrite E2. by destruct p.
Qed.

Lemma from_tcl_returns_resolved_witness :
  TextIndex.from_tcl ".frame0.textbox" "1.2 + 1 chars" (Scripted.world_of Scripted.abcd)
  = (Ret (mkIndex 1 3), Scripted.world_of Scripted.abcd).
Proof.
  apply (from_tcl_returns_resolved ".frame0.textbox" "1.2 + 1 chars" (mkIndex 1 3)
           (mkIndex 1 4)); [reflexivity|reflexivity|].
  unfold in_range, index_le. simpl. lia.
Defined.

(** ** Positions and ranges, continued *)

(** X3.  Positions that the constructor returned go into a range as they
    are: it indexes both ends again, and that changes neither. *)
Theorem range_of_positions `{Env tk} (w : string) (s s1 s2 : world tk)
    (e pa pb : TextIndex) (a b : list arg) :
  index_is_query w ->
  TextIndex.end_ w s = (Ret e, s) ->
  index_le (mkIndex 1 0) e ->
  TextIndex.__new__ w a false s = (Ret pa, s1) ->
  TextIndex.__new__ w b false s = (Ret pb, s2) ->
  TextRange.__new__ w (ArgsSeq [as_tuple pa; as_tuple pb]) s = (Ret (mkRange pa pb), s) /\
  TextRange.__new__ w (ArgsSlice (as_tuple pa) (as_tuple pb)) s = (Ret (mkRange pa pb), s).
Proof.
  intros Hq He Hle Ha Hb.
  destruct (new_checked_in_range w Hq _ _ _ _ _ He Hle Ha) as [_ Hpa].
  destruct (new_checked_in_range w Hq _ _ _ _ _ He Hle Hb) as [_ Hpb].
  split; rewrite (range_new_value w Hq (as_tuple pa) (as_tuple pb) e s) by (auto; done);
    unfold as_tuple, stored_end;
    change (line pa, column pa) with (pos pa); change (line pb, column pb) with (pos pb);
    by rewrite !clamp_to_fixed.
Qed.

Lemma range_of_positions_witness :
  TextRange.__new__ ".frame0.textbox"
    (ArgsSeq [as_tuple (mkIndex 1 4); as_tuple (mkIndex 1 3)])
    (Scripted.world_of Scripted.abcd)
  = (Ret (mkRange (mkIndex 1 4) (mkIndex 1 3)), Scripted.world_of Scripted.abcd).
Proof.
  refine (proj1 (range_of_positions ".frame0.textbox" (Scripted.world_of Scripted.abcd)
            _ _ (mkIndex 1 4) (mkIndex 1 4) (mkIndex 1 3) [AInt 7; AInt 3]
            [AStr "1.2 + 1 chars"] (scripted_index_is_query _) _ _ _ _));
    [vm_compute; reflexivity|unfold index_le; simpl; lia
    |vm_compute; reflexivity|vm_compute; reflexivity].
Defined.

Section ClampFacts.
Context `{Env tk}.
Variable w : string.

Lemma clamp_inside (q e : TextIndex) (s : world tk) :
  TextIndex.end_ w s = (Ret e, s) ->
  TextIndex.__lt__ w q (mkIndex 1 0) s = (Ret false, s) ->
  TextIndex.__gt__ w q e s = (Ret false, s) ->
  TextIndex.clamp w q s = (Ret q, s).
Proof.
  intros He Hlt Hgt. unfold TextIndex.clamp.
  unfold bind at 1. rewrite start_value. unfold bind at 1. rewrite Hlt.
  unfold bind at 1. rewrite He. unfold bind. by rewrite Hgt.
Qed.
End ClampFacts.

(** X4.  [clamp] is idempotent: what it returns is returned unchanged when
    clamped again, as long as Tk's comparison behaves at the two ends. *)
Theorem clamp_idempotent `{Env tk} (w : string) (s s' : world tk) (e i q : TextIndex) :
  compare_answers w ->
  TextIndex.end_ w s = (Ret e, s) ->
  compare_sane w s e ->
  TextIndex.clamp w i s = (Ret q, s') ->
  s' = s /\ TextIndex.clamp w q s = (Ret q, s).
Proof.
  intros Hc He (H1 & H2 & H3 & H4) Hi.
  destruct (clamp_cases w Hc i e s He) as (q' & E & _ & Hw).
  rewrite E in Hi. injection Hi as -> <-. split; [reflexivity|].
  destruct Hw as [->|[->|[Hlt Hgt]]]; by apply (clamp_inside w _ e).
Qed.

Lemma scripted_compare_sane (w : string) :
  compare_sane w (Scripted.world_of Scripted.abcd) (mkIndex 1 4).
Proof. repeat split. Qed.

Lemma clamp_idempotent_witness :
  TextIndex.clamp ".frame0.textbox" (mkIndex 1 4) (Scripted.world_of Scripted.abcd)
  = (Ret (mkIndex 1 4), Scripted.world_of Scripted.abcd).
Proof.
  refine (proj2 (clamp_idempotent ".frame0.textbox" (Scripted.world_of Scripted.abcd) _
                   (mkIndex 1 4) (mkIndex 2 0) (mkIndex 1 4)
                   (scripted_compare_answers _) _ (scripted_compare_sane _) _));
    vm_compute; reflexivity.
Defined.

(** ** History, continued *)

Section HistoryCompose.
Context `{Env tk}.
Variable w : string.

Lemma steps_then_repeat (cmd : string) (k j : nat) (s s1 : world tk) :
  steps w cmd k s s1 ->
  TextHistory.repeat_subcommand w (k + j) cmd s
  = TextHistory.repeat_subcommand w j cmd s1.
Proof.
  induction 1 as [s|k s s1 s2 b Hcall Hsteps IH]; [reflexivity|].
  simpl. unfold bind. by rewrite Hcall.
Qed.
End HistoryCompose.

(** X5.  Steps compose: when the first [m] steps of an [undo] or [redo] go
    through, asking for [m + n] steps is asking for [n] steps after them;
    and a count of zero or less does nothing at all, sending no command
    and reporting no warning. *)
Theorem undo_steps_compose `{Env tk} (w : string) (m n : Z) (s s1 : world tk) :
  0 <= m -> 0 <= n ->
  (steps w "undo" (Z.to_nat m) s s1 ->
     TextHistory.undo w (m + n) s = TextHistory.undo w n s1 /\
     TextHistory.undo w m s = (Ret tt, s1)) /\
  (steps w "redo" (Z.to_nat m) s s1 ->
     TextHistory.redo w (m + n) s = TextHistory.redo w n s1 /\
     TextHistory.redo w m s = (Ret tt, s1)) /\
  (forall number, number <= 0 ->
     TextHistory.undo w number s = (Ret tt, s) /\
     TextHistory.redo w number s = (Ret tt, s)).
Proof.
  intros Hm Hn.
  assert (Hgen : forall cmd, steps w cmd (Z.to_nat m) s s1 ->
            try_TclError (TextHistory.repeat_subcommand w (Z.to_nat (m + n)) cmd) s
            = try_TclError (TextHistory.repeat_subcommand w (Z.to_nat n) cmd) s1 /\
            try_TclError (TextHistory.repeat_subcommand w (Z.to_nat m) cmd) s = (Ret tt, s1)).
  { intros cmd Hsteps. unfold try_TclError. rewrite Z2Nat.inj_add by assumption.
    rewrite (steps_then_repeat w cmd _ (Z.to_nat n) s s1 Hsteps).
    pose proof (steps_then_repeat w cmd _ 0%nat s s1 Hsteps) as E.
    rewrite Nat.add_0_r in E. rewrite E. done. }
  split; [apply Hgen|]. split; [apply Hgen|].
  intros number Hle. unfold TextHistory.undo, TextHistory.redo.
  replace (Z.to_nat number) with 0%nat by lia. done.
Qed.

Lemma undo_steps_compose_witness :
  let w := ".frame0.textbox" in
  let s := Scripted.world_of Scripted.abcd in
  let s1 := (TextHistory.call_subcommand w ["undo"] s).2 in
  TextHistory.undo w (1 + 1) s = TextHistory.undo w 1 s1 /\
  Scripted.undo_stack (interp s1) = ["insert cd"].
Proof.
  intros w s s1.
  destruct (undo_steps_compose w 1 1 s s1 ltac:(lia) ltac:(lia)) as (Hundo & _).
  split; [|reflexivity]. apply Hundo.
  apply (steps_more w "undo" 0 s s1 s1 false); [vm_compute; reflexivity|constructor].
Defined.

(** X6.  Only [undo] and [redo] swallow an error of Tk: when Tk refuses the
    subcommand, [clear], [add_sep], [can_undo] and [can_redo] raise it as
    [TclError], while [undo] and [redo] return. *)
Theorem history_errors_surface `{Env tk} (w : string) (s : world tk)
    (r msg cmd : string) (t1 t2 : tk) :
  tcl_eval (interp s) [w; "cget"; "-undo"] = (TclOk r, t1) ->
  from_tcl_bool r = true ->
  tcl_eval t1 [w; "edit"; cmd] = (TclFail msg, t2) ->
  TextHistory.call_subcommand w [cmd] s = (Raise (TclError msg), set_interp t2 s) /\
  (cmd = "reset" -> TextHistory.clear w s = (Raise (TclError msg), set_interp t2 s)) /\
  (cmd = "separator" -> TextHistory.add_sep w s = (Raise (TclError msg), set_interp t2 s)) /\
  (cmd = "canundo" -> TextHistory.can_undo w s = (Raise (TclError msg), set_interp t2 s)) /\
  (cmd = "canredo" -> TextHistory.can_redo w s = (Raise (TclError msg), set_interp t2 s)) /\
  (cmd = "undo" -> TextHistory.undo w 1 s = (Ret tt, set_interp t2 s)) /\
  (cmd = "redo" -> TextHistory.redo w 1 s = (Ret tt, set_interp t2 s)).
Proof.
  intros Hcget Hon Hedit.
  assert (E : TextHistory.call_subcommand w [cmd] s = (Raise (TclError msg), set_interp t2 s)).
  { unfold TextHistory.call_subcommand, TextHistory.track_history, bind, _tcl_call.
    rewrite Hcget. unfold ret at 1. rewrite Hon. simpl. by rewrite Hedit. }
  split; [exact E|].
  repeat match goal with |- _ /\ _ => split end; intros ->;
    unfold TextHistory.clear, TextHistory.add_sep, TextHistory.can_undo,
      TextHistory.can_redo, TextHistory.undo, TextHistory.redo, try_TclError;
    simpl; unfold bind; rewrite ?E; reflexivity.
Qed.

Lemma history_errors_surface_witness :
  TextHistory.clear ".frame0.textbox" (Scripted.world_of Scripted.abcd)
  = (Raise (TclError "bad edit option"), Scripted.world_of Scripted.abcd).
Proof.
  destruct (@history_errors_surface Scripted.tk Scripted.env
              ".frame0.textbox" (Scripted.world_of Scripted.abcd)
              "1" "bad edit option" "reset" Scripted.abcd Scripted.abcd
              ltac:(vm_compute; reflexivity) ltac:(vm_compute; reflexivity)
              ltac:(vm_compute; reflexivity)) as (_ & Hclear & _).
  exact (Hclear eq_refl).
Defined.

(** ** Reading and editing the buffer *)

Section KeepsFacts.
Context `{Env tk}.
Variable w : string.
Hypothesis Hquery : index_is_query w.
Hypothesis Hcompare : compare_answers w.

Lemma keeps_new (index : list arg) (no_check : bool) (s : world tk) :
  keeps (TextIndex.__new__ w index no_check) s.
Proof.
  unfold TextIndex.__new__, TextIndex.start, TextIndex.end_, TextIndex.new_unchecked,
    TextIndex.bound.
  repeat first
    [ apply keeps_ret | apply keeps_raise | apply (keeps_locals w Hquery)
    | apply keeps_bind; [|intros ?] | case_match ].
Qed.

Lemma keeps_compare (i j : TextIndex) (op : string) (s : world tk) :
  keeps (TextIndex._compare w i j op) s.
Proof.
  intros o s'. destruct (compare_value w Hcompare i j op s) as [b ->].
  by intros [= _ <-].
Qed.

Lemma keeps_start (s : world tk) : keeps (TextIndex.start w) s.
Proof. exact (keeps_new [AInt 0] true s). Qed.

Lemma keeps_end (s : world tk) : keeps (TextIndex.end_ w) s.
Proof. exact (keeps_new [AInt (-1)] true s). Qed.

Lemma keeps_clamp (i : TextIndex) (s : world tk) : keeps (TextIndex.clamp w i) s.
Proof.
  unfold TextIndex.clamp, TextIndex.__lt__, TextIndex.__gt__.
  repeat first
    [ apply keeps_ret | apply keeps_compare | apply keeps_start | apply keeps_end
    | apply keeps_bind; [|intros ?] | case_match ].
Qed.

Lemma keeps_forward (i : TextIndex) (chars indices lines : Z) (s : world tk) :
  keeps (TextIndex.forward w i chars indices lines) s.
Proof.
  unfold TextIndex.forward, TextIndex._move, TextIndex.from_tcl.
  apply keeps_bind; [apply keeps_new|intros ?; apply keeps_clamp].
Qed.

Lemma keeps_range_new (args : range_args) (s : world tk) :
  keeps (TextRange.__new__ w args) s.
Proof.
  unfold TextRange.__new__, TextRange.resolve_tuple.
  repeat first
    [ apply keeps_ret | apply keeps_raise | apply keeps_new
    | apply keeps_start | apply keeps_end
    | apply keeps_bind; [|intros ?] | case_match ].
Qed.

Lemma keeps_index_range (indexes : targets) (s : world tk) :
  keeps (TextBox._get_tcl_index_range w indexes) s.
Proof.
  unfold TextBox._get_tcl_index_range.
  repeat first
    [ apply keeps_ret | apply keeps_raise | apply keeps_new | apply keeps_forward
    | apply keeps_range_new
    | apply keeps_bind; [|intros ?] | case_match ].
Qed.

(** A command on a range is sent once, from the state it was called in, or
    not at all. *)
Lemma call_on_range_cases (cmd : list string) (indexes : targets) (s s' : world tk)
    (o : outcome string) :
  TextBox.call_on_range w cmd indexes s = (o, s') ->
  (exists a b,
      TextBox._get_tcl_index_range w indexes s = (Ret (Some (a, b)), s) /\
      _tcl_call (w :: cmd ++ [a; b]) s = (o, s')) \/
  (s' = s /\ exists x, o = Raise x).
Proof.
  unfold TextBox.call_on_range. intros Hb.
  apply bind_inv in Hb as [(r & s1 & H1 & H2)|(x & H1 & ->)].
  - pose proof (keeps_index_range _ _ _ _ H1) as ->.
    destruct r as [[a b]|]; [left; eauto|].
    injection H2 as <- <-. right; eauto.
  - pose proof (keeps_index_range _ _ _ _ H1) as ->. right; eauto.
Qed.
End KeepsFacts.

(** X7.  [delete] and [get] do all or nothing: either the one command
    reaches Tk, with the two ends computed beforehand and the state as it
    was at the call, or the call raises and nothing has changed.  No
    argument, or three and more, address the whole buffer; one index
    addresses the unit from it to a position inside the buffer; one value of
    another kind is a [TypeError]. *)
Theorem delete_get_all_or_nothing `{Env tk} (w : string) (s : world tk) (e : TextIndex) :
  index_is_query w ->
  compare_answers w ->
  TextIndex.end_ w s = (Ret e, s) ->
  index_le (mkIndex 1 0) e ->
  (forall indexes o s',
      TextBox.delete w indexes s = (o, s') ->
      (exists a b,
          TextBox._get_tcl_index_range w indexes s = (Ret (Some (a, b)), s) /\
          (let* _ := _tcl_call [w; "delete"; a; b] in ret tt) s = (o, s')) \/
      (s' = s /\ exists x, o = Raise x)) /\
  (forall indexes o s',
      TextBox.get w indexes s = (o, s') ->
      (exists a b,
          TextBox._get_tcl_index_range w indexes s = (Ret (Some (a, b)), s) /\
          _tcl_call [w; "get"; a; b] s = (o, s')) \/
      (s' = s /\ exists x, o = Raise x)) /\
  TextBox._get_tcl_index_range w Several s = (Ret (Some ("1.0", "end - 1 chars")), s) /\
  (forall i a b s',
      TextBox._get_tcl_index_range w (One (TIndex i)) s = (Ret (Some (a, b)), s') ->
      a = TextIndex.to_tcl i /\ exists j, b = TextIndex.to_tcl j /\ in_range e j) /\
  TextBox.delete w (One TOther) s = (Raise TypeError, s) /\
  TextBox.get w (One TOther) s = (Raise TypeError, s).
Proof.
  intros Hq Hc He Hle.
  split.
  { intros indexes o s'. unfold TextBox.delete. intros Hb.
    apply bind_inv in Hb as [(r & s1 & H1 & H2)|(x & H1 & ->)].
    - injection H2 as <- <-.
      apply (call_on_range_cases w Hq Hc) in H1 as [(a & b & Hr & Hcall)|[-> [x [=]]]].
      left. exists a, b. split; [exact Hr|]. unfold bind. simpl in Hcall. by rewrite Hcall.
    - apply (call_on_range_cases w Hq Hc) in H1 as [(a & b & Hr & Hcall)|[-> _]].
      + left. exists a, b. split; [exact Hr|]. unfold bind. simpl in Hcall. by rewrite Hcall.
      + right. eauto. }
  split.
  { intros indexes o s' Hb. by apply (call_on_range_cases w Hq Hc) in Hb. }
  split; [reflexivity|]. split; [|split; reflexivity].
  intros i a b s'. unfold TextBox._get_tcl_index_range. intros Hb.
  apply bind_inv in Hb as [(j & s1 & H1 & H2)|(x & H1 & [=])].
  injection H2 as <- <- _. split; [reflexivity|]. exists j. split; [reflexivity|].
  unfold TextIndex.forward, TextIndex._move in H1.
  by destruct (moved_in_range w Hq Hc _ _ _ _ _ He Hle H1).
Qed.

Lemma recorder_index_is_query (w : string) : index_is_query (tk := Recorder.tk) w.
Proof.
  intros t e. simpl.
  destruct (Recorder.answer [w; "index"; e] (Recorder.canned t)); reflexivity.
Qed.

Lemma recorder_compare_answers (w : string) : compare_answers (tk := Recorder.tk) w.
Proof.
  intros t i j op. simpl. unfold Scripted.compare.
  destruct (Scripted.parse (TextIndex.to_tcl i)), (Scripted.parse (TextIndex.to_tcl j));
    eexists; reflexivity.
Qed.

Lemma recorder_abcd_end :
  TextIndex.end_ ".t" (Recorder.world_of Recorder.abcd)
  = (Ret (mkIndex 1 4), Recorder.world_of Recorder.abcd).
Proof. vm_compute. reflexivity. Qed.

Lemma delete_get_all_or_nothing_witness :
  let s := Recorder.world_of Recorder.abcd in
  TextBox.delete ".t" (One TOther) s = (Raise TypeError, s) /\
  exists j,
    TextBox._get_tcl_index_range ".t" (One (TIndex (mkIndex 1 2))) s
    = (Ret (Some ("1.2", TextIndex.to_tcl j)), s) /\
    in_range (mkIndex 1 4) j.
Proof.
  intros s.
  destruct (delete_get_all_or_nothing ".t" s (mkIndex 1 4)
              (recorder_index_is_query _) (recorder_compare_answers _)
              recorder_abcd_end ltac:(unfold index_le; simpl; lia))
    as (_ & _ & _ & Hone & Hother & _).
  split; [exact Hother|].
  assert (E : TextBox._get_tcl_index_range ".t" (One (TIndex (mkIndex 1 2))) s
              = (Ret (Some ("1.2", "1.3")), s)) by (vm_compute; reflexivity).
  destruct (Hone _ _ _ _ E) as (_ & j & Hj & Hin).
  exists j. split; [|exact Hin]. rewrite <- Hj. exact E.
Defined.

(** X8.  [replace] takes a range and a text (more arguments are ignored)
    or exactly two indexes and a text; for anything else it raises, before
    anything is sent and with the state untouched: [IndexError] for no
    argument or a lone range, [ValueError] otherwise.  An end given as
    [None] is rejected like any other value, never replaced by the start or
    the end of the buffer. *)
Theorem replace_accepts_two_shapes `{Env tk} (w : string) (tcl_of_None : list string)
    (args : list replace_arg) (tag : option Tag) (s : world tk) :
  let tag_words := match tag with Some t => [tag_name t] | None => tcl_of_None end in
  let send a b text :=
    (let* _ := _tcl_call ([w; "replace"; TextIndex.to_tcl a; TextIndex.to_tcl b; text]
                          ++ tag_words) in ret tt) s in
  (forall r text rest, args = RRange r :: RStr text :: rest ->
     TextBox.replace w tcl_of_None args tag s = send (range_start r) (range_end r) text) /\
  (forall a b text, args = [RIndex a; RIndex b; RStr text] ->
     TextBox.replace w tcl_of_None args tag s = send a b text) /\
  ((forall r text rest, args <> RRange r :: RStr text :: rest) ->
   (forall a b text, args <> [RIndex a; RIndex b; RStr text]) ->
   exists x, TextBox.replace w tcl_of_None args tag s = (Raise x, s) /\
     ((args = [] \/ exists r, args = [RRange r]) /\ x = IndexError \/
      (2 <= length args \/ exists a, args = [a] /\ forall r, a <> RRange r)%nat /\
      x = ValueError "invalid arguments. See help(TextBox.replace).")) /\
  (forall b text, TextBox.replace w tcl_of_None [ROther; RIndex b; RStr text] tag s
     = (Raise (ValueError "invalid arguments. See help(TextBox.replace)."), s)).
Proof.
  intros tag_words send.
  split; [intros r text rest ->; reflexivity|].
  split; [intros a b text ->; reflexivity|].
  split; [|reflexivity].
  intros Hno1 Hno2.
  destruct args as [|a0 rest]; [eexists; split; [reflexivity|left; split; auto]|].
  assert (Hval : forall P : Prop, P ->
            (2 <= length (a0 :: rest) \/ exists a, a0 :: rest = [a] /\ forall r, a <> RRange r)%nat ->
            TextBox.replace w tcl_of_None (a0 :: rest) tag s
            = (Raise (ValueError "invalid arguments. See help(TextBox.replace)."), s) ->
            exists x, TextBox.replace w tcl_of_None (a0 :: rest) tag s = (Raise x, s) /\
              ((a0 :: rest = [] \/ exists r, a0 :: rest = [RRange r]) /\ x = IndexError \/
               (2 <= length (a0 :: rest) \/
                exists a, a0 :: rest = [a] /\ forall r, a <> RRange r)%nat /\
               x = ValueError "invalid arguments. See help(TextBox.replace).")).
  { intros P _ Hlen E. eexists. split; [exact E|]. right. by split. }
  destruct a0 as [r|a|t|].
  - destruct rest as [|a1 rest]; [eexists; split; [reflexivity|left; split; eauto]|].
    destruct a1 as [r1|i1|t1|]; [| |exfalso; by eapply Hno1|];
      (apply (Hval True I); [left; simpl; lia|]);
      destruct rest as [|[| | |] [|? ?]]; reflexivity.
  - destruct rest as [|[r1|b|t1|] [|[r2|c|text|] [|? ?]]];
      try (exfalso; by eapply Hno2);
      (apply (Hval True I); [first [left; simpl; lia|right; eexists; split; [reflexivity|discriminate]]|]);
      reflexivity.
  - apply (Hval True I).
    + destruct rest; [right; eexists; split; [reflexivity|discriminate]|left; simpl; lia].
    + destruct rest as [|[| | |] [|[| | |] [|? ?]]]; reflexivity.
  - apply (Hval True I).
    + destruct rest; [right; eexists; split; [reflexivity|discriminate]|left; simpl; lia].
    + destruct rest as [|[| | |] [|[| | |] [|? ?]]]; reflexivity.
Qed.

Lemma replace_accepts_two_shapes_witness :
  let s := Recorder.world_of Recorder.abcd in
  Recorder.sent (interp
    (TextBox.replace ".t" [] [RRange (mkRange (mkIndex 1 0) (mkIndex 1 2)); RStr "xy"]
       (Some (mkTag "t")) s).2)
  = [[".t"; "replace"; "1.0"; "1.2"; "xy"; "t"]] /\
  exists x, TextBox.replace ".t" [] [RStr "xy"] None s = (Raise x, s).
Proof.
  intros s.
  destruct (replace_accepts_two_shapes ".t" []
              [RRange (mkRange (mkIndex 1 0) (mkIndex 1 2)); RStr "xy"]
              (Some (mkTag "t")) s) as (Hrange & _).
  split; [rewrite (Hrange _ _ _ eq_refl); vm_compute; reflexivity|].
  destruct (replace_accepts_two_shapes ".t" [] [RStr "xy"] None s) as (_ & _ & Hbad & _).
  destruct Hbad as (x & Hx & _); [discriminate|discriminate|]. by exists x.
Defined.

Section InsertFacts.
Context `{Env tk}.
Variable py_to_tcl_arguments : list (string * kwval) -> list string.
Variable open_read : string -> outcome string.

Lemma spread_margin_cases (margin : kwval) (msg : string) (s s' : world tk)
    (o : outcome (kwval * kwval)) :
  TextBox.spread_margin margin msg s = (o, s') ->
  s' = s /\ forall x, o = Raise x -> x = TypeError \/ x = ValueError msg.
Proof.
  unfold TextBox.spread_margin.
  repeat case_match; intros [= <- <-]; (split; [reflexivity|]);
    intros x [= <-]; auto.
Qed.

Lemma insert_command_cases (index : string) (content : content_arg)
    (kwargs : gmap string kwval) (s s' : world tk)
    (o : outcome (list string * gmap string kwval)) :
  TextBox.insert_command py_to_tcl_arguments open_read index content kwargs s = (o, s') ->
  s' = s /\
  forall x, o = Raise x ->
    x = TypeError \/ (exists msg, x = ValueError msg) \/
    (exists path, content = CPath path /\ open_read path = Raise x).
Proof.
  unfold TextBox.insert_command, TextBox.pop. destruct content as [name|path|path|text].
  - intros Hb. apply bind_inv in Hb as [(pad & s1 & H1 & H2)|(x & H1 & ->)].
    + injection H2 as <- <-. split; [|discriminate].
      destruct (truthy _); [by apply spread_margin_cases in H1 as [-> _]|by injection H1].
    + destruct (truthy _); [|discriminate].
      apply spread_margin_cases in H1 as [-> Hx]. split; [reflexivity|].
      intros x' [= <-]. destruct (Hx x eq_refl); eauto.
  - intros Hb. apply bind_inv in Hb as [(pad & s1 & H1 & H2)|(x & H1 & ->)].
    + injection H2 as <- <-. split; [|discriminate].
      destruct (default KNone (kwargs !! "margin"));
        first [by injection H1 | by apply spread_margin_cases in H1 as [-> _]].
    + destruct (default KNone (kwargs !! "margin")); try discriminate;
        apply spread_margin_cases in H1 as [-> Hx]; (split; [reflexivity|]);
        intros x' [= <-]; destruct (Hx x eq_refl); eauto.
  - unfold bind. destruct (open_read path) as [text|x] eqn:E; intros [= <- <-].
    + split; [reflexivity|discriminate].
    + split; [reflexivity|]. intros x' [= <-]. right; right. eauto.
  - intros [= <- <-]. split; [reflexivity|discriminate].
Qed.
End InsertFacts.

(** X9.  [insert] checks before it acts: a [margin] of a length other than
    one or two, a file that cannot be read and a keyword it does not know
    make it raise ([ValueError], what reading the file raised, [TypeError])
    with nothing sent and the state untouched; otherwise exactly one
    command reaches Tk.  The file is read before the keywords are looked
    at.  Plain text takes no keyword at all, and an image with a margin of
    three entries is refused. *)
Theorem insert_validates_first `{Env tk} (w : string)
    (py_to_tcl_arguments : list (string * kwval) -> list string)
    (open_read : string -> outcome string)
    (index : string) (content : content_arg) (kwargs : gmap string kwval)
    (s : world tk) :
  (forall o s',
      TextBox.insert w py_to_tcl_arguments open_read index content kwargs s = (o, s') ->
      (exists words,
          TextBox.insert_command py_to_tcl_arguments open_read index content kwargs s
          = (Ret (words, ∅), s) /\
          (let* _ := _tcl_call (w :: words) in ret tt) s = (o, s')) \/
      (s' = s /\
       (o = Raise TypeError \/ (exists msg, o = Raise (ValueError msg)) \/
        exists path x, content = CPath path /\ open_read path = Raise x /\ o = Raise x))) /\
  (forall path x, open_read path = Raise x ->
      TextBox.insert w py_to_tcl_arguments open_read index (CPath path) kwargs s
      = (Raise x, s)) /\
  (forall path text, open_read path = Ret text ->
      TextBox.insert w py_to_tcl_arguments open_read index (CPath path) ∅ s
      = (let* _ := _tcl_call [w; "insert"; index; text] in ret tt) s) /\
  (forall text, kwargs <> ∅ ->
      TextBox.insert w py_to_tcl_arguments open_read index (CText text) kwargs s
      = (Raise TypeError, s)) /\
  (forall text,
      TextBox.insert w py_to_tcl_arguments open_read index (CText text) ∅ s
      = (let* _ := _tcl_call [w; "insert"; index; text] in ret tt) s) /\
  (forall name a b c rest, kwargs !! "margin" = Some (KSeq (a :: b :: c :: rest)) ->
      TextBox.insert w py_to_tcl_arguments open_read index (CImage name) kwargs s
      = (Raise (ValueError
           "unfortunately 4 side margins aren't supported for embedded images"), s) /\
      TextBox.insert w py_to_tcl_arguments open_read index (CWidget name) kwargs s
      = (Raise (ValueError
           "unfortunately 4 side margins aren't supported for embedded widgets"), s)).
Proof.
  split; [|split; [|split; [|split; [|split]]]].
  - intros o s'. unfold TextBox.insert. intros Hb.
    apply bind_inv in Hb as [(to_call & s1 & H1 & H2)|(x & H1 & ->)].
    + pose proof (insert_command_cases _ _ _ _ _ _ _ _ H1) as [-> _].
      destruct to_call as [words left_over]. simpl in H2.
      destruct (bool_decide (left_over = ∅)) eqn:E.
      * apply bool_decide_eq_true in E as ->. left. eauto.
      * injection H2 as <- <-. right. auto.
    + pose proof (insert_command_cases _ _ _ _ _ _ _ _ H1) as [-> Hx].
      right. split; [reflexivity|].
      destruct (Hx x eq_refl) as [->|[[msg ->]|(path & -> & E)]]; eauto 8.
  - intros path x E. unfold TextBox.insert, TextBox.insert_command, bind. by rewrite E.
  - intros path text E. unfold TextBox.insert, TextBox.insert_command.
    unfold bind at 1 2. by rewrite E.
  - intros text Hne. unfold TextBox.insert, TextBox.insert_command, bind, ret. simpl.
    by rewrite bool_decide_eq_false_2.
  - intros text. reflexivity.
  - intros name a b c rest Hm.
    unfold TextBox.insert, TextBox.insert_command, TextBox.pop. rewrite Hm. simpl.
    split; reflexivity.
Qed.

Lemma insert_validates_first_witness :
  let s := Recorder.world_of Recorder.abcd in
  let no_file := fun _ : string => @Raise string (OSError "No such file or directory") in
  TextBox.insert ".t" (fun _ => []) no_file "1.2" (CText "xy") {[ "align" := KStr "top" ]} s
  = (Raise TypeError, s) /\
  Recorder.sent (interp (TextBox.insert ".t" (fun _ => []) no_file "1.2" (CText "xy") ∅ s).2)
  = [[".t"; "insert"; "1.2"; "xy"]] /\
  TextBox.insert ".t" (fun _ => []) no_file "1.2" (CImage "img")
    {[ "margin" := KSeq [1; 2; 3] ]} s
  = (Raise (ValueError
       "unfortunately 4 side margins aren't supported for embedded images"), s) /\
  TextBox.insert ".t" (fun _ => []) no_file "1.2" (CPath "/missing") ∅ s
  = (Raise (OSError "No such file or directory"), s).
Proof.
  intros s no_file.
  destruct (insert_validates_first ".t" (fun _ => []) no_file "1.2" (CText "xy")
              {[ "align" := KStr "top" ]} s) as (_ & _ & _ & Htext & _).
  split; [apply Htext; by apply insert_non_empty|].
  destruct (insert_validates_first ".t" (fun _ => []) no_file "1.2" (CText "xy") ∅ s)
    as (_ & Hfile & _ & _ & Hsend & _).
  split; [rewrite Hsend; vm_compute; reflexivity|].
  destruct (insert_validates_first ".t" (fun _ => []) no_file "1.2" (CImage "img")
              {[ "margin" := KSeq [1; 2; 3] ]} s) as (_ & _ & _ & _ & _ & Hmargin).
  split; [exact (proj1 (Hmargin "img" 1 2 3 [] ltac:(apply lookup_singleton_eq)))|].
  exact (Hfile "/missing" _ eq_refl).
Defined.

(** X10.  Subscripting the box with a slice reads the text between the two
    clamped ends, an omitted bound standing for the start or the end of the
    buffer; a subscript that is neither slice nor tuple (a range and an
    index are tuples) is a [TypeError], with not a word to Tk. *)
Theorem getitem_reads_clamped_slice `{Env tk} (w : string) (s : world tk)
    (e : TextIndex) (a b : endpoint) :
  index_is_query w ->
  TextIndex.end_ w s = (Ret e, s) ->
  endpoint_ok a -> endpoint_ok b ->
  TextBox.__getitem__ w (SubSlice a b) s
  = _tcl_call [w; "get";
               TextIndex.to_tcl (stored_end e (mkIndex 1 0) a);
               TextIndex.to_tcl (stored_end e e b)] s /\
  TextBox.__getitem__ w SubOther s = (Raise TypeError, s).
Proof.
  intros Hq He Ha Hb. split; [|reflexivity].
  unfold TextBox.__getitem__. unfold bind at 1.
  rewrite (range_new_value w Hq a b e s (ArgsSlice a b)) by auto.
  reflexivity.
Qed.

Lemma getitem_reads_clamped_slice_witness :
  TextBox.__getitem__ ".t" (SubSlice ENone (ETuple [1; 9])) (Recorder.world_of Recorder.abcd)
  = (Ret "abcd", Recorder.world_of Recorder.abcd).
Proof.
  rewrite (proj1 (getitem_reads_clamped_slice ".t" (Recorder.world_of Recorder.abcd)
                    (mkIndex 1 4) ENone (ETuple [1; 9])
                    (recorder_index_is_query _) recorder_abcd_end I eq_refl)).
  vm_compute. reflexivity.
Defined.

(** X11.  A mark that [mark names] does not list is answered with [None]
    and never sent to Tk for resolution; a listed one is resolved, and the
    position returned lies in the buffer.  [in] agrees with the list. *)
Theorem mark_lookup_checks_names `{Env tk} (w : string) (tcl_list : string -> list string)
    (name r : string) (t : tk) (e : TextIndex) (s : world tk) :
  tcl_eval (interp s) [w; "mark"; "names"] = (TclOk r, t) ->
  TextMarks.__contains__ w tcl_list name s
    = (Ret (bool_decide (name ∈ tcl_list r)), set_interp t s) /\
  (name ∉ tcl_list r ->
     TextMarks.__getitem__ w tcl_list name s = (Ret None, set_interp t s)) /\
  (name ∈ tcl_list r ->
     index_is_query w ->
     TextIndex.end_ w (set_interp t s) = (Ret e, set_interp t s) ->
     index_le (mkIndex 1 0) e ->
     forall o s',
       TextMarks.__getitem__ w tcl_list name s = (o, s') ->
       s' = set_interp t s /\
       o = fst ((let* i := TextIndex.__new__ w [AStr name] false in ret (Some i))
                  (set_interp t s)) /\
       forall p, o = Ret (Some p) -> in_range e p).
Proof.
  intros Hnames.
  assert (Hget : TextMarks.__get_names w tcl_list s = (Ret (tcl_list r), set_interp t s)).
  { unfold TextMarks.__get_names, bind, _tcl_call. by rewrite Hnames. }
  split; [|split].
  - unfold TextMarks.__contains__, bind. by rewrite Hget.
  - intros Hnot. unfold TextMarks.__getitem__, bind. rewrite Hget.
    by rewrite bool_decide_eq_false_2.
  - intros Hin Hq He Hle o s'. unfold TextMarks.__getitem__. unfold bind at 1.
    rewrite Hget, bool_decide_eq_true_2 by assumption.
    unfold bind.
    destruct (TextIndex.__new__ w [AStr name] false (set_interp t s)) as [[p|x] s1] eqn:E.
    + destruct (new_checked_in_range w Hq _ _ _ _ _ He Hle E) as [-> Hp].
      intros [= <- <-]. split; [reflexivity|]. split; [reflexivity|].
      by intros p' [= <-].
    + pose proof (keeps_new w Hq _ _ _ _ _ E) as ->.
      intros [= <- <-]. split; [reflexivity|]. split; [reflexivity|]. discriminate.
Qed.

Lemma mark_lookup_checks_names_witness :
  let s := Recorder.world_of Recorder.abcd in
  TextMarks.__getitem__ ".t" Recorder.split_space "bookmark" s = (Ret None, s) /\
  TextBox.current ".t" Recorder.split_space s = (Ret (Some (mkIndex 1 2)), s).
Proof.
  intros s.
  destruct (@mark_lookup_checks_names Recorder.tk Recorder.env ".t"
              Recorder.split_space "bookmark"
              "insert current" Recorder.abcd (mkIndex 1 4) s
              ltac:(vm_compute; reflexivity)) as (_ & Hmissing & _).
  split; [apply Hmissing; refine (bool_decide_unpack _ _); vm_compute; exact I|].
  vm_compute. reflexivity.
Defined.

(** A command sent to Tk leaves the registries of tags and images as they
    were. *)
Lemma tcl_call_keeps_registries `{Env tk} (words : list string) (s s' : world tk)
    (o : outcome string) :
  _tcl_call words s = (o, s') ->
  text_tags s' = text_tags s /\ images s' = images s.
Proof.
  intros Hc. apply tcl_call_inv in Hc as (t & -> & _). by destruct s.
Qed.

(** X12.  A tag is registered before it is configured: whether
    [Tag.__init__] returns or raises (the copy of the font fails, [wrap] is
    not a key of [_wraps], Tk refuses the options), the registry has the
    new tag under its name afterwards and [Tag.from_tcl] finds it.  With a
    [wrap] that [_wraps] does not have the constructor always raises. *)
Theorem tag_registered_before_configured `{Env tk} (w : string)
    (_wraps : option string -> option (list string)) (font_copy : M tk string)
    (_name : option string) (count : Z) (font wrap : option string)
    (options : string -> list string) (s s' : world tk) (o : outcome Tag) :
  (forall s0 o0 s1, font_copy s0 = (o0, s1) -> text_tags s1 = text_tags s0) ->
  Tag.__init__ w _wraps font_copy _name count font wrap options s = (o, s') ->
  Tag.from_tcl (tag_name_for w _name count) s'
    = (Ret (mkTag (tag_name_for w _name count)), s') /\
  (forall self, o = Ret self -> self = mkTag (tag_name_for w _name count)) /\
  (_wraps wrap = None -> exists x, o = Raise x).
Proof.
  intros Hfont. unfold Tag.__init__. fold (tag_name_for w _name count).
  set (name := tag_name_for w _name count).
  unfold bind at 1. unfold Tag.register at 1. cbn [tag_name].
  set (s0 := set_text_tags _ s).
  assert (H0 : text_tags s0 !! name = Some (mkTag name)).
  { subst s0. destruct s. cbn. apply lookup_insert_eq. }
  assert (Hfound : forall s1 : world tk, text_tags s1 = text_tags s0 ->
            Tag.from_tcl name s1 = (Ret (mkTag name), s1)).
  { intros s1 E. unfold Tag.from_tcl, TextBox.Tag_from_tcl, TextBox.lookup_or_KeyError.
    by rewrite E, H0. }
  intros Hb.
  apply bind_inv in Hb as [(f & s1 & H1 & Hb)|(x & H1 & ->)].
  - assert (E1 : text_tags s1 = text_tags s0).
    { destruct font; [by injection H1 as _ <-|by apply Hfont in H1]. }
    apply bind_inv in Hb as [(ws & s2 & H2 & Hb)|(x & H2 & ->)].
    + assert (s2 = s1 /\ _wraps wrap = Some ws) as [-> Hw].
      { destruct (_wraps wrap); [by injection H2 as <- <-|discriminate H2]. }
      apply bind_inv in Hb as [(r & s3 & H3 & Hb)|(x & H3 & ->)].
      * injection Hb as <- <-.
        apply tcl_call_keeps_registries in H3 as [E3 _].
        split; [apply Hfound; congruence|]. split; [by intros self [= <-]|].
        intros Hn. rewrite Hn in Hw. discriminate.
      * apply tcl_call_keeps_registries in H3 as [E3 _].
        split; [apply Hfound; congruence|]. split; [discriminate|eauto].
    + assert (s' = s1) as ->.
      { destruct (_wraps wrap); [discriminate H2|by injection H2 as _ <-]. }
      split; [by apply Hfound|]. split; [discriminate|eauto].
  - assert (E1 : text_tags s' = text_tags s0).
    { destruct font; [discriminate H1|by apply Hfont in H1]. }
    split; [by apply Hfound|]. split; [discriminate|eauto].
Qed.

Lemma tag_registered_before_configured_witness :
  let s := Recorder.world_of Recorder.abcd in
  let m := Tag.__init__ ".t" (fun _ => None) (ret "TkDefaultFont") None 3 None
             (Some "sideways") (fun f => ["-font"; f]) in
  Tag.from_tcl ".t:tag_3" (m s).2 = (Ret (mkTag ".t:tag_3"), (m s).2) /\
  (m s).1 = Raise (KeyError "sideways").
Proof.
  intros s m. split; [|vm_compute; reflexivity].
  refine (proj1 (@tag_registered_before_configured Recorder.tk Recorder.env ".t"
                   (fun _ => None) (ret "TkDefaultFont") None 3 None
                   (Some "sideways") (fun f => ["-font"; f]) s (m s).2 (m s).1 _ _)).
  - intros s0 o0 s1 [= _ <-]. reflexivity.
  - subst m. vm_compute. reflexivity.
Defined.

(** X13.  Nothing unregisters a tag.  [Tag.delete] sends the one command
    [tag delete name] and leaves the registry alone, so that
    [Tag.from_tcl] still answers a tag that Tk no longer has; [Tag.add] and
    [Tag.remove] send [tag add] or [tag remove] with the name and the two
    ends, or raise with nothing changed, and leave the registry alone as
    well. *)
Theorem tag_stays_registered `{Env tk} (w : string) (self : Tag) (s : world tk) :
  index_is_query w ->
  compare_answers w ->
  (forall o s',
      Tag.delete w self s = (o, s') ->
      (_tcl_call [w; "tag"; "delete"; tag_name self] s).2 = s' /\
      text_tags s' = text_tags s /\
      forall n, Tag.from_tcl n s' = (fst (Tag.from_tcl n s), s')) /\
  (forall sub indexes o s',
      Tag.on_range w self sub indexes s = (o, s') ->
      text_tags s' = text_tags s /\
      ((exists a b,
          TextBox._get_tcl_index_range w indexes s = (Ret (Some (a, b)), s) /\
          (_tcl_call [w; "tag"; sub; tag_name self; a; b] s).2 = s') \/
       (s' = s /\ exists x, o = Raise x))) /\
  Tag.add w self = Tag.on_range w self "add" /\
  Tag.remove w self = Tag.on_range w self "remove".
Proof.
  intros Hq Hc. split; [|split; [|split; reflexivity]].
  - intros o s'. unfold Tag.delete, Tag._tcl_call. cbn [app].
    unfold bind.
    destruct (_tcl_call [w; "tag"; "delete"; tag_name self] s) as [o1 s1] eqn:E.
    intros Hb. assert (s' = s1) as -> by (destruct o1; by injection Hb as _ <-).
    split; [reflexivity|].
    apply tcl_call_keeps_registries in E as [E _]. split; [exact E|].
    intros n. unfold Tag.from_tcl, TextBox.Tag_from_tcl, TextBox.lookup_or_KeyError.
    rewrite E. by destruct (text_tags s !! n).
  - intros sub indexes o s'. unfold Tag.on_range. intros Hb.
    apply bind_inv in Hb as [(r & s1 & H1 & Hb)|(x & H1 & ->)].
    + pose proof (keeps_index_range w Hq Hc _ _ _ _ H1) as ->.
      destruct r as [[a b]|].
      * unfold Tag._tcl_call, bind in Hb.
        destruct (_tcl_call [w; "tag"; sub; tag_name self; a; b] s) as [o1 s1] eqn:E.
        assert (s' = s1) as -> by (destruct o1; by injection Hb as _ <-).
        split; [by apply tcl_call_keeps_registries in E as [E _]|].
        left. exists a, b. by rewrite E.
      * injection Hb as <- <-. split; [reflexivity|]. right. eauto.
    + pose proof (keeps_index_range w Hq Hc _ _ _ _ H1) as ->.
      split; [reflexivity|]. right. eauto.
Qed.

Lemma tag_stays_registered_witness :
  let s := (Tag.register (mkTag "t") (Recorder.world_of Recorder.abcd)).2 in
  let s' := (Tag.delete ".t" (mkTag "t") s).2 in
  Recorder.sent (interp s') = [[".t"; "tag"; "delete"; "t"]] /\
  Tag.from_tcl "t" s' = (Ret (mkTag "t"), s').
Proof.
  intros s s'. split; [vm_compute; reflexivity|].
  destruct (@tag_stays_registered Recorder.tk Recorder.env ".t" (mkTag "t") s
              (recorder_index_is_query _) (recorder_compare_answers _)) as (Hd & _).
  destruct (Hd _ s' (surjective_pairing _)) as (_ & _ & Hn).
  rewrite (Hn "t"). vm_compute. reflexivity.
Defined.

(** X14.  [prev_range] and [next_range] without an end build both defaults
    before one is picked: when the end of the buffer cannot be resolved
    both raise, [prev_range] too, which would use the start; otherwise
    [prev_range] searches down to [1.0] and [next_range] up to the end.  An
    empty answer of Tk is [None]. *)
Theorem range_search_defaults `{Env tk} (w : string) (tcl_list : string -> list string)
    (self : Tag) (start : TextIndex) (s : world tk) :
  index_is_query w ->
  (forall x, TextIndex.end_ w s = (Raise x, s) ->
     Tag.prev_range w tcl_list self start None s = (Raise x, s) /\
     Tag.next_range w tcl_list self start None s = (Raise x, s)) /\
  (forall e, TextIndex.end_ w s = (Ret e, s) ->
     Tag.prev_range w tcl_list self start None s
       = Tag.prev_range w tcl_list self start (Some (mkIndex 1 0)) s /\
     Tag.next_range w tcl_list self start None s
       = Tag.next_range w tcl_list self start (Some e) s) /\
  (forall direction stop r s1,
     _tcl_call [w; "tag"; direction +:+ "range"; tag_name self;
                TextIndex.to_tcl start; TextIndex.to_tcl stop] s = (Ret r, s1) ->
     tcl_list r = [] ->
     Tag._prev_next_range w tcl_list self direction start (Some stop) s = (Ret None, s1)).
Proof.
  intros Hq. split; [|split].
  - intros x He. unfold Tag.prev_range, Tag.next_range, Tag._prev_next_range.
    unfold bind. rewrite start_value, He. done.
  - intros e He.
    assert (Ed : forall dir v,
              (dir = "prev" /\ v = mkIndex 1 0) \/ (dir = "next" /\ v = e) ->
              (let* s0 := TextIndex.start w in
               let* e0 := TextIndex.end_ w in
               if String.eqb dir "prev" then ret s0
               else if String.eqb dir "next" then ret e0
               else raise (KeyError dir)) s = (Ret v, s)).
    { intros dir v Hd. unfold bind. rewrite start_value, He.
      destruct Hd as [[-> ->]|[-> ->]]; reflexivity. }
    unfold Tag.prev_range, Tag.next_range, Tag._prev_next_range. split.
    + rewrite (bind_step _ _ _ _ _ (Ed "prev" _ (or_introl (conj eq_refl eq_refl)))).
      reflexivity.
    + rewrite (bind_step _ _ _ _ _ (Ed "next" _ (or_intror (conj eq_refl eq_refl)))).
      reflexivity.
  - intros direction stop r s1 Hcall Hnil.
    unfold Tag._prev_next_range, Tag._tcl_call. unfold bind at 1. unfold ret at 1.
    unfold bind at 1. rewrite Hcall. rewrite Hnil. reflexivity.
Qed.

Lemma range_search_defaults_witness :
  let s := Recorder.world_of Recorder.abcd in
  Tag.prev_range ".t" Recorder.split_space (mkTag "t") (mkIndex 1 0) None s = (Ret None, s) /\
  Tag.next_range ".t" Recorder.split_space (mkTag "t") (mkIndex 1 0) None s
    = (Ret (Some (mkRange (mkIndex 1 2) (mkIndex 1 4))), s).
Proof.
  intros s.
  destruct (@range_search_defaults Recorder.tk Recorder.env ".t" Recorder.split_space
              (mkTag "t") (mkIndex 1 0) s (recorder_index_is_query _))
    as (_ & Hdef & _).
  destruct (Hdef (mkIndex 1 4) recorder_abcd_end) as [-> ->].
  split; vm_compute; reflexivity.
Defined.

(** ** More on the reconstruction of the content *)

Section ContentInvariant.
Context `{Env tk}.
Variable w : string.
Hypothesis Hquery : index_is_query w.

Lemma keeps_lookup {A} (m : gmap string A) (k : string) (s : world tk) :
  keeps (TextBox.lookup_or_KeyError m k) s.
Proof.
  unfold TextBox.lookup_or_KeyError. destruct (m !! k); [apply keeps_ret|apply keeps_raise].
Qed.

(** The type is one of the four that [convert] has, and the converter only
    reads. *)
Lemma convert_inv (ty : string) (s s' : world tk) (conv : string -> M tk pyobj) :
  TextBox.convert ty s = (Ret conv, s') ->
  s' = s /\
  (ty = "image" \/ ty = "mark" \/ ty = "text" \/ ty = "window") /\
  forall x s0, keeps (conv x) s0.
Proof.
  unfold TextBox.convert.
  destruct (String.eqb_spec ty "image") as [->|_].
  { intros [= <- <-]. split; [done|]. split; [tauto|]. intros x s0.
    apply keeps_bind; [apply keeps_lookup|intros ?; apply keeps_ret]. }
  destruct (String.eqb_spec ty "mark") as [->|_].
  { intros [= <- <-]. split; [done|]. split; [tauto|]. intros x s0. apply keeps_ret. }
  destruct (String.eqb_spec ty "text") as [->|_].
  { intros [= <- <-]. split; [done|]. split; [tauto|]. intros x s0. apply keeps_ret. }
  destruct (String.eqb_spec ty "window") as [->|_].
  { intros [= <- <-]. split; [done|]. split; [tauto|]. intros x s0. apply keeps_ret. }
  discriminate.
Qed.

Lemma keeps_convert (ty : string) (s : world tk) : keeps (TextBox.convert ty) s.
Proof.
  unfold TextBox.convert.
  repeat first [ apply keeps_ret | apply keeps_raise | case_match ].
Qed.

Lemma convert_unknown (ty : string) (s : world tk) :
  ty <> "image" -> ty <> "mark" -> ty <> "text" -> ty <> "window" ->
  TextBox.convert ty s = (Raise (KeyError ty), s).
Proof.
  intros H1 H2 H3 H4. unfold TextBox.convert.
  apply String.eqb_neq in H1, H2, H3, H4. by rewrite H1, H2, H3, H4.
Qed.

(** What one event does to the state of [content] when it is accepted. *)
Lemma add_item_cases (ty v i : string) (st st' : content_state) (s s' : world tk) :
  TextBox.add_item w ty v i st s = (Ret st', s') ->
  s' = s /\
  ((ty = "tagon" /\ result st' = result st /\
    unclosed_tags st' = <[v := (i, length (result st))]> (unclosed_tags st)) \/
   (ty = "tagoff" /\ unclosed_tags st' = unclosed_tags st /\
    exists opened k r t,
      unclosed_tags st !! v = Some (opened, k) /\
      text_tags s !! v = Some t /\
      result st' = list_insert_at k (OPair (ORange r) (OTag t)) (result st)) \/
   ((ty = "image" \/ ty = "mark" \/ ty = "text" \/ ty = "window") /\
    unclosed_tags st' = unclosed_tags st /\
    exists i0 v0, result st' = result st ++ [OIndex i0; v0])).
Proof.
  unfold TextBox.add_item.
  assert (Happend :
    (let* conv := TextBox.convert ty in
     let* i0 := TextIndex.__new__ w [AStr i] false in
     let* v0 := conv v in
     ret (mkContentState (result st ++ [OIndex i0; v0]) (unclosed_tags st))) s
      = (Ret st', s') ->
    s' = s /\ (ty = "image" \/ ty = "mark" \/ ty = "text" \/ ty = "window") /\
    unclosed_tags st' = unclosed_tags st /\
    exists i0 v0, result st' = result st ++ [OIndex i0; v0]).
  { intros Hb.
    apply bind_inv in Hb as [(conv & s1 & H1 & Hb)|(x & _ & [=])].
    apply convert_inv in H1 as (-> & Hk & Hconv).
    apply bind_inv in Hb as [(i0 & s1 & H1 & Hb)|(x & _ & [=])].
    pose proof (keeps_new w Hquery _ _ _ _ _ H1) as ->.
    apply bind_inv in Hb as [(v0 & s1 & H2 & Hb)|(x & _ & [=])].
    pose proof (Hconv _ _ _ _ H2) as ->.
    injection Hb as <- <-. cbn. eauto 10. }
  destruct (String.eqb_spec ty "tagon") as [->|Hon].
  { intros [= <- <-]. split; [done|]. left. done. }
  destruct (String.eqb_spec ty "tagoff") as [->|Hoff].
  - destruct (unclosed_tags st !! v) as [[opened k]|] eqn:Ev.
    + intros Hb.
      apply bind_inv in Hb as [(a & s1 & H1 & Hb)|(x & _ & [=])].
      pose proof (keeps_new w Hquery _ _ _ _ _ H1) as ->.
      apply bind_inv in Hb as [(b & s1 & H2 & Hb)|(x & _ & [=])].
      pose proof (keeps_new w Hquery _ _ _ _ _ H2) as ->.
      apply bind_inv in Hb as [(r & s1 & H3 & Hb)|(x & _ & [=])].
      pose proof (keeps_range_new w Hquery _ _ _ _ H3) as ->.
      apply bind_inv in Hb as [(t & s1 & H4 & Hb)|(x & _ & [=])].
      injection Hb as <- <-.
      unfold TextBox.Tag_from_tcl, TextBox.lookup_or_KeyError in H4.
      destruct (text_tags s !! v) as [t'|] eqn:Et; [|discriminate H4].
      injection H4 as <- <-. split; [done|]. right; left.
      split; [done|]. split; [done|]. exists opened, k, r, t'. done.
    + intros Hb. apply Happend in Hb as (_ & [Hk|[Hk|[Hk|Hk]]] & _); discriminate Hk.
  - intros Hb. apply Happend in Hb as (-> & Hk & Hu & Hr). split; [done|].
    right; right. done.
Qed.

(** Whatever an event does, it does not change the program state. *)
Lemma keeps_add_item (ty v i : string) (st : content_state) (s : world tk) :
  keeps (TextBox.add_item w ty v i st) s.
Proof.
  intros o s' Hb. destruct o as [st'|x]; [by apply add_item_cases in Hb as (-> & _)|].
  revert Hb. unfold TextBox.add_item.
  assert (Happend : forall res u,
    keeps (let* conv := TextBox.convert ty in
           let* i0 := TextIndex.__new__ w [AStr i] false in
           let* v0 := conv v in
           ret (mkContentState (res ++ [OIndex i0; v0]) u)) s).
  { intros res u o1 s1 Hb.
    apply bind_inv in Hb as [(conv & s2 & H1 & Hb)|(y & H1 & ->)];
      [|by apply keeps_convert in H1].
    apply convert_inv in H1 as (-> & _ & Hconv). revert Hb.
    apply keeps_bind; [apply (keeps_new w Hquery)|intros i0].
    apply keeps_bind; [apply Hconv|intros v0; apply keeps_ret]. }
  destruct (ty =? "tagon")%string; [discriminate|].
  destruct (ty =? "tagoff")%string; [|apply Happend].
  destruct (unclosed_tags st !! v) as [[opened k]|]; [|apply Happend].
  apply keeps_bind; [apply (keeps_new w Hquery)|intros a].
  apply keeps_bind; [apply (keeps_new w Hquery)|intros b].
  apply keeps_bind; [apply (keeps_range_new w Hquery)|intros r].
  apply keeps_bind; [|intros t; apply keeps_ret].
  unfold TextBox.Tag_from_tcl. intros o1 s1. apply keeps_lookup.
Qed.

Lemma keeps_add_items (events : list (string * string * string)) (st : content_state)
    (s : world tk) :
  keeps (TextBox.add_items w events st) s.
Proof.
  revert st. induction events as [|[[ty v] i] events IH]; intros st; [apply keeps_ret|].
  cbn [TextBox.add_items]. apply keeps_bind; [apply keeps_add_item|intros st'; apply IH].
Qed.

Lemma add_item_invariant (ty v i : string) (st st' : content_state) (s s' : world tk) :
  TextBox.add_item w ty v i st s = (Ret st', s') ->
  indices_ok st ->
  s' = s /\ indices_ok st' /\ sublist (result st) (result st') /\
  (forall u, is_Some (unclosed_tags st !! u) -> is_Some (unclosed_tags st' !! u)) /\
  (length (result st') <= length (result st) + 2)%nat.
Proof.
  intros Hb Hok. apply add_item_cases in Hb as (-> & Hcases). split; [done|].
  unfold indices_ok in *.
  destruct Hcases as [(-> & Hr & Hu)|[(-> & Hu & opened & k & r & t & Ev & Et & Hr)
                                     |(_ & Hu & i0 & v0 & Hr)]].
  - rewrite Hr, Hu. split; [|split; [done|split; [|lia]]].
    + intros u o k. destruct (decide (u = v)) as [->|Hne].
      * rewrite lookup_insert_eq. by intros [= _ <-].
      * rewrite lookup_insert_ne by done. apply Hok.
    + intros u Hs. destruct (decide (u = v)) as [->|Hne].
      * rewrite lookup_insert_eq. eauto.
      * by rewrite lookup_insert_ne.
  - rewrite Hr, Hu. unfold list_insert_at.
    split; [|split; [|split; [done|]]].
    + intros u o n Hn. apply Hok in Hn.
      rewrite length_app. cbn [length]. rewrite length_take, length_drop. lia.
    + rewrite <- (take_drop k (result st)) at 1.
      apply sublist_app; [done|]. by apply sublist_cons.
    + rewrite length_app. cbn [length]. rewrite length_take, length_drop. lia.
  - rewrite Hr, Hu. split; [|split; [|split; [done|]]].
    + intros u o n Hn. apply Hok in Hn. rewrite length_app. lia.
    + by apply sublist_inserts_r.
    + rewrite length_app. cbn [length]. lia.
Qed.
End ContentInvariant.

(** X15.  The callback [add_item] of [content] knows six kinds of events.
    Any other kind is a [KeyError] for that kind, so that only the six are
    ever accepted; the closing of a tag that was never opened is a
    [KeyError] too, with the key [tagoff], since the event falls through to
    the table of converters; and the closing of a tag that is open but not
    in the registry raises.  None of these changes the program state. *)
Theorem content_rejects_unknown_events `{Env tk} (w : string) :
  index_is_query w ->
  (forall ty v i st s,
      ~ known_type ty -> TextBox.add_item w ty v i st s = (Raise (KeyError ty), s)) /\
  (forall ty v i st s st' s',
      TextBox.add_item w ty v i st s = (Ret st', s') -> known_type ty) /\
  (forall v i st s,
      unclosed_tags st !! v = None ->
      TextBox.add_item w "tagoff" v i st s = (Raise (KeyError "tagoff"), s)) /\
  (forall v i st s o s',
      text_tags s !! v = None ->
      TextBox.add_item w "tagoff" v i st s = (o, s') ->
      s' = s /\ exists x, o = Raise x).
Proof.
  intros Hq.
  assert (Hunknown : forall ty v i st s,
            ~ known_type ty -> TextBox.add_item w ty v i st s = (Raise (KeyError ty), s)).
  { intros ty v i st s Hk. unfold known_type in Hk. unfold TextBox.add_item.
    destruct (String.eqb_spec ty "tagon") as [->|_]; [tauto|].
    destruct (String.eqb_spec ty "tagoff") as [->|_]; [tauto|].
    unfold bind. rewrite convert_unknown; [done|tauto..]. }
  split; [exact Hunknown|]. split; [|split].
  - intros ty v i st s st' s' Hb.
    apply (add_item_cases w Hq) in Hb as (_ & [(-> & _)|[(-> & _)|(Hty & _)]]);
      unfold known_type; tauto.
  - intros v i st s Ev. unfold TextBox.add_item. cbn [String.eqb Ascii.eqb Bool.eqb].
    rewrite Ev. unfold bind. by rewrite convert_unknown.
  - intros v i st s o s' Et Hb.
    pose proof (keeps_add_item w Hq _ _ _ _ _ _ _ Hb) as ->. split; [done|].
    destruct o as [st'|x]; [|eauto].
    apply (add_item_cases w Hq) in Hb as (_ & [(Hty & _)|[(_ & _ & Hex)|(Hty & _)]]).
    + discriminate Hty.
    + destruct Hex as (? & ? & ? & t & _ & Et' & _). rewrite Et in Et'. discriminate.
    + destruct Hty as [Hk|[Hk|[Hk|Hk]]]; discriminate Hk.
Qed.

Lemma content_rejects_unknown_events_witness :
  let s := Scripted.world_of Scripted.abcd in
  let st := mkContentState [OIndex (mkIndex 1 0); OStr "ab"] {["u" := ("1.0", 0%nat)]} in
  TextBox.add_item ".frame0.textbox" "sel" "" "1.2" st s = (Raise (KeyError "sel"), s) /\
  TextBox.add_item ".frame0.textbox" "tagoff" "t" "1.2" st s
    = (Raise (KeyError "tagoff"), s) /\
  exists x, TextBox.add_item ".frame0.textbox" "tagoff" "u" "1.2" st s = (Raise x, s).
Proof.
  intros s st.
  destruct (@content_rejects_unknown_events Scripted.tk Scripted.env ".frame0.textbox"
              (scripted_index_is_query _)) as (Hkind & _ & Hnever & Hreg).
  split; [|split].
  - apply Hkind. unfold known_type.
    intros [Hk|[Hk|[Hk|[Hk|[Hk|Hk]]]]]; discriminate Hk.
  - apply Hnever. apply lookup_singleton_ne. discriminate.
  - destruct (Hreg "u" "1.2" st s _ _ eq_refl (surjective_pairing _)) as [Hs [x Hx]].
    exists x. rewrite (surjective_pairing (TextBox.add_item _ _ _ _ _ _)).
    by rewrite Hx, Hs.
Defined.

(** X16.  The result of [content] only grows, by at most two items for an
    event, and nothing in it is removed or reordered; the index recorded
    when a tag opens stays within the list, so that the [insert] of its
    span is never past the end; a tag once recorded as open is never
    forgotten; and the program state is the one before the call. *)
Theorem content_only_grows `{Env tk} (w : string)
    (events : list (string * string * string)) (st st' : content_state) (s s' : world tk) :
  index_is_query w ->
  indices_ok st ->
  TextBox.add_items w events st s = (Ret st', s') ->
  s' = s /\ indices_ok st' /\ sublist (result st) (result st') /\
  (forall u, is_Some (unclosed_tags st !! u) -> is_Some (unclosed_tags st' !! u)) /\
  (length (result st') <= length (result st) + 2 * length events)%nat.
Proof.
  intros Hq. revert st s. induction events as [|[[ty v] i] events IH]; intros st s Hok Hb.
  - injection Hb as <- <-. cbn [length]. split; [done|]. split; [done|].
    split; [done|]. split; [done|lia].
  - cbn [TextBox.add_items] in Hb.
    apply bind_inv in Hb as [(st1 & s1 & H1 & Hb)|(x & _ & [=])].
    apply (add_item_invariant w Hq) in H1 as (-> & Hok1 & Hsub1 & Hopen1 & Hlen1); [|done].
    apply IH in Hb as (-> & Hok2 & Hsub2 & Hopen2 & Hlen2); [|done].
    split; [done|]. split; [done|]. split; [by etrans|]. split; [by auto|].
    cbn [length]. lia.
Qed.

Lemma content_only_grows_witness :
  let s := Scripted.world_of Scripted.abcd in
  let st' := mkContentState example_flat {["t" := ("1.2", 2%nat)]} in
  TextBox.add_items ".frame0.textbox" example_stream (mkContentState [] ∅) s = (Ret st', s) /\
  indices_ok st' /\ (length (result st') <= 8)%nat.
Proof.
  intros s st'.
  assert (Hrun : TextBox.add_items ".frame0.textbox" example_stream (mkContentState [] ∅) s
                 = (Ret st', s)) by (vm_compute; reflexivity).
  split; [exact Hrun|].
  destruct (@content_only_grows Scripted.tk Scripted.env ".frame0.textbox" example_stream
              (mkContentState [] ∅) st' s s (scripted_index_is_query _))
    as (_ & Hok & _ & _ & Hlen).
  - intros t opened k Hk. cbn [unclosed_tags] in Hk. rewrite lookup_empty in Hk.
    discriminate.
  - exact Hrun.
  - split; [exact Hok|exact Hlen].
Defined.

(** X17.  Closing a tag leaves it recorded as open.  The span goes into the
    result at the index recorded when the tag opened, which is where it is
    found afterwards, with the items before it untouched; the record itself
    stays, so that a second closing event for the same tag, when it
    returns, has put a second span at the same index. *)
Theorem closed_tag_stays_open `{Env tk} (w : string) (v i opened : string) (k : nat)
    (st st' : content_state) (s s' : world tk) :
  index_is_query w ->
  indices_ok st ->
  unclosed_tags st !! v = Some (opened, k) ->
  TextBox.add_item w "tagoff" v i st s = (Ret st', s') ->
  unclosed_tags st' !! v = Some (opened, k) /\
  take k (result st') = take k (result st) /\
  drop (S k) (result st') = drop k (result st) /\
  (exists r t, text_tags s !! v = Some t /\
               result st' !! k = Some (OPair (ORange r) (OTag t))) /\
  forall i2 st2 s2,
    TextBox.add_item w "tagoff" v i2 st' s' = (Ret st2, s2) ->
    exists r2 t2,
      result st2 = list_insert_at k (OPair (ORange r2) (OTag t2)) (result st').
Proof.
  intros Hq Hok Ev Hb.
  apply (add_item_cases w Hq) in Hb as (-> & [(Hty & _)|[(_ & Hu & Hex)|(Hty & _)]]).
  - discriminate Hty.
  - destruct Hex as (opened' & k' & r & t & Ev' & Et & Hr).
    rewrite Ev in Ev'. injection Ev' as <- <-.
    pose proof (Hok _ _ _ Ev) as Hk.
    rewrite Hu, Hr. unfold list_insert_at.
    split; [done|]. split; [|split; [|split]].
    + rewrite take_app_le by (rewrite length_take; lia).
      rewrite take_take. f_equal. lia.
    + rewrite drop_app_ge by (rewrite length_take; lia).
      rewrite length_take. replace (S k - k `min` length (result st))%nat with 1%nat by lia.
      reflexivity.
    + exists r, t. split; [done|].
      rewrite lookup_app_r by (rewrite length_take; lia).
      rewrite length_take. by replace (k - k `min` length (result st))%nat with 0%nat by lia.
    + intros i2 st2 s2 Hb2.
      apply (add_item_cases w Hq) in Hb2 as (_ & [(Hty & _)|[(_ & _ & Hex)|(Hty & _)]]).
      * discriminate Hty.
      * destruct Hex as (opened2 & k2 & r2 & t2 & Ev2 & _ & Hr2).
        rewrite Hu, Ev in Ev2. injection Ev2 as <- <-.
        exists r2, t2. by rewrite Hr2, Hr.
      * destruct Hty as [Hk'|[Hk'|[Hk'|Hk']]]; discriminate Hk'.
  - destruct Hty as [Hk|[Hk|[Hk|Hk]]]; discriminate Hk.
Qed.

Lemma closed_tag_stays_open_witness :
  let s := Scripted.world_of Scripted.abcd in
  let st := mkContentState
              [OIndex (mkIndex 1 0); OStr "ab"; OIndex (mkIndex 1 2); OStr "cd"]
              {["t" := ("1.2", 2%nat)]} in
  let st' := mkContentState example_flat {["t" := ("1.2", 2%nat)]} in
  TextBox.add_item ".frame0.textbox" "tagoff" "t" "1.4" st s = (Ret st', s) /\
  unclosed_tags st' !! "t" = Some ("1.2", 2%nat) /\
  take 2 (result st') = take 2 (result st).
Proof.
  intros s st st'.
  assert (Hrun : TextBox.add_item ".frame0.textbox" "tagoff" "t" "1.4" st s = (Ret st', s))
    by (vm_compute; reflexivity).
  split; [exact Hrun|].
  destruct (@closed_tag_stays_open Scripted.tk Scripted.env ".frame0.textbox"
              "t" "1.4" "1.2" 2%nat st st' s s (scripted_index_is_query _))
    as (Hopen & Htake & _).
  - intros t opened k Hk. cbn [unclosed_tags st] in Hk.
    apply lookup_singleton_Some in Hk as [_ [= _ <-]]. cbn. lia.
  - reflexivity.
  - exact Hrun.
  - split; [exact Hopen|exact Htake].
Defined.

(** ** The options of [search], the scrollbars and the set-up of a peer *)

Lemma chars_of_single (s : string) :
  Forall (fun word => String.length word = 1%nat) (chars_of s).
Proof. induction s as [|c s IH]; constructor; [reflexivity|exact IH]. Qed.

Lemma chars_of_join (s : string) : foldr String.append "" (chars_of s) = s.
Proof. induction s as [|c s IH]; [reflexivity|]. cbn. by rewrite IH. Qed.

Lemma join_app (a b : list string) :
  foldr String.append "" (a ++ b) = foldr String.append "" a +:+ foldr String.append "" b.
Proof.
  induction a as [|x a IH]; [reflexivity|]. cbn [foldr app]. rewrite IH.
  generalize (foldr String.append "" a) (foldr String.append "" b). intros u v.
  induction x as [|c x IHx]; [reflexivity|].
  change (String c (x +:+ (u +:+ v)) = String c ((x +:+ u) +:+ v)). by f_equal.
Qed.

Lemma join_flag (b : bool) (flag : string) :
  foldr String.append "" (if b then chars_of flag else []) = (if b then flag else "") /\
  foldr String.append "" (if b then [] else chars_of flag) = (if b then "" else flag).
Proof. destruct b; split; first [apply chars_of_join|reflexivity]. Qed.

(** X18.  [to_call += "-backwards"] extends the list by the characters of
    the string: every option word that [search] hands to Tk is one
    character long, and the words read together are the switches that were
    meant, in the order of the source. *)
Theorem search_flags_sent_by_character (opts : search_options) (pattern : string) :
  Forall (fun word => String.length word = 1%nat) (TextBox.option_words opts pattern) /\
  foldr String.append "" (TextBox.option_words opts pattern)
  = (if backwards opts then "-backwards" else "") +:+
    (if case_sensitive opts then "" else "-nocase") +:+
    (if count_hidden opts then "-elide" else "") +:+
    (if exact opts then "-exact" else "") +:+
    (if forwards opts then "-forwards" else "") +:+
    (if match_newline opts then "-nolinestop" else "") +:+
    (if regex opts then "-regexp" else "") +:+
    (if strict_limits opts then "-strictlimits" else "") +:+
    (match pattern with
     | String c _ => if Ascii.eqb c "-"%char then "--" else ""
     | EmptyString => ""
     end).
Proof.
  unfold TextBox.option_words. split.
  - repeat apply Forall_app_2;
      repeat first [ apply chars_of_single | apply Forall_nil_2 | case_match ].
  - rewrite !join_app, (proj2 (join_flag _ _)), !(proj1 (join_flag _ _)).
    do 8 f_equal. destruct pattern as [|c r]; [reflexivity|].
    destruct (Ascii.eqb c "-"%char); reflexivity.
Qed.

Section OverflowFacts.
Context `{Env tk}.

Lemma scroll_mode_ok (f : overflow_flag) :
  overflow_flag_ok f <-> is_Some (TextBox.scroll_mode f).
Proof.
  unfold overflow_flag_ok, TextBox.scroll_mode. split.
  - intros [-> | [-> | ->]]; cbn; eauto.
  - destruct f as [[]|x]; [auto..|].
    destruct (String.eqb_spec x "auto") as [->|_]; [auto|]. by intros [? [=]].
Qed.

Lemma make_scroll_never_ValueError (frame o : string) (m : option bool) (s s' : world tk)
    (out : outcome unit) :
  TextBox.make_scroll frame o m s = (out, s') ->
  boxes s' = boxes s /\ forall msg, out <> Raise (ValueError msg).
Proof.
  unfold TextBox.make_scroll. destruct m as [hide|].
  - intros Hb. apply bind_inv in Hb as [(r & s1 & H1 & Hb)|(x & H1 & ->)];
      apply lift_tcl_inv in H1 as (t & -> & [(r' & Ho & _)|(msg & Ho & _)]);
      try discriminate Ho.
    + injection Hb as <- <-. split; [by destruct s|]. discriminate.
    + injection Ho as ->. split; [by destruct s|]. discriminate.
  - intros [= <- <-]. split; [done|discriminate].
Qed.

Lemma set_overflow_rejects (frame : string) (o : list overflow_flag) (s : world tk) :
  ~ overflow_ok o ->
  TextBox.set_overflow frame o s = (Raise (ValueError "invalid overflow value"), s).
Proof.
  intros Hbad. unfold TextBox.set_overflow.
  destruct o as [|a [|b [|c o]]]; try reflexivity.
  - destruct (TextBox.scroll_mode a) as [h|] eqn:Ea; [|reflexivity].
    exfalso. apply Hbad. left. exists a. split; [done|]. apply scroll_mode_ok. eauto.
  - destruct (TextBox.scroll_mode a) as [h|] eqn:Ea; [|reflexivity].
    destruct (TextBox.scroll_mode b) as [v|] eqn:Eb; [|reflexivity].
    exfalso. apply Hbad. right. exists a, b.
    split; [done|]. split; apply scroll_mode_ok; eauto.
Qed.
End OverflowFacts.

(** X19.  The setter of [overflow], on a widget that has no scrollbars
    yet, accepts one or two of [True], [False] and ["auto"] and nothing
    else: any other value is a [ValueError] before
    a scrollbar is made; an accepted value never is, and leaves the boxes
    alone; one element stands for the pair of it twice; and the pair of two
    [False] makes no scrollbar at all. *)
Theorem overflow_validated `{Env tk} (frame : string) (o : list overflow_flag)
    (s : world tk) :
  (~ overflow_ok o ->
     exists msg, TextBox.set_overflow frame o s = (Raise (ValueError msg), s)) /\
  (overflow_ok o ->
     forall out s',
       TextBox.set_overflow frame o s = (out, s') ->
       boxes s' = boxes s /\ forall msg, out <> Raise (ValueError msg)) /\
  (forall a, TextBox.set_overflow frame [a] s = TextBox.set_overflow frame [a; a] s) /\
  TextBox.set_overflow frame [OvBool false; OvBool false] s = (Ret tt, s).
Proof.
  split; [|split; [|split; reflexivity]].
  - intros Hbad. eexists. by apply set_overflow_rejects.
  - intros Hok out s'.
    assert (Hpair : exists a b h v,
              TextBox.scroll_mode a = Some h /\ TextBox.scroll_mode b = Some v /\
              TextBox.set_overflow frame o
              = (let* _ := TextBox.make_scroll frame "horizontal" h in
                 TextBox.make_scroll frame "vertical" v)).
    { destruct Hok as [(a & -> & Ha)|(a & b & -> & Ha & Hb)].
      - apply scroll_mode_ok in Ha as [h Eh]. exists a, a, h, h.
        unfold TextBox.set_overflow. by rewrite Eh.
      - apply scroll_mode_ok in Ha as [h Eh]. apply scroll_mode_ok in Hb as [v Ev].
        exists a, b, h, v. unfold TextBox.set_overflow. by rewrite Eh, Ev. }
    destruct Hpair as (a & b & h & v & _ & _ & ->). intros Hb.
    apply bind_inv in Hb as [(u & s1 & H1 & H2)|(x & H1 & ->)].
    + apply make_scroll_never_ValueError in H1 as [B1 _], H2 as [B2 N2].
      split; [congruence|exact N2].
    + by apply make_scroll_never_ValueError in H1.
Qed.

Lemma overflow_validated_witness :
  let s := Recorder.world_of Recorder.abcd in
  (exists msg, TextBox.set_overflow ".f" [OvStr "scroll"] s = (Raise (ValueError msg), s)) /\
  TextBox.set_overflow ".f" [OvBool true; OvStr "auto"] s <> (Raise (ValueError ""), s).
Proof.
  intros s. split.
  { apply (@overflow_validated Recorder.tk Recorder.env ".f" [OvStr "scroll"] s).
    intros [(a & [= <-] & Ha)|(a & b & [=] & _)].
    destruct Ha as [Ha|[Ha|Ha]]; discriminate Ha. }
  destruct (@overflow_validated Recorder.tk Recorder.env ".f" [OvBool true; OvStr "auto"] s)
    as (_ & Hok & _).
  intros Hb. apply Hok in Hb as [_ Hno]; [by apply (Hno "")|].
  right. exists (OvBool true), (OvStr "auto"). unfold overflow_flag_ok. auto.
Defined.

(** X20.  The order of the set-up of a peer.  When no font is given the
    default font is made first, before the padding is looked at: if Tk
    refuses it the call raises [TclError].  A padding of no or of three and
    more values is a [ValueError]: with a font given not a word has been
    sent to Tk, without one the font has been made.  A key that one of the
    three tables lacks is a [KeyError] before a frame or a widget exists.
    The [overflow] is looked at last: with a value that the setter rejects
    [Peer] never returns, whatever Tk has been made to create before.  In
    each case the peer count of the box has gone up and no box is added. *)
Theorem peer_set_up_order `{Env tk} (tables : constants) (self : nat) (me : TextBox)
    (kw : kwargs) (s : world tk) :
  boxes s !! self = Some me ->
  peer_of me = None ->
  let me' := TextBox.set_peer_count (peer_count me + 1) me in
  let s1 := set_boxes (<[self := me']> (boxes s)) s in
  (font kw = None ->
     forall msg t, Font_new (interp s) "monospace" = (TclFail msg, t) ->
       TextBox.Peer tables self kw s = (Raise (TclError msg), set_interp t s1)) /\
  (~ padding_ok (padding kw) ->
     (forall f, font kw = Some f ->
        exists msg, TextBox.Peer tables self kw s = (Raise (ValueError msg), s1)) /\
     (font kw = None ->
        forall fnt t, Font_new (interp s) "monospace" = (TclOk fnt, t) ->
          exists msg,
            TextBox.Peer tables self kw s = (Raise (ValueError msg), set_interp t s1))) /\
  (forall f, font kw = Some f -> padding_ok (padding kw) -> ~ keys_known tables kw ->
     exists key, TextBox.Peer tables self kw s = (Raise (KeyError key), s1)) /\
  (forall o out s',
     overflow kw = Some o -> ~ overflow_ok o ->
     TextBox.Peer tables self kw s = (out, s') ->
     boxes s' = <[self := me']> (boxes s) /\ exists x, out = Raise x).
Proof.
  intros Hself Hroot me' s1.
  assert (Hpeer : TextBox.Peer tables self kw s = TextBox.__init__ tables self kw s1).
  { unfold TextBox.Peer. unfold bind at 1. unfold TextBox.deref. rewrite Hself, Hroot.
    unfold bind, TextBox.assign. by rewrite Hself. }
  assert (Hself1 : boxes s1 !! self = Some me').
  { subst s1. destruct s. cbn. apply list_lookup_insert_eq. by eapply lookup_lt_Some. }
  assert (Hpad : forall s0 : world tk, ~ padding_ok (padding kw) ->
            exists msg, TextBox.check_padding (padding kw) s0
                        = (Raise (ValueError msg), s0)).
  { intros s0 Hbad. unfold padding_ok in Hbad. unfold TextBox.check_padding.
    destruct (padding kw) as [[n|[|a [|b [|c l]]]]|]; try (exfalso; by apply Hbad);
      eexists; reflexivity. }
  assert (Hgood : forall s0 : world tk, padding_ok (padding kw) ->
            exists pad, TextBox.check_padding (padding kw) s0 = (Ret pad, s0)).
  { intros s0 Hok. unfold padding_ok in Hok. unfold TextBox.check_padding.
    destruct (padding kw) as [[n|[|a [|b [|c l]]]]|]; try (exfalso; exact Hok);
      eexists; reflexivity. }
  rewrite Hpeer. split; [|split; [|split]].
  - intros Hnone msg t E. unfold TextBox.__init__. unfold bind at 1.
    rewrite Hnone. unfold TextBox.lift_tcl.
    change (interp s1) with (interp s). by rewrite E.
  - intros Hbad. split.
    + intros f Hf. destruct (Hpad s1 Hbad) as [msg Emsg]. exists msg.
      unfold TextBox.__init__. unfold bind at 1. rewrite Hf. unfold ret at 1.
      unfold bind at 1. by rewrite Emsg.
    + intros Hnone fnt t E. destruct (Hpad (set_interp t s1) Hbad) as [msg Emsg].
      exists msg. unfold TextBox.__init__. unfold bind at 1.
      rewrite Hnone. unfold TextBox.lift_tcl.
      change (interp s1) with (interp s). rewrite E.
      unfold bind at 1. by rewrite Emsg.
  - intros f Hf Hok Hkeys. destruct (Hgood s1 Hok) as [pad Epad].
    unfold TextBox.__init__. unfold bind at 1. rewrite Hf. unfold ret at 1.
    unfold bind at 1. rewrite Epad.
    unfold keys_known in Hkeys.
    destruct (_cursor_styles tables (cursor_style kw)) as [cur|];
      [|eexists; reflexivity].
    destruct (_inactive_cursor_styles tables (inactive_cursor_style kw)) as [ina|];
      [|eexists; reflexivity].
    destruct (_wraps tables (wrap kw)) as [wr|]; [|eexists; reflexivity].
    exfalso. apply Hkeys. eauto.
  - intros o out s' Ho Hbad Hb.
    pose proof (init_peer tables self me' kw s1 s' out Hself1 Hb) as Hinit.
    destruct out as [n|x]; [exfalso|by destruct Hinit as [-> _]; split; [destruct s|eauto]].
    clear Hinit. unfold TextBox.__init__ in Hb. rewrite Ho in Hb.
    do 9 (apply bind_inv in Hb as [(? & ? & _ & Hb)|(? & _ & [=])]).
    apply bind_inv in Hb as [(? & ? & Hover & _)|(? & _ & [=])].
    rewrite set_overflow_rejects in Hover by done. discriminate Hover.
Qed.

Lemma peer_set_up_order_witness :
  let s := Scripted.world_of Scripted.abcd in
  let wide := mkKwargs (Some "TkFixedFont") (Some (PadSeq [1; 2; 3; 4])) "normal" None None
                None [] in
  let slanted := mkKwargs (Some "TkFixedFont") None "slanted" None None None [] in
  let odd := mkKwargs None None "normal" None None (Some [OvStr "scroll"]) [] in
  (exists msg s', TextBox.Peer Scripted.tables 0 wide s = (Raise (ValueError msg), s') /\
                  interp s' = interp s /\
                  peer_count <$> boxes s' !! 0%nat = Some 1) /\
  (exists s', TextBox.Peer Scripted.tables 0 slanted s = (Raise (KeyError "slanted"), s') /\
              interp s' = interp s) /\
  (exists x, (TextBox.Peer Scripted.tables 0 odd s).1 = Raise x) /\
  interp (TextBox.Peer Scripted.tables 0 odd s).2 <> interp s.
Proof.
  intros s wide slanted odd.
  destruct (@peer_set_up_order Scripted.tk Scripted.env Scripted.tables 0%nat
              Scripted.the_box wide s eq_refl eq_refl) as (_ & Hpad & _).
  destruct (@peer_set_up_order Scripted.tk Scripted.env Scripted.tables 0%nat
              Scripted.the_box slanted s eq_refl eq_refl) as (_ & _ & Hkey & _).
  destruct (@peer_set_up_order Scripted.tk Scripted.env Scripted.tables 0%nat
              Scripted.the_box odd s eq_refl eq_refl) as (_ & _ & _ & Hover).
  split; [|split; [|split]].
  - destruct Hpad as [Hgiven _]; [by intros []|].
    destruct (Hgiven "TkFixedFont" eq_refl) as [msg E].
    eexists msg, _. split; [exact E|]. split; reflexivity.
  - destruct (Hkey "TkFixedFont" eq_refl I) as [key E].
    + intros ([cur Hcur] & _). discriminate Hcur.
    + pose proof E as E'. vm_compute in E'. injection E' as <-.
      eexists. split; [exact E|reflexivity].
  - refine (proj2 (Hover [OvStr "scroll"] _ _ eq_refl _ (surjective_pairing _))).
    intros [(a & [= <-] & Ha)|(a & b & [=] & _)].
    destruct Ha as [Ha|[Ha|Ha]]; discriminate Ha.
  - vm_compute. discriminate.
Defined.

(** ** Membership in a range *)

Lemma scripted_parse_to_tcl (i : TextIndex) :
  Scripted.parse (TextIndex.to_tcl i) = Some (line i, column i).
Proof.
  unfold Scripted.parse, TextIndex.to_tcl.
  rewrite split_dot_join by apply no_dot_py_str. by rewrite !py_int_py_str.
Qed.

Lemma scripted_compare_lexicographic (w : string) (t : Scripted.tk) :
  compare_lexicographic w (Scripted.world_of t).
Proof.
  intros i j.
  unfold TextIndex.__le__, TextIndex.__lt__, TextIndex._compare, bind, _tcl_call.
  cbn [interp Scripted.world_of tcl_eval Scripted.env Scripted.eval].
  cbn [String.eqb Ascii.eqb Bool.eqb]. unfold Scripted.compare.
  rewrite !scripted_parse_to_tcl. cbn [String.eqb Ascii.eqb Bool.eqb].
  fold (pos i) (pos j).
  split; by destruct (lex_ltb (pos j) (pos i)), (lex_ltb (pos i) (pos j)).
Qed.

(** X21.  A range is half open: [index in range] holds exactly for the
    indices from its start up to, and not including, its end.  The end of a
    range is never in it, and a range whose end is not after its start,
    which the constructor does build, contains nothing. *)
Theorem range_membership_half_open `{Env tk} (w : string) (r : TextRange) (i : TextIndex)
    (s : world tk) :
  compare_lexicographic w s ->
  (exists b, TextRange.__contains__ w r i s = (Ret b, s) /\
             (b = true <-> index_le (range_start r) i /\ index_lt i (range_end r))) /\
  TextRange.__contains__ w r (range_end r) s = (Ret false, s) /\
  (index_le (range_end r) (range_start r) ->
     TextRange.__contains__ w r i s = (Ret false, s)).
Proof.
  intros Hlex.
  assert (Hval : forall x,
            TextRange.__contains__ w r x s
            = (Ret (negb (lex_ltb (pos x) (pos (range_start r))) &&
                    lex_ltb (pos x) (pos (range_end r))), s)).
  { intros x. unfold TextRange.__contains__, bind.
    rewrite (proj1 (Hlex (range_start r) x)).
    destruct (lex_ltb (pos x) (pos (range_start r))); [reflexivity|].
    exact (proj2 (Hlex x (range_end r))). }
  assert (Hiff : forall x,
            negb (lex_ltb (pos x) (pos (range_start r))) &&
              lex_ltb (pos x) (pos (range_end r)) = true
            <-> index_le (range_start r) x /\ index_lt x (range_end r)).
  { intros x. rewrite andb_true_iff, negb_true_iff, <- not_true_iff_false, !lex_ltb_spec.
    unfold index_le, index_lt, pos. cbn [fst snd]. lia. }
  split; [|split].
  - eexists. split; [apply Hval|apply Hiff].
  - rewrite Hval. f_equal. f_equal. apply not_true_iff_false. rewrite Hiff.
    unfold index_lt. lia.
  - intros Hle. rewrite Hval. f_equal. f_equal. apply not_true_iff_false. rewrite Hiff.
    unfold index_le, index_lt in *. lia.
Qed.

Lemma range_membership_half_open_witness :
  let s := Scripted.world_of Scripted.abcd in
  let r := mkRange (mkIndex 1 1) (mkIndex 1 3) in
  TextRange.__contains__ ".frame0.textbox" r (mkIndex 1 1) s = (Ret true, s) /\
  TextRange.__contains__ ".frame0.textbox" r (mkIndex 1 3) s = (Ret false, s).
Proof.
  intros s r. split; [vm_compute; reflexivity|].
  exact (proj1 (proj2 (@range_membership_half_open Scripted.tk Scripted.env
                         ".frame0.textbox" r (mkIndex 1 3) s
                         (scripted_compare_lexicographic _ _)))).
Defined.
